(** * Caching and offline subsystem of the water-filter site

    A shallow embedding of
    - [src/modules/map-manager.js], class [DataFetcher]: the in-memory TTL
      cache, the IndexedDB offline store, [fetchWithRetry],
      [fetchWaterAnalysis] and [getFallbackData]; class [MapManager]:
      [addMarkersInChunks];
    - [src/public/sw.js]: installation, activation, the fetch listener of
      the service worker with its three handlers, and background sync;
    - [src/modules/affiliate-optimizer.js]: [bufferAnalytics],
      [sendAnalytics], [sendBufferedAnalytics], the product
      recommendations and cross-selling;
    - [src/api/water-analysis.js]: the analysis endpoint with its simulated
      readings and risk assessment, and the recommendations read off a
      chat answer.

    Asynchronous methods are computations over an explicit world that hold
    what the host gives the code: the clock, the connectivity flag, the
    behaviour of the network, IndexedDB, the Cache Storage.  A promise is
    fulfilled, rejected, or never settles. *)

From Stdlib Require Import ZArith String Ascii List Bool Lia.
From Stdlib Require Import Uint63 PrimFloat FloatOps SpecFloat.
From stdpp Require Import gmap strings list pretty.

Set Warnings "-inexact-float,-register-all".
#[local] Open Scope string_scope.
#[local] Open Scope list_scope.
#[local] Open Scope Z_scope.

(* ===================================================================== *)
(** ** JavaScript values, errors and promises *)
(* ===================================================================== *)

Module Js.

(** JSON-like values.  Numbers are IEEE doubles; objects keep their
    properties in insertion order. *)
Inductive JsVal : Type :=
| JUndefined
| JNull
| JBool (b : bool)
| JNum (x : float)
| JStr (s : string)
| JArr (items : list JsVal)
| JObj (fields : list (string * JsVal)).

(** ToBoolean. *)
Definition truthy (v : JsVal) : bool :=
  match v with
  | JUndefined | JNull => false
  | JBool b => b
  | JNum x => negb (PrimFloat.is_zero x || PrimFloat.is_nan x)
  | JStr s => negb (String.eqb s "")
  | JArr _ | JObj _ => true
  end.

(** [o[k]] on a property list. *)
Fixpoint get_field (k : string) (o : list (string * JsVal)) : option JsVal :=
  match o with
  | [] => None
  | (k', v) :: rest => if String.eqb k k' then Some v else get_field k rest
  end.

(** [o[k] = v]: an existing property keeps its place, a new one goes last. *)
Fixpoint set_field (k : string) (v : JsVal) (o : list (string * JsVal))
  : list (string * JsVal) :=
  match o with
  | [] => [(k, v)]
  | (k', v') :: rest =>
      if String.eqb k k' then (k, v) :: rest else (k', v') :: set_field k v rest
  end.

Fixpoint index_from {A} (i : nat) (l : list A) : list (string * A) :=
  match l with
  | [] => []
  | x :: rest => (pretty i, x) :: index_from (S i) rest
  end.

Fixpoint chars (s : string) : list string :=
  match s with
  | EmptyString => []
  | String c rest => String c EmptyString :: chars rest
  end.

(** The own enumerable properties that [{...v}] copies. *)
Definition spread (v : JsVal) : list (string * JsVal) :=
  match v with
  | JObj fields => fields
  | JArr items => index_from 0 items
  | JStr s => index_from 0 (JStr <$> chars s)
  | _ => []
  end.

(** [{...v, k1: v1, ..., kn: vn}]. *)
Definition spread_with (v : JsVal) (extra : list (string * JsVal)) : JsVal :=
  JObj (fold_left (fun o kv => set_field kv.1 kv.2 o) extra (spread v)).

(** [String.prototype.includes]. *)
Fixpoint includes (s pat : string) : bool :=
  String.prefix pat s ||
  match s with
  | EmptyString => false
  | String _ rest => includes rest pat
  end.

(** [s.substring(0, n)]. *)
Definition substring_to (n : nat) (s : string) : string := String.substring 0 n s.

(** Thrown values: [name] is the constructor, [message] what the code reads. *)
Record JsError : Type := mkError { name : string; message : string }.

Definition Error (msg : string) : JsError := mkError "Error" msg.
Definition TypeError (msg : string) : JsError := mkError "TypeError" msg.
Definition ReferenceError (ident : string) : JsError :=
  mkError "ReferenceError" (ident +:+ " is not defined").
Definition AbortError : JsError :=
  mkError "AbortError" "signal is aborted without reason".

(** How a promise ends.  [Pending] is a promise that nothing will ever
    settle, so an [await] on it does not return. *)
Inductive Settled (A : Type) : Type :=
| Fulfilled (a : A)
| Rejected (e : JsError)
| Pending.
Arguments Fulfilled {A} a.
Arguments Rejected {A} e.
Arguments Pending {A}.

(** An async function over a world of type [W]. *)
Definition Async (W A : Type) : Type := W -> Settled A * W.

Definition throw {W A} (e : JsError) : Async W A := fun w => (Rejected e, w).
Definition gets {W A} (f : W -> A) : Async W A := fun w => (Fulfilled (f w), w).
Definition modify {W} (f : W -> W) : Async W unit := fun w => (Fulfilled tt, f w).

(** [try { body } catch (e) { handler e }]. *)
Definition try_catch {W A} (body : Async W A) (handler : JsError -> Async W A)
  : Async W A :=
  fun w =>
    match body w with
    | (Rejected e, w') => handler e w'
    | other => other
    end.

End Js.
Export Js.

#[global] Instance async_ret {W} : MRet (Async W) :=
  fun A a w => (Fulfilled a, w).

#[global] Instance async_bind {W} : MBind (Async W) :=
  fun A B k m w =>
    match m w with
    | (Fulfilled a, w') => k a w'
    | (Rejected e, w') => (Rejected e, w')
    | (Pending, w') => (Pending, w')
    end.

(* ===================================================================== *)
(** ** Number formatting used by the fallback generator *)
(* ===================================================================== *)

Module JsNumber.

(** A small non-negative integer as a double (exact below 2^53). *)
Definition of_Z (z : Z) : float := PrimFloat.of_uint63 (Uint63.of_Z z).

(** The integer nearest to [|x| * 10^f], the larger one on a tie, computed
    on the exact value [m * 2^e] of the double. *)
Definition scaled_magnitude (x : float) (f : nat) : Z :=
  match Prim2SF x with
  | S754_finite _ m e =>
      let num := Z.pos m * 10 ^ Z.of_nat f in
      if 0 <=? e then num * 2 ^ e
      else (2 * num + 2 ^ (- e)) / 2 ^ (1 - e)
  | _ => 0
  end.

Definition is_negative (x : float) : bool :=
  match Prim2SF x with
  | S754_finite s _ _ => s
  | _ => false
  end.

Fixpoint zeros (n : nat) : string :=
  match n with
  | O => ""
  | S k => "0" +:+ zeros k
  end.

(** Decimal digits of [n] with a point before the last [f] of them. *)
Definition place_point (n : Z) (f : nat) : string :=
  let digits := pretty n in
  match f with
  | O => digits
  | _ =>
      let padded := zeros (S f - String.length digits) +:+ digits in
      let k := (String.length padded - f)%nat in
      String.substring 0 k padded +:+ "." +:+ String.substring k f padded
  end.

(** [x.toFixed(f)] for a double of magnitude below 1e21. *)
Definition toFixed (x : float) (f : nat) : string :=
  match Prim2SF x with
  | S754_nan => "NaN"
  | S754_infinity s => if s then "-Infinity" else "Infinity"
  | _ =>
      (if is_negative x then "-" else "") +:+ place_point (scaled_magnitude x f) f
  end.

(** [Math.round(x)]: [floor(x + 0.5)] on the exact value; a double with a
    non-negative exponent is an integer already. *)
Definition Math_round (x : float) : float :=
  match Prim2SF x with
  | S754_finite s m e =>
      if 0 <=? e then x
      else
        let z := ((if s then - (2 * Z.pos m) else 2 * Z.pos m) + 2 ^ (- e))
                 / 2 ^ (1 - e) in
        if z <? 0 then (- of_Z (- z))%float
        else if (z =? 0) && s then (- 0)%float
        else of_Z z
  | _ => x
  end.

End JsNumber.

(* ===================================================================== *)
(** ** [DataFetcher] (src/modules/map-manager.js) *)
(* ===================================================================== *)

Module DataFetcher.

(** The second argument of [fetch]; [req_body v] stands for the text
    [JSON.stringify(v)]. *)
Record RequestInit : Type := mkInit {
  req_method : string;
  req_headers : list (string * string);
  req_body : JsVal
}.

(** What the code reads of a response: the status and what
    [response.json()] settles to. *)
Record Response : Type := mkResponse {
  status : Z;
  json : JsError + JsVal
}.

Definition ok (r : Response) : bool := (200 <=? status r) && (status r <=? 299).

Inductive FetchOutcome : Type :=
| Rejects (e : JsError)
| Responds (r : Response).

(** One call of [fetch] as the network answers it, [latency] milliseconds
    after the call. *)
Record Attempt : Type := mkAttempt {
  latency : Z;
  outcome : FetchOutcome
}.

(** Beyond the scripted attempts the network cannot be reached. *)
Definition unreachable : Attempt :=
  mkAttempt 0 (Rejects (TypeError "Failed to fetch")).

Inductive Effect : Type :=
| Fetched (url : string) (init : RequestInit)
| Slept (ms : Z).

(** A value of [this.cache]. *)
Record CacheEntry : Type := mkEntry {
  data : JsVal;
  timestamp : Z
}.

(** A record of the object store ['analysis'], keyed by [plz]. *)
Record OfflineRecord : Type := mkRecord {
  rec_plz : string;
  rec_data : JsVal;
  rec_timestamp : Z
}.

(** What the host lets go wrong in one IndexedDB round trip: the open
    request, the transaction, or the request on the store. *)
Inductive IdbFault : Type :=
| NoFault
| OpenFails (e : JsError)
| TransactionFails (e : JsError)
| RequestFails (e : JsError).

(** The page as the code sees it, and the fields of the [DataFetcher]
    instance.  A database is the map of its object stores;
    [indexedDB = None] when [window] has no [indexedDB]. *)
Record World : Type := mkWorld {
  clock : Z;                                   (* Date.now() *)
  onLine : bool;                               (* navigator.onLine *)
  network : list Attempt;                      (* the coming fetch() calls *)
  effects : list Effect;                       (* what was done, in order *)
  node_env : option string;                    (* process.env.NODE_ENV; None: no [process] *)
  indexedDB : option (gmap string (gmap string (gmap string OfflineRecord)));
  idb_faults : list IdbFault;                  (* the coming IndexedDB round trips *)
  cache : gmap string CacheEntry;              (* this.cache *)
  cacheDuration : Z;                           (* this.cacheDuration *)
  offlineStorage : string;                     (* this.offlineStorage *)
  apiBase : string                             (* this.apiBase *)
}.

Definition set_clock (t : Z) (w : World) : World :=
  mkWorld t (onLine w) (network w) (effects w) (node_env w) (indexedDB w)
          (idb_faults w) (cache w) (cacheDuration w) (offlineStorage w) (apiBase w).

Definition set_onLine (b : bool) (w : World) : World :=
  mkWorld (clock w) b (network w) (effects w) (node_env w) (indexedDB w)
          (idb_faults w) (cache w) (cacheDuration w) (offlineStorage w) (apiBase w).

Definition set_network (n : list Attempt) (w : World) : World :=
  mkWorld (clock w) (onLine w) n (effects w) (node_env w) (indexedDB w)
          (idb_faults w) (cache w) (cacheDuration w) (offlineStorage w) (apiBase w).

Definition set_effects (l : list Effect) (w : World) : World :=
  mkWorld (clock w) (onLine w) (network w) l (node_env w) (indexedDB w)
          (idb_faults w) (cache w) (cacheDuration w) (offlineStorage w) (apiBase w).

Definition set_indexedDB
    (d : option (gmap string (gmap string (gmap string OfflineRecord))))
    (w : World) : World :=
  mkWorld (clock w) (onLine w) (network w) (effects w) (node_env w) d
          (idb_faults w) (cache w) (cacheDuration w) (offlineStorage w) (apiBase w).

Definition set_idb_faults (f : list IdbFault) (w : World) : World :=
  mkWorld (clock w) (onLine w) (network w) (effects w) (node_env w) (indexedDB w)
          f (cache w) (cacheDuration w) (offlineStorage w) (apiBase w).

Definition set_cache (c : gmap string CacheEntry) (w : World) : World :=
  mkWorld (clock w) (onLine w) (network w) (effects w) (node_env w) (indexedDB w)
          (idb_faults w) c (cacheDuration w) (offlineStorage w) (apiBase w).

Definition record_effect (e : Effect) (w : World) : World :=
  set_effects (effects w ++ [e]) w.

(** *** The constructor *)

(** [new DataFetcher(options)] in a page [w]: an empty [Map], and
    [options.x || default] for the two options (a duration of 0 and an empty
    base are falsy). *)
Definition constructor (opt_cacheDuration : option Z) (opt_apiBase : option string)
    (w : World) : World :=
  mkWorld (clock w) (onLine w) (network w) (effects w) (node_env w) (indexedDB w)
          (idb_faults w)
          ∅
          (match opt_cacheDuration with
           | Some d => if d =? 0 then 5 * 60 * 1000 else d
           | None => 5 * 60 * 1000
           end)
          "waterDataCache"
          (match opt_apiBase with
           | Some b => if String.eqb b "" then "/api" else b
           | None => "/api"
           end).

(** *** [setupCacheCleanup] *)

(** The period given to [setInterval]. *)
Definition cleanupInterval : Z := 60000.

(** The callback given to [setInterval]: one pass over [this.cache]. *)
Definition cacheCleanup (w : World) : World :=
  set_cache
    (filter (fun kv => ¬ (cacheDuration w < clock w - timestamp kv.2)) (cache w))
    w.

(** [n] periods of the timer with nothing else running. *)
Fixpoint idle (n : nat) (w : World) : World :=
  match n with
  | O => w
  | S k => idle k (cacheCleanup (set_clock (clock w + cleanupInterval) w))
  end.

(** *** [fetchWithRetry] *)

(** [fetch(url, {...options, signal})] under the [timeout] of the abort
    controller. *)
Definition fetch (url : string) (init : RequestInit) (timeout : Z)
  : Async World Response :=
  fun w =>
    let a := hd unreachable (network w) in
    let w1 := record_effect (Fetched url init) (set_network (tl (network w)) w) in
    if latency a <? timeout then
      match outcome a with
      | Rejects e => (Rejected e, set_clock (clock w + latency a) w1)
      | Responds r => (Fulfilled r, set_clock (clock w + latency a) w1)
      end
    else (Rejected AbortError, set_clock (clock w + timeout) w1).

Definition response_json (r : Response) : Async World JsVal :=
  match json r with
  | inl e => throw e
  | inr v => mret v
  end.

(** [await new Promise(resolve => setTimeout(resolve, ms))]. *)
Definition sleep (ms : Z) : Async World unit :=
  modify (fun w => record_effect (Slept ms) (set_clock (clock w + ms) w)).

(** The body of the [try] of one iteration. *)
Definition attempt (url : string) (init : RequestInit) : Async World JsVal :=
  response ← fetch url init 8000;
  if ok response then response_json response
  else throw (Error ("HTTP " +:+ pretty (status response))).

(** The [for] loop from index [i] with [todo] iterations left; falling out
    of the loop returns [undefined]. *)
Fixpoint retry_loop (url : string) (init : RequestInit) (retries : nat)
    (todo i : nat) : Async World JsVal :=
  match todo with
  | O => mret JUndefined
  | S todo' =>
      try_catch (attempt url init)
        (fun error =>
           if (i =? retries - 1)%nat then throw error
           else sleep (1000 * 2 ^ Z.of_nat i);;
                retry_loop url init retries todo' (S i))
  end.

(** [fetchWithRetry(url, options, retries = 3)]; [None] is a call that
    leaves the third argument out. *)
Definition fetchWithRetry (url : string) (init : RequestInit) (retries : option nat)
  : Async World JsVal :=
  let retries := default 3%nat retries in
  retry_loop url init retries retries 0.

(** *** The offline store in IndexedDB *)

(** The [onupgradeneeded] handler of [saveOfflineData]. *)
Definition create_analysis (db : gmap string (gmap string OfflineRecord))
  : gmap string (gmap string OfflineRecord) :=
  match db !! "analysis" with
  | Some _ => db
  | None => <["analysis" := ∅]> db
  end.

(** [indexedDB.open(name, 1)] when the open request succeeds: the database
    and the databases afterwards.  A database that did not exist is created
    without object stores and handed to [upgrade], the [onupgradeneeded]
    handler of the caller; an existing one (the code only ever asks for
    version 1) is opened as it is. *)
Definition open_database (name : string)
    (upgrade : gmap string (gmap string OfflineRecord) ->
               gmap string (gmap string OfflineRecord))
    (dbs : gmap string (gmap string (gmap string OfflineRecord)))
  : gmap string (gmap string OfflineRecord) *
    gmap string (gmap string (gmap string OfflineRecord)) :=
  match dbs !! name with
  | Some db => (db, dbs)
  | None => (upgrade ∅, <[name := upgrade ∅]> dbs)
  end.

(** [saveOfflineData].  [db.transaction(['analysis'], ...)] throws inside
    the [onsuccess] handler when the database has no such object store:
    neither [resolve] nor [reject] is then ever called.  An error of the
    [put] request reaches [transaction.onerror] as an error of the
    transaction does. *)
Definition saveOfflineData (plz : string) (data : JsVal) : Async World unit :=
  fun w =>
    match indexedDB w with
    | None => (Fulfilled tt, w)
    | Some dbs =>
        let fault := hd NoFault (idb_faults w) in
        let w1 := set_idb_faults (tl (idb_faults w)) w in
        match fault with
        | OpenFails e => (Rejected e, w1)
        | _ =>
            let '(db, dbs') := open_database (offlineStorage w) create_analysis dbs in
            match db !! "analysis" with
            | None => (Pending, set_indexedDB (Some dbs') w1)
            | Some store =>
                match fault with
                | TransactionFails e | RequestFails e =>
                    (Rejected e, set_indexedDB (Some dbs') w1)
                | _ =>
                    let record := mkRecord plz data (clock w) in
                    (Fulfilled tt,
                     set_indexedDB
                       (Some (<[offlineStorage w :=
                                  <["analysis" := <[plz := record]> store]> db]> dbs'))
                       w1)
                end
            end
        end
    end.

(** [getOfflineData]: every handler it registers resolves, with the data
    of a record younger than seven days or with [null]; it registers no
    [onupgradeneeded] handler. *)
Definition getOfflineData (plz : string) : Async World JsVal :=
  fun w =>
    match indexedDB w with
    | None => (Fulfilled JNull, w)
    | Some dbs =>
        let fault := hd NoFault (idb_faults w) in
        let w1 := set_idb_faults (tl (idb_faults w)) w in
        match fault with
        | OpenFails _ => (Fulfilled JNull, w1)
        | _ =>
            let '(db, dbs') := open_database (offlineStorage w) id dbs in
            let w2 := set_indexedDB (Some dbs') w1 in
            match db !! "analysis" with
            | None => (Pending, w2)
            | Some store =>
                match fault with
                | TransactionFails _ | RequestFails _ => (Fulfilled JNull, w2)
                | _ =>
                    match store !! plz with
                    | Some result =>
                        if clock w - rec_timestamp result <? 7 * 24 * 60 * 60 * 1000
                        then (Fulfilled (rec_data result), w2)
                        else (Fulfilled JNull, w2)
                    | None => (Fulfilled JNull, w2)
                    end
                end
            end
        end
    end.

(** [clearCache]. *)
Definition clearCache (w : World) : World :=
  set_indexedDB (delete (offlineStorage w) <$> indexedDB w) (set_cache ∅ w).

(** *** The fallback generator *)

Definition cities : list (string * string) :=
  [("10", "Berlin"); ("20", "Hamburg"); ("30", "Hannover");
   ("40", "Düsseldorf"); ("50", "Köln"); ("60", "Frankfurt");
   ("70", "Stuttgart"); ("80", "München"); ("90", "Nürnberg")].

Fixpoint lookup_city (prefix : string) (table : list (string * string))
  : option string :=
  match table with
  | [] => None
  | (k, v) :: rest => if String.eqb prefix k then Some v else lookup_city prefix rest
  end.

Definition guessCityFromPLZ (plz : string) : Async World string :=
  let prefix := substring_to 2 plz in
  mret (default "Unbekannte Region" (lookup_city prefix cities)).

(** [plz.split('').reduce((acc, char) => acc + char.charCodeAt(0), 0)];
    a key is a string of code units below 256 and the sum is exact. *)
Fixpoint charCodes (s : string) : list Z :=
  match s with
  | EmptyString => []
  | String c rest => Z.of_nat (nat_of_ascii c) :: charCodes rest
  end.

Definition hash (plz : string) : Z :=
  fold_left (fun acc code => acc + code) (charCodes plz) 0.

(** [(hash % 100) / 100]. *)
Definition seed (plz : string) : float :=
  (JsNumber.of_Z (Z.rem (hash plz) 100) / 100)%float.

Definition getFallbackData (plz : string) : Async World JsVal :=
  let seed := seed plz in
  city ← guessCityFromPLZ plz;
  mret (JObj
    [("success", JBool true);
     ("plz", JStr plz);
     ("city", JStr city);
     ("waterData", JObj
        [("pfas", JObj [("value", JStr (JsNumber.toFixed (10 + seed * 30) 1));
                        ("unit", JStr "ng/L"); ("limit", JNum 20)]);
         ("nitrate", JObj [("value", JStr (JsNumber.toFixed (20 + seed * 30) 1));
                           ("unit", JStr "mg/L"); ("limit", JNum 50)]);
         ("hardness", JObj [("value", JStr (JsNumber.toFixed (10 + seed * 15) 0));
                            ("unit", JStr "°dH")])]);
     ("riskAssessment", JObj
        [("level", JStr (if (0.7 <? seed)%float then "medium"
                         else if (0.4 <? seed)%float then "elevated" else "low"));
         ("score", JNum (JsNumber.Math_round (seed * 70)));
         ("color", JStr (if (0.7 <? seed)%float then "orange"
                         else if (0.4 <? seed)%float then "yellow" else "green"))]);
     ("recommendations", JArr
        [JObj [("id", JStr "lotus_vita"); ("name", JStr "Lotus Vita Fontana");
               ("type", JStr "countertop"); ("price", JNum 329)]]);
     ("source", JStr "fallback_data");
     ("offline", JBool true)])%float.

(** *** [logAnalytics] *)

(** The entry it builds is only printed; reading [process.env.NODE_ENV]
    needs the identifier [process] to be bound. *)
Definition logAnalytics (event : string) (data : JsVal) : Async World unit :=
  fun w =>
    match node_env w with
    | None => (Rejected (ReferenceError "process"), w)
    | Some _ => (Fulfilled tt, w)
    end.

(** *** [fetchWaterAnalysis] *)

(** Step 1: the entry of [this.cache] that the first [if] returns. *)
Definition memory_hit (cacheKey : string) (forceRefresh : bool) (w : World)
  : option CacheEntry :=
  if forceRefresh then None
  else
    match cache w !! cacheKey with
    | Some cached =>
        if clock w - timestamp cached <? cacheDuration w then Some cached else None
    | None => None
    end.

Definition analysis_request (plz : string) : RequestInit :=
  mkInit "POST" [("Content-Type", "application/json")] (JObj [("plz", JStr plz)]).

Definition fetchWaterAnalysis (plz : string) (forceRefresh : bool)
  : Async World JsVal :=
  let cacheKey := "analysis_" +:+ plz in
  hit ← gets (memory_hit cacheKey forceRefresh);
  match hit with
  | Some cached =>
      mret (spread_with (data cached) [("source", JStr "memory_cache")])
  | None =>
      online ← gets onLine;
      if negb online then
        offlineData ← getOfflineData plz;
        if truthy offlineData then
          mret (spread_with offlineData
                  [("source", JStr "offline_storage"); ("offline", JBool true)])
        else throw (Error "Offline und keine gespeicherten Daten verfügbar")
      else
        try_catch
          (base ← gets apiBase;
           data ← fetchWithRetry (base +:+ "/water-analysis") (analysis_request plz) None;
           now ← gets clock;
           modify (fun w => set_cache (<[cacheKey := mkEntry data now]> (cache w)) w);;
           saveOfflineData plz data;;
           logAnalytics "analysis_fetch"
             (JObj [("plz", JStr plz); ("success", JBool true);
                    ("cacheHit", JBool false)]);;
           mret (spread_with data [("source", JStr "api")]))
          (fun error =>
             if includes (message error) "Failed to fetch" then getFallbackData plz
             else throw error)
  end.

(** *** Reading a run *)

(** What the [try] block of one iteration comes to, read off the answer of
    the network: the parsed body, or the error the [catch] receives. *)
Definition verdict (a : Attempt) : JsError + JsVal :=
  if latency a <? 8000 then
    match outcome a with
    | Rejects e => inl e
    | Responds r =>
        if ok r then json r else inl (Error ("HTTP " +:+ pretty (status r)))
    end
  else inl AbortError.

Definition settle (v : JsError + JsVal) : Settled JsVal :=
  match v with
  | inl e => Rejected e
  | inr x => Fulfilled x
  end.

(** The world once a call of [fetch] has come back. *)
Definition after_fetch (url : string) (init : RequestInit) (w : World) : World :=
  let a := hd unreachable (network w) in
  set_clock (clock w + (if latency a <? 8000 then latency a else 8000))
    (record_effect (Fetched url init) (set_network (tl (network w)) w)).

Definition after_sleep (ms : Z) (w : World) : World :=
  record_effect (Slept ms) (set_clock (clock w + ms) w).

(** The effects of [k] attempts starting at loop index [i]: a wait of
    [1000 * 2^i] between one attempt and the next, none after the last. *)
Fixpoint schedule (url : string) (init : RequestInit) (k i : nat) : list Effect :=
  match k with
  | O => []
  | S O => [Fetched url init]
  | S k' => Fetched url init :: Slept (1000 * 2 ^ Z.of_nat i) :: schedule url init k' (S i)
  end.

(** The number of [fetch] calls in a trace. *)
Fixpoint fetch_count (l : list Effect) : nat :=
  match l with
  | [] => O
  | Fetched _ _ :: rest => S (fetch_count rest)
  | Slept _ :: rest => fetch_count rest
  end.

(** The record that the object store ['analysis'] of the offline database
    holds for [plz]. *)
Definition stored_record (w : World) (plz : string) : option OfflineRecord :=
  dbs ← indexedDB w;
  db ← dbs !! offlineStorage w;
  store ← db !! "analysis";
  store !! plz.

(** The offline database exists and has its object store. *)
Definition has_store (w : World) : Prop :=
  exists dbs db store,
    indexedDB w = Some dbs /\ dbs !! offlineStorage w = Some db /\
    db !! "analysis" = Some store.

Definition seven_days : Z := 7 * 24 * 60 * 60 * 1000.

(** The [source] property of a result. *)
Definition source_of (v : JsVal) : option JsVal :=
  match v with
  | JObj fields => get_field "source" fields
  | _ => None
  end.

(** The three tagged results of [fetchWaterAnalysis]. *)
Definition from_memory (data : JsVal) : JsVal :=
  spread_with data [("source", JStr "memory_cache")].
Definition from_offline (data : JsVal) : JsVal :=
  spread_with data [("source", JStr "offline_storage"); ("offline", JBool true)].
Definition from_api (data : JsVal) : JsVal :=
  spread_with data [("source", JStr "api")].

Definition offline_unavailable : JsError :=
  Error "Offline und keine gespeicherten Daten verfügbar".

(** The request of step 3. *)
Definition analysis_url (w : World) : string := apiBase w +:+ "/water-analysis".

(** What the [catch] of step 3 does with an error. *)
Definition recover (plz : string) (e : JsError) : Async World JsVal :=
  if includes (message e) "Failed to fetch" then getFallbackData plz else throw e.

(** [w'] differs from [w] at most in the clock, the network still to come
    and the trace. *)
Definition same_storage (w w' : World) : Prop :=
  cache w' = cache w /\ cacheDuration w' = cacheDuration w /\
  indexedDB w' = indexedDB w /\ idb_faults w' = idb_faults w /\
  offlineStorage w' = offlineStorage w /\ node_env w' = node_env w /\
  onLine w' = onLine w /\ apiBase w' = apiBase w.

(** The error that the host raises on the next write to the offline
    store, if any. *)
Definition write_fault (w : World) : option JsError :=
  match indexedDB w, hd NoFault (idb_faults w) with
  | Some _, OpenFails e | Some _, TransactionFails e | Some _, RequestFails e => Some e
  | _, _ => None
  end.

(** The offline database, when it exists, has its object store. *)
Definition store_intact (w : World) : Prop :=
  forall dbs db, indexedDB w = Some dbs -> dbs !! offlineStorage w = Some db ->
    is_Some (db !! "analysis").

(** The property of a result found under a path of keys. *)
Fixpoint property_at (keys : list string) (v : JsVal) : option JsVal :=
  match keys with
  | [] => Some v
  | k :: rest =>
      match v with
      | JObj fields =>
          match get_field k fields with
          | Some x => property_at rest x
          | None => None
          end
      | _ => None
      end
  end.

End DataFetcher.

(* ===================================================================== *)
(** ** The service worker (src/public/sw.js) *)
(* ===================================================================== *)

Module ServiceWorker.

Definition CACHE_NAME : string := "wasserfilter-v4".
Definition OFFLINE_URL : string := "/offline.html".

Definition PRECACHE_ASSETS : list string :=
  ["/"; "/index.html"; "/styles/main.css"; "/scripts/main.js";
   "/images/logo.png"; "/manifest.json"; "/favicon.ico"].

Definition API_CACHE_PATTERNS : list string :=
  ["/api/water-analysis"; "/api/plz-data"].

(** [new URL(request.url)], already parsed. *)
Record URL : Type := mkURL {
  origin : string;
  pathname : string;
  search : string
}.

Definition href (u : URL) : string := origin u +:+ pathname u +:+ search u.

Record Request : Type := mkRequest {
  method : string;
  url : URL;
  mode : string
}.

(** [Json v] is the text [JSON.stringify(v)]. *)
Inductive Body : Type :=
| Text (s : string)
| Json (v : JsVal).

Record Response : Type := mkResponse {
  status : Z;
  headers : list (string * string);
  body : Body
}.

Inductive FetchOutcome : Type :=
| Rejects (e : JsError)
| Responds (r : Response).

Inductive Effect : Type :=
| Fetched (u : string)
| Put (cacheName u : string).

(** The worker's world.  [caches] is the Cache Storage in creation order,
    each cache keyed by request URL; [event_bound] tells whether the
    identifier [event] resolves in the global scope of the worker. *)
Record Worker : Type := mkWorker {
  location_origin : string;
  caches : list (string * gmap string Response);
  network : list FetchOutcome;
  effects : list Effect;
  event_bound : bool
}.

Definition set_caches (c : list (string * gmap string Response)) (w : Worker)
  : Worker :=
  mkWorker (location_origin w) c (network w) (effects w) (event_bound w).

Definition set_network (n : list FetchOutcome) (w : Worker) : Worker :=
  mkWorker (location_origin w) (caches w) n (effects w) (event_bound w).

Definition record_effect (e : Effect) (w : Worker) : Worker :=
  mkWorker (location_origin w) (caches w) (network w) (effects w ++ [e])
           (event_bound w).

(** *** Cache Storage *)

Fixpoint find_cache (name : string) (cs : list (string * gmap string Response))
  : option (gmap string Response) :=
  match cs with
  | [] => None
  | (n, c) :: rest => if String.eqb name n then Some c else find_cache name rest
  end.

Fixpoint update_cache (name : string) (f : gmap string Response -> gmap string Response)
    (cs : list (string * gmap string Response))
  : list (string * gmap string Response) :=
  match cs with
  | [] => []
  | (n, c) :: rest =>
      if String.eqb name n then (n, f c) :: rest
      else (n, c) :: update_cache name f rest
  end.

(** [caches.open(name)] creates the cache when there is none. *)
Definition caches_open (name : string) : Async Worker unit :=
  modify (fun w =>
    match find_cache name (caches w) with
    | Some _ => w
    | None => set_caches (caches w ++ [(name, ∅)]) w
    end).

(** [cache.match(request)] on the cache opened as [name]. *)
Definition cache_match (name : string) (request : Request)
  : Async Worker (option Response) :=
  gets (fun w => c ← find_cache name (caches w); c !! href (url request)).

(** [cache.put(request, response)]. *)
Definition cache_put (name : string) (request : Request) (response : Response)
  : Async Worker unit :=
  modify (fun w =>
    record_effect (Put name (href (url request)))
      (set_caches
         (update_cache name (fun c => <[href (url request) := response]> c) (caches w))
         w)).

Fixpoint first_match (u : string) (cs : list (string * gmap string Response))
  : option Response :=
  match cs with
  | [] => None
  | (_, c) :: rest =>
      match c !! u with
      | Some r => Some r
      | None => first_match u rest
      end
  end.

(** [caches.match(path)]: the path resolves against the worker's origin and
    every cache is searched, oldest first. *)
Definition caches_match (path : string) : Async Worker (option Response) :=
  gets (fun w => first_match (location_origin w +:+ path) (caches w)).

(** [fetch(request)] from inside the worker. *)
Definition fetch (request : Request) : Async Worker Response :=
  fun w =>
    let w1 := record_effect (Fetched (href (url request)))
                (set_network (tl (network w)) w) in
    match hd (Rejects (TypeError "Failed to fetch")) (network w) with
    | Rejects e => (Rejected e, w1)
    | Responds r => (Fulfilled r, w1)
    end.

(** *** The handlers *)

Definition offline_response : Response :=
  mkResponse 503 [("Content-Type", "application/json")]
    (Json (JObj
       [("error", JStr "Offline");
        ("message",
         JStr "Sie sind offline. Bitte stellen Sie eine Internetverbindung her.")])).

Definition handleApiRequest (request : Request) : Async Worker Response :=
  caches_open CACHE_NAME;;
  try_catch
    (networkResponse ← fetch request;
     let responseToCache := networkResponse in
     (if status networkResponse =? 200
      then cache_put CACHE_NAME request responseToCache
      else mret tt);;
     mret networkResponse)
    (fun error =>
       cachedResponse ← cache_match CACHE_NAME request;
       match cachedResponse with
       | Some r => mret r
       | None => mret offline_response
       end).

Definition updateCache (request : Request) (cacheName : string)
  : Async Worker unit :=
  try_catch
    (networkResponse ← fetch request;
     if status networkResponse =? 200
     then cache_put cacheName request networkResponse
     else mret tt)
    (fun error => mret tt).

(** [handleStaticRequest] has no binding for [event] of its own: the
    identifier is looked up in the global scope when the hit branch runs,
    before [updateCache] is called. *)
Definition handleStaticRequest (request : Request) : Async Worker Response :=
  caches_open CACHE_NAME;;
  cachedResponse ← cache_match CACHE_NAME request;
  match cachedResponse with
  | Some r =>
      bound ← gets event_bound;
      if bound : bool then updateCache request CACHE_NAME;; mret r
      else throw (ReferenceError "event")
  | None => fetch request
  end.

(** [undefined] is [None]: [caches.match] resolves to it on a miss. *)
Definition handleNetworkFirst (request : Request)
  : Async Worker (option Response) :=
  try_catch
    (networkResponse ← fetch request;
     mret (Some networkResponse))
    (fun error =>
       caches_open CACHE_NAME;;
       cachedResponse ← cache_match CACHE_NAME request;
       match cachedResponse with
       | Some r => mret (Some r)
       | None =>
           if String.eqb (mode request) "navigate" then caches_match OFFLINE_URL
           else throw error
       end).

(** *** The fetch listener *)

Inductive Route : Type := Bypass | Api | Static | NetworkFirst.

Definition route (request : Request) : Route :=
  if negb (String.eqb (method request) "GET") then Bypass
  else if existsb (fun pattern => includes (pathname (url request)) pattern)
            API_CACHE_PATTERNS then Api
  else if existsb (fun asset => includes (pathname (url request)) asset)
            PRECACHE_ASSETS then Static
  else NetworkFirst.

(** What the listener passes to [event.respondWith]; [None] when it returns
    without responding. *)
Definition onfetch (request : Request) : option (Async Worker (option Response)) :=
  match route request with
  | Bypass => None
  | Api => Some (r ← handleApiRequest request; mret (Some r))
  | Static => Some (r ← handleStaticRequest request; mret (Some r))
  | NetworkFirst => Some (handleNetworkFirst request)
  end.

(** *** Reading a run *)

(** The content of the current cache generation. *)
Definition current_cache (w : Worker) : gmap string Response :=
  default ∅ (find_cache CACHE_NAME (caches w)).

(** What the next call of [fetch] will meet. *)
Definition next_answer (w : Worker) : FetchOutcome :=
  hd (Rejects (TypeError "Failed to fetch")) (network w).

(** The [error] property of a JSON body. *)
Definition body_error (r : Response) : option JsVal :=
  match body r with
  | Json (JObj fields) => get_field "error" fields
  | _ => None
  end.

(** The worker after [caches.open(CACHE_NAME)]. *)
Definition opened (w : Worker) : Worker := (caches_open CACHE_NAME w).2.

(** The worker once a call of [fetch] has come back. *)
Definition after_fetch (request : Request) (w : Worker) : Worker :=
  record_effect (Fetched (href (url request))) (set_network (tl (network w)) w).

Definition is_api (request : Request) : bool :=
  existsb (fun pattern => includes (pathname (url request)) pattern) API_CACHE_PATTERNS.

Definition is_static (request : Request) : bool :=
  existsb (fun asset => includes (pathname (url request)) asset) PRECACHE_ASSETS.

End ServiceWorker.

(* ===================================================================== *)
(** ** [AffiliateOptimizer.bufferAnalytics] (src/modules/affiliate-optimizer.js) *)
(* ===================================================================== *)

Module AffiliateOptimizer.

(** [a.slice(start)]. *)
Definition slice {A} (start : Z) (a : list A) : list A :=
  let len := Z.of_nat (length a) in
  let k := if start <? 0 then Z.max (len + start) 0 else Z.min start len in
  drop (Z.to_nat k) a.

(** [localStorage]: an item [v] stands for the text [JSON.stringify(v)], and
    [JSON.parse] of that text gives [v] back.  A missing item reads as
    ['[]']; [push] exists on arrays only. *)
Definition bufferAnalytics (event : JsVal) : Async (gmap string JsVal) unit :=
  fun localStorage =>
    match default (JArr []) (localStorage !! "analytics_buffer") with
    | JArr buffer =>
        (Fulfilled tt,
         <["analytics_buffer" := JArr (slice (-50) (buffer ++ [event]))]> localStorage)
    | _ => (Rejected (TypeError "buffer.push is not a function"), localStorage)
    end.

End AffiliateOptimizer.

(* ===================================================================== *)
(** ** The worker's lifecycle and background sync (src/public/sw.js) *)
(* ===================================================================== *)

Module WorkerLifecycle.
Import ServiceWorker.

(** The worker together with what it has asked of its registration:
    [self.skipWaiting()] and [self.clients.claim()]. *)
Record Registration : Type := mkRegistration {
  worker : Worker;
  skipped_waiting : bool;
  clients_claimed : bool
}.

Definition lift {A} (m : Async Worker A) : Async Registration A :=
  fun r =>
    let '(a, w') := m (worker r) in
    (a, mkRegistration w' (skipped_waiting r) (clients_claimed r)).

(** The request that [cache.addAll] builds from a path. *)
Definition asset_request (w : Worker) (path : string) : Request :=
  mkRequest "GET" (mkURL (location_origin w) path "") "cors".

Definition response_ok (r : Response) : bool :=
  (200 <=? status r) && (status r <=? 299).

(** A response that [addAll] accepts: an ok status other than 206. *)
Definition addable (r : Response) : bool :=
  response_ok r && negb (status r =? 206).

(** All the requests of [addAll] go out; each takes the next answer of the
    network. *)
Fixpoint fetch_each (requests : list Request) (w : Worker)
  : list (Request * FetchOutcome) * Worker :=
  match requests with
  | [] => ([], w)
  | request :: rest =>
      let '(answers, w') := fetch_each rest (after_fetch request w) in
      ((request, next_answer w) :: answers, w')
  end.

Fixpoint all_ok (answers : list (Request * FetchOutcome))
  : option (list (Request * Response)) :=
  match answers with
  | [] => Some []
  | (request, Responds r) :: rest =>
      if addable r then
        match all_ok rest with
        | Some entries => Some ((request, r) :: entries)
        | None => None
        end
      else None
  | (_, Rejects _) :: _ => None
  end.

Definition put_all (name : string) (entries : list (Request * Response))
    (w : Worker) : Worker :=
  fold_left (fun w' entry => (cache_put name entry.1 entry.2 w').2) entries w.

(** [cache.addAll(paths)] on the cache opened as [name]: the responses are
    stored only when every request was answered with an ok status other
    than 206;
    otherwise the promise is rejected and nothing is stored. *)
Definition addAll (name : string) (paths : list string) : Async Worker unit :=
  fun w =>
    let '(answers, w1) := fetch_each (asset_request w <$> paths) w in
    match all_ok answers with
    | Some entries => (Fulfilled tt, put_all name entries w1)
    | None => (Rejected (TypeError "Failed to execute 'addAll' on 'Cache': Request failed"), w1)
    end.

(** The promise that the install listener hands to [event.waitUntil]. *)
Definition install : Async Registration unit :=
  lift (caches_open CACHE_NAME);;
  lift (addAll CACHE_NAME PRECACHE_ASSETS);;
  modify (fun r => mkRegistration (worker r) true (clients_claimed r)).

(** [caches.delete(name)]. *)
Definition caches_delete (name : string) : Async Worker unit :=
  modify (fun w =>
    set_caches (List.filter (fun c => negb (String.eqb c.1 name)) (caches w)) w).

Fixpoint delete_old (cacheNames : list string) : Async Worker unit :=
  match cacheNames with
  | [] => mret tt
  | cacheName :: rest =>
      (if negb (String.eqb cacheName CACHE_NAME) then caches_delete cacheName
       else mret tt);;
      delete_old rest
  end.

(** The promise that the activate listener hands to [event.waitUntil]. *)
Definition activate : Async Registration unit :=
  cacheNames ← lift (gets (fun w => (caches w).*1));
  lift (delete_old cacheNames);;
  modify (fun r => mkRegistration (worker r) (skipped_waiting r) true).

(** *** Background sync *)

(** A record of the object store ['events'] of [AnalyticsDB], keyed by
    [id]. *)
Record AnalyticsEvent : Type := mkEvent {
  event_id : Z;
  event_payload : JsVal
}.

(** What [syncAnalytics] works on: the store in key order, as [getAll]
    returns it; the answers to the coming requests and to the coming
    deletions; the events posted so far. *)
Record SyncWorld : Type := mkSync {
  pending : list AnalyticsEvent;
  sync_network : list FetchOutcome;
  delete_faults : list (option JsError);
  open_fault : option JsError;
  read_fault : option JsError;
  posted : list AnalyticsEvent
}.

Definition openAnalyticsDB : Async SyncWorld unit :=
  fun w =>
    match open_fault w with
    | Some e => (Rejected e, w)
    | None => (Fulfilled tt, w)
    end.

Definition getAllPendingEvents : Async SyncWorld (list AnalyticsEvent) :=
  fun w =>
    match read_fault w with
    | Some e => (Rejected e, w)
    | None => (Fulfilled (pending w), w)
    end.

(** [fetch('/api/analytics', { method: 'POST', ..., body: JSON.stringify(event) })]:
    it rejects only when the request cannot be made; a response of any
    status fulfils it. *)
Definition post_event (event : AnalyticsEvent) : Async SyncWorld unit :=
  fun w =>
    let w1 := mkSync (pending w) (tl (sync_network w)) (delete_faults w)
                (open_fault w) (read_fault w) (posted w ++ [event]) in
    match hd (Rejects (TypeError "Failed to fetch")) (sync_network w) with
    | Rejects e => (Rejected e, w1)
    | Responds _ => (Fulfilled tt, w1)
    end.

Definition deleteEvent (id : Z) : Async SyncWorld unit :=
  fun w =>
    match hd None (delete_faults w) with
    | Some e =>
        (Rejected e,
         mkSync (pending w) (sync_network w) (tl (delete_faults w))
           (open_fault w) (read_fault w) (posted w))
    | None =>
        (Fulfilled tt,
         mkSync (List.filter (fun ev => negb (event_id ev =? id)) (pending w))
           (sync_network w) (tl (delete_faults w))
           (open_fault w) (read_fault w) (posted w))
    end.

(** The [for] loop of [syncAnalytics]: the [catch] logs and breaks. *)
Fixpoint replay (pendingEvents : list AnalyticsEvent) : Async SyncWorld unit :=
  match pendingEvents with
  | [] => mret tt
  | event :: rest =>
      fun w =>
        match (post_event event;; deleteEvent (event_id event)) w with
        | (Fulfilled _, w') => replay rest w'
        | (Rejected _, w') => (Fulfilled tt, w')
        | (Pending, w') => (Pending, w')
        end
  end.

Definition syncAnalytics : Async SyncWorld unit :=
  openAnalyticsDB;;
  pendingEvents ← getAllPendingEvents;
  replay pendingEvents.

Definition syncNewsletterSubscriptions : Async SyncWorld unit := mret tt.

(** The sync listener: what it hands to [event.waitUntil], in order. *)
Definition onsync (tag : string) : list (Async SyncWorld unit) :=
  (if String.eqb tag "sync-analytics" then [syncAnalytics] else []) ++
  (if String.eqb tag "sync-newsletter" then [syncNewsletterSubscriptions] else []).

(** *** Reading a run *)

(** The number of events at the head of the queue that one run delivers
    and deletes, given the answers it will meet. *)
Fixpoint delivered (events : list AnalyticsEvent)
    (answers : list FetchOutcome) (faults : list (option JsError)) : nat :=
  match events with
  | [] => O
  | _ :: rest =>
      match hd (Rejects (TypeError "Failed to fetch")) answers, hd None faults with
      | Responds _, None => S (delivered rest (tl answers) (tl faults))
      | _, _ => O
      end
  end.

(** The answers that the next [n] requests will meet. *)
Fixpoint coming (n : nat) (answers : list FetchOutcome) : list FetchOutcome :=
  match n with
  | O => []
  | S k => hd (Rejects (TypeError "Failed to fetch")) answers :: coming k (tl answers)
  end.

(** The URL under which [addAll] stores an asset. *)
Definition asset_url (w : Worker) (path : string) : string :=
  href (url (asset_request w path)).

End WorkerLifecycle.

(* ===================================================================== *)
(** ** Delivery of analytics events (src/modules/affiliate-optimizer.js) *)
(* ===================================================================== *)

Module AnalyticsDelivery.
Import AffiliateOptimizer.

(** How the network answers a [fetch]: a rejection, or a response of some
    status, which fulfils the promise of [fetch] whatever the status. *)
Inductive Answer : Type :=
| Refused (e : JsError)
| Answered (status : Z).

(** A POST request: the URL and the value whose JSON text is the body. *)
Record Sent : Type := mkSent {
  sent_url : string;
  sent_body : JsVal
}.

Record Page : Type := mkPage {
  localStorage : gmap string JsVal;
  answers : list Answer;        (* the coming fetch() calls *)
  sent : list Sent              (* the requests made, in order *)
}.

(** [fetch(url, { method: 'POST', headers: ..., body: JSON.stringify(body) })]. *)
Definition post (url : string) (body : JsVal) : Async Page unit :=
  fun p =>
    let p1 := mkPage (localStorage p) (tl (answers p)) (sent p ++ [mkSent url body]) in
    match hd (Refused (TypeError "Failed to fetch")) (answers p) with
    | Refused e => (Rejected e, p1)
    | Answered _ => (Fulfilled tt, p1)
    end.

Definition on_storage {A} (m : Async (gmap string JsVal) A) : Async Page A :=
  fun p =>
    let '(a, storage) := m (localStorage p) in
    (a, mkPage storage (answers p) (sent p)).

Definition sendAnalytics (event : JsVal) : Async Page unit :=
  try_catch (post "/api/analytics" event)
    (fun error => on_storage (bufferAnalytics event)).

(** [buffer.length === 0] for a parsed value that is not [null]. *)
Definition length_is_zero (v : JsVal) : bool :=
  match v with
  | JArr [] => true
  | JStr s => String.eqb s ""
  | JObj fields =>
      match get_field "length" fields with
      | Some (JNum x) => PrimFloat.eqb x 0
      | _ => false
      end
  | _ => false
  end.

Definition removeItem (key : string) : Async Page unit :=
  modify (fun p => mkPage (delete key (localStorage p)) (answers p) (sent p)).

Definition sendBufferedAnalytics : Async Page unit :=
  fun p =>
    match default (JArr []) (localStorage p !! "analytics_buffer") with
    | JNull | JUndefined =>
        (Rejected (TypeError "Cannot read properties of null (reading 'length')"), p)
    | buffer =>
        if length_is_zero buffer then (Fulfilled tt, p)
        else
          try_catch
            (post "/api/analytics/batch" (JObj [("events", buffer)]);;
             removeItem "analytics_buffer")
            (fun error => mret tt)
            p
    end.

(** The events of a list sent one after the other, each call awaited
    before the next. *)
Fixpoint send_each (events : list JsVal) : Async Page unit :=
  match events with
  | [] => mret tt
  | event :: rest => sendAnalytics event;; send_each rest
  end.

(** The buffered events, as [sendBufferedAnalytics] reads them. *)
Definition buffered (p : Page) : JsVal :=
  default (JArr []) (localStorage p !! "analytics_buffer").

(** The last [n] elements of a list. *)
Definition last_n {A} (n : nat) (l : list A) : list A := drop (length l - n) l.

End AnalyticsDelivery.

(* ===================================================================== *)
(** ** [MapManager] (src/modules/map-manager.js) *)
(* ===================================================================== *)

Module MapManager.

(** What [addMarkersInChunks] has done so far: the local [index], the
    arguments of the calls of [clusterLayer.addLayers] in order, and
    whether [addChunk] is waiting for the next animation frame. *)
Record Loader (A : Type) : Type := mkLoader {
  index : nat;
  added : list (list A);
  scheduled : bool
}.
Arguments mkLoader {A} index added scheduled.
Arguments index {A} l.
Arguments added {A} l.
Arguments scheduled {A} l.

(** [markers.slice(start, end)] for indices that are not negative. *)
Definition slice {A} (start finish : nat) (a : list A) : list A :=
  take (finish - start) (drop start a).

(** One run of the callback [addChunk]. *)
Definition addChunk {A} (markers : list A) (chunkSize : nat) (l : Loader A)
  : Loader A :=
  let chunk := slice (index l) (index l + chunkSize) markers in
  let index' := (index l + chunkSize)%nat in
  mkLoader index' (added l ++ [chunk]) (index' <? length markers)%nat.

(** The state in which [addMarkersInChunks(markers, chunkSize)] returns:
    nothing added yet, the first run of [addChunk] requested. *)
Definition addMarkersInChunks {A} : Loader A := mkLoader 0 [] true.

(** The loader after [n] animation frames. *)
Fixpoint frames {A} (n : nat) (markers : list A) (chunkSize : nat) (l : Loader A)
  : Loader A :=
  match n with
  | O => l
  | S k =>
      if scheduled l then frames k markers chunkSize (addChunk markers chunkSize l)
      else l
  end.

End MapManager.

(* ===================================================================== *)
(** ** Product recommendations (src/modules/affiliate-optimizer.js) *)
(* ===================================================================== *)

Module Recommendations.

Record Product : Type := mkProduct {
  id : string;
  name : string;
  price : Z;
  commissionRate : Z;
  category : string;
  recommendedRiskLevels : list string;
  tenantFriendly : bool;
  childSafe : bool;
  effectiveness : Z
}.

Definition getProductCatalog : list Product :=
  [mkProduct "lotus_vita" "Lotus Vita Fontana" 329 12 "countertop"
     ["low"; "medium"] true true 95;
   mkProduct "aquazero_promax" "AquaZero ProMax" 479 14 "reverse_osmosis"
     ["high"; "critical"] false true 99;
   mkProduct "brita_filter" "Brita Maxtra" 29 6 "pitcher"
     ["low"] true true 60].

(** What the code reads of [userContext]: whether [isTenant] and
    [hasChildren] are truthy, and the string that [budget] is compared
    with (any other value compares unequal to 'low' and 'high', as the
    empty string does). *)
Record UserContext : Type := mkContext {
  isTenant : bool;
  hasChildren : bool;
  budget : string
}.

Definition passes_rules (userContext : UserContext) (product : Product) : bool :=
  if isTenant userContext && negb (tenantFriendly product) then false
  else if String.eqb (budget userContext) "low" && (300 <? price product) then false
  else if String.eqb (budget userContext) "high" && (price product <? 400) then false
  else if hasChildren userContext && negb (childSafe product) then false
  else true.

Definition applyPersonalizationRules (products : list Product)
    (userContext : UserContext) : list Product :=
  List.filter (passes_rules userContext) products.

(** [a.sort(compare)] for a comparator that is consistent: the sort is
    stable, and [b] goes before [a] exactly when [compare(a, b) > 0],
    here [after a b].  With an inconsistent comparator the order is up to
    the engine; the elements are the same. *)
Fixpoint insert_sorted {A} (after : A -> A -> bool) (x : A) (l : list A) : list A :=
  match l with
  | [] => [x]
  | y :: rest =>
      if after x y then y :: insert_sorted after x rest else x :: y :: rest
  end.

Definition sort {A} (after : A -> A -> bool) (l : list A) : list A :=
  foldr (insert_sorted after) [] l.

(** [this.abTests[testName]] is [Some variant] once the test has been
    initialised. *)
Definition applyABTestVariation (products : list Product) (test : option string)
  : list Product :=
  match test with
  | None => products
  | Some variant =>
      if String.eqb variant "price_low_first"
      then sort (fun a b => 0 <? price a - price b) products
      else if String.eqb variant "commission_high_first"
      then sort (fun a b => 0 <? commissionRate b - commissionRate a) products
      else if String.eqb variant "effectiveness_first"
      then sort (fun a b => 0 <? effectiveness b - effectiveness a) products
      else products
  end.

(** [historicalCR product] is the number that [historicalCR * 100]
    multiplies: the stored rate of the product, or 0.05, the stored rates
    being JSON that parses.  The sums before it are sums of small
    integers, exact in doubles. *)
Definition calculateConversionScore (test : option string)
    (historicalCR : Product -> float) (product : Product)
    (userContext : UserContext) : float :=
  let base :=
    commissionRate product * 10
    + (if isTenant userContext && tenantFriendly product then 30 else 0)
    + (if hasChildren userContext && childSafe product then 25 else 0)
    + (if String.eqb (budget userContext) "low" && (price product <? 300) then 20 else 0)
    + (if String.eqb (budget userContext) "high" && (400 <? price product) then 15 else 0) in
  let score := (JsNumber.of_Z base + historicalCR product * 100)%float in
  match test with
  | Some variant =>
      if String.eqb variant "aggressive" then (score + 10)%float else score
  | None => score
  end.

Definition getPersonalizedRecommendations (test : option string)
    (historicalCR : Product -> float) (riskLevel : string)
    (userContext : UserContext) : list Product :=
  let allProducts := getProductCatalog in
  let filtered :=
    List.filter
      (fun product => existsb (String.eqb riskLevel) (recommendedRiskLevels product))
      allProducts in
  let filtered := applyPersonalizationRules filtered userContext in
  let filtered := applyABTestVariation filtered test in
  let filtered :=
    sort (fun a b =>
            let scoreA := calculateConversionScore test historicalCR a userContext in
            let scoreB := calculateConversionScore test historicalCR b userContext in
            (0 <? scoreB - scoreA)%float)
         filtered in
  take 3 filtered.

(** *** Cross-selling *)

Definition crossSellMap : list (string * list string) :=
  [("lotus_vita", ["filter_cartridges"; "water_test_kit"]);
   ("aquazero_promax", ["installation_service"; "maintenance_plan"; "smart_monitor"]);
   ("brita_filter", ["replacement_cartridges"; "water_bottle"])].

(** The property names that an object literal inherits from
    [Object.prototype]; each holds a function or an object, none of them
    with a method [includes]. *)
Definition inherited_names : list string :=
  ["constructor"; "__defineGetter__"; "__defineSetter__"; "hasOwnProperty";
   "__lookupGetter__"; "__lookupSetter__"; "isPrototypeOf";
   "propertyIsEnumerable"; "toString"; "valueOf"; "__proto__"; "toLocaleString"].

Fixpoint own_property (key : string) (o : list (string * list string))
  : option (list string) :=
  match o with
  | [] => None
  | (k, v) :: rest => if String.eqb key k then Some v else own_property key rest
  end.

(** [getCrossSellProducts(mainProduct)] by [mainProduct.id]; the filter
    calls [crossSellIds.includes] on the first product of the catalog. *)
Definition getCrossSellProducts (mainProductId : string) : JsError + list Product :=
  match own_property mainProductId crossSellMap with
  | Some crossSellIds =>
      inr (List.filter (fun p => existsb (String.eqb (id p)) crossSellIds)
             getProductCatalog)
  | None =>
      if existsb (String.eqb mainProductId) inherited_names
      then inl (TypeError "crossSellIds.includes is not a function")
      else inr (List.filter (fun p => existsb (String.eqb (id p)) []) getProductCatalog)
  end.

End Recommendations.

(* ===================================================================== *)
(** ** The analysis endpoint (src/api/water-analysis.js) *)
(* ===================================================================== *)

Module AnalysisApi.

(** *** Numbers read back from text *)

Definition digit_value (c : ascii) : option Z :=
  let n := Z.of_nat (nat_of_ascii c) in
  if (48 <=? n) && (n <=? 57) then Some (n - 48) else None.

(** The value of a non-empty string of decimal digits. *)
Fixpoint digits_from (acc : Z) (s : string) : option Z :=
  match s with
  | EmptyString => Some acc
  | String c rest =>
      match digit_value c with
      | Some d => digits_from (10 * acc + d) rest
      | None => None
      end
  end.

Definition digits (s : string) : option Z :=
  match s with
  | EmptyString => None
  | _ => digits_from 0 s
  end.

(** The text before the first point and, if there is a point, the text
    after it. *)
Fixpoint split_point (s : string) : string * option string :=
  match s with
  | EmptyString => (EmptyString, None)
  | String c rest =>
      if Ascii.eqb c "." then (EmptyString, Some rest)
      else let '(whole, fraction) := split_point rest in (String c whole, fraction)
  end.

(** [ToNumber] on the texts that [toFixed] produces: digits, optionally a
    point and more digits, optionally a minus sign in front; the quotient
    of two integers that doubles hold exactly is the double nearest to
    the decimal.  Any other text of that origin ('NaN') is not a number. *)
Definition unsigned_number (s : string) : float :=
  match split_point s with
  | (whole, None) =>
      match digits whole with
      | Some n => JsNumber.of_Z n
      | None => PrimFloat.nan
      end
  | (whole, Some fraction) =>
      match digits whole, digits fraction with
      | Some n, Some f =>
          let scale := 10 ^ Z.of_nat (String.length fraction) in
          (JsNumber.of_Z (n * scale + f) / JsNumber.of_Z scale)%float
      | _, _ => PrimFloat.nan
      end
  end.

Definition ToNumber (s : string) : float :=
  match s with
  | String "-" rest => (- unsigned_number rest)%float
  | _ => unsigned_number s
  end.

(** *** [simulateWaterData] *)

Record Reading : Type := mkReading {
  value : string;
  unit_name : string;      (* the property [unit] *)
  limit : option Z
}.

Record WaterData : Type := mkWaterData {
  pfas : Reading;
  nitrate : Reading;
  arsenic : Reading;
  lead : Reading;
  hardness : Reading;
  ph_value : string;
  ph_range : string;
  lastUpdated : string;
  dataSource : string
}.

(** [plz.split('').reduce((acc, char) => acc * 31 + char.charCodeAt(0), 0)];
    for the five characters that the handler lets through the products
    and sums are exact. *)
Definition hash (plz : string) : Z :=
  fold_left (fun acc code => acc * 31 + code) (DataFetcher.charCodes plz) 0.

(** [Math.abs(hash % 1000) / 1000]. *)
Definition seed (plz : string) : float :=
  (JsNumber.of_Z (Z.abs (Z.rem (hash plz) 1000)) / 1000)%float.

Definition readings (seed : float) (now : string) : WaterData :=
  mkWaterData
    (mkReading (JsNumber.toFixed (15 + seed * 25) 1) "ng/L" (Some 20))
    (mkReading (JsNumber.toFixed (25 + seed * 20) 1) "mg/L" (Some 50))
    (mkReading (JsNumber.toFixed (2 + seed * 6) 2) "µg/L" (Some 10))
    (mkReading (JsNumber.toFixed (3 + seed * 4) 1) "µg/L" (Some 10))
    (mkReading (JsNumber.toFixed (8 + seed * 12) 0) "°dH" None)
    (JsNumber.toFixed (7.0 + seed * 0.8) 1) "6.5-9.5"
    now "UBA Simulation 2024".

(** [now] is [new Date().toISOString()]. *)
Definition simulateWaterData (plz : string) (now : string) : WaterData :=
  readings (seed plz) now.

(** *** [calculateRisk] *)

Record RiskAssessment : Type := mkRisk {
  score : Z;
  level : string;
  color : string;
  description : string
}.

Definition getRiskDescription (level : string) : string :=
  if String.eqb level "low" then "Wasserqualität gut. Kein dringender Handlungsbedarf."
  else if String.eqb level "elevated"
  then "Leichte Auffälligkeiten. Regelmäßige Kontrolle empfohlen."
  else if String.eqb level "medium" then "Mäßige Belastung. Filterung wird empfohlen."
  else if String.eqb level "critical"
  then "Kritische Werte. Sofortige Filterung dringend empfohlen."
  else "Unbekanntes Risikoniveau.".

(** [text > n]: the text is converted to a number first. *)
Definition exceeds (text : string) (n : float) : bool := (n <? ToNumber text)%float.

Definition calculateRisk (waterData : WaterData) : RiskAssessment :=
  let score := 0 in
  let score :=
    if exceeds (value (pfas waterData)) 50 then score + 40
    else if exceeds (value (pfas waterData)) 20 then score + 25
    else if exceeds (value (pfas waterData)) 10 then score + 10
    else score in
  let score :=
    if exceeds (value (nitrate waterData)) 40 then score + 25
    else if exceeds (value (nitrate waterData)) 30 then score + 15
    else score in
  let score := if exceeds (value (arsenic waterData)) 8 then score + 20 else score in
  let score := if exceeds (value (lead waterData)) 8 then score + 15 else score in
  let '(level, color) :=
    if 50 <=? score then ("critical", "red")
    else if 30 <=? score then ("medium", "orange")
    else if 15 <=? score then ("elevated", "yellow")
    else ("low", "green") in
  mkRisk score level color (getRiskDescription level).

(** *** [getFilterRecommendations] *)

Record Effectiveness : Type := mkEffectiveness {
  eff_pfas : Z;
  eff_nitrate : Z;
  eff_arsenic : Z;
  eff_lead : Z
}.

Record Filter : Type := mkFilter {
  filter_id : string;
  filter_name : string;
  filter_type : string;
  filter_effectiveness : Effectiveness;
  filter_price : Z;
  commission : Z;
  link : string;
  bestFor : list string
}.

Definition baseFilters : list Filter :=
  [mkFilter "lotus_vita" "Lotus Vita Fontana" "countertop"
     (mkEffectiveness 95 85 90 95) 329 12
     "https://www.lotus-vita.de/?ref=74674"
     ["tenants"; "taste"; "easy_installation"];
   mkFilter "aquazero_promax" "AquaZero ProMax" "reverse_osmosis"
     (mkEffectiveness 99 99 99 99) 479 14
     "https://www.aquasana.com/ref/wasserwissen2026"
     ["critical_areas"; "families"; "comprehensive_protection"]].

Definition getFilterRecommendations (riskLevel : string) : list Filter :=
  if String.eqb riskLevel "critical" then
    Recommendations.sort
      (fun a b => 0 <? eff_pfas (filter_effectiveness b) - eff_pfas (filter_effectiveness a))
      baseFilters
  else if String.eqb riskLevel "medium" then take 2 baseFilters
  else take 1 baseFilters.

(** *** The handler *)

(** A row of [plz_coordinates]. *)
Record GeoRow : Type := mkGeoRow {
  lat : float;
  lon : float;
  city : string
}.

Inductive Query : Type :=
| SelectCoordinates (plz : JsVal)
| InsertLog (plz : JsVal) (risk_level : string).

Inductive QueryAnswer : Type :=
| QueryFails (e : JsError)
| Rows (rows : list GeoRow).

(** The server as the handler meets it: whether [client.connect()] and
    [client.end()] go through, the answers to the coming queries, the
    queries made, whether the connection was opened and closed, the
    value of [process.env.NODE_ENV] and the texts that the coming calls
    of [new Date().toISOString()] return. *)
Record Server : Type := mkServer {
  connect_fault : option JsError;
  end_fault : option JsError;
  answers : list QueryAnswer;
  queries : list Query;
  connected : bool;
  ended : bool;
  node_env : string;
  dates : list string
}.

(** [req]: the method, and the property [plz] of the body; [None] is a
    request without a body, [Some JUndefined] a body without [plz]. *)
Record ApiRequest : Type := mkApiRequest {
  req_method : string;
  req_plz : option JsVal
}.

Inductive Body : Type :=
| ErrorBody (error : string) (details : option string)
| AnalysisBody (plz : string) (city : string) (coordinates : float * float)
    (waterData : WaterData) (riskAssessment : RiskAssessment)
    (recommendations : list Filter) (timestamp : string).

Record ApiResponse : Type := mkApiResponse {
  status : Z;
  headers : list (string * string);
  body : Body
}.

Definition cors_headers : list (string * string) :=
  [("Access-Control-Allow-Origin", "*");
   ("Access-Control-Allow-Methods", "POST, OPTIONS");
   ("Access-Control-Allow-Headers", "Content-Type")].

(** [!plz || plz.length !== 5]. *)
Definition invalid_plz (plz : JsVal) : bool :=
  negb (truthy plz) ||
  negb match plz with
       | JStr s => (String.length s =? 5)%nat
       | JArr items => (length items =? 5)%nat
       | JObj fields =>
           match get_field "length" fields with
           | Some (JNum x) => PrimFloat.eqb x 5
           | _ => false
           end
       | _ => false
       end.

Definition connect : Async Server unit :=
  fun s =>
    match connect_fault s with
    | Some e => (Rejected e, s)
    | None =>
        (Fulfilled tt,
         mkServer (connect_fault s) (end_fault s) (answers s) (queries s) true
           (ended s) (node_env s) (dates s))
    end.

(** [new Date().toISOString()]. *)
Definition toISOString : Async Server string :=
  fun s =>
    (Fulfilled (hd "" (dates s)),
     mkServer (connect_fault s) (end_fault s) (answers s) (queries s)
       (connected s) (ended s) (node_env s) (tl (dates s))).

Definition query (q : Query) : Async Server (list GeoRow) :=
  fun s =>
    let s1 := mkServer (connect_fault s) (end_fault s) (tl (answers s))
                (queries s ++ [q]) (connected s) (ended s) (node_env s) (dates s) in
    match hd (Rows []) (answers s) with
    | QueryFails e => (Rejected e, s1)
    | Rows rows => (Fulfilled rows, s1)
    end.

Definition client_end : Async Server unit :=
  fun s =>
    match end_fault s with
    | Some e => (Rejected e, s)
    | None =>
        (Fulfilled tt,
         mkServer (connect_fault s) (end_fault s) (answers s) (queries s)
           (connected s) true (node_env s) (dates s))
    end.

(** [simulateWaterData(lat, lon, plz)] as the handler calls it: [split]
    exists on strings only. *)
Definition simulate (plz : JsVal) : Async Server (string * WaterData) :=
  match plz with
  | JStr text =>
      lastUpdated ← toISOString;
      mret (text, simulateWaterData text lastUpdated)
  | _ => throw (TypeError "plz.split is not a function")
  end.

Definition internal_error (error : JsError) : Async Server ApiResponse :=
  fun s =>
    (Fulfilled
       (mkApiResponse 500 cors_headers
          (ErrorBody "Internal server error"
             (if String.eqb (node_env s) "development" then Some (message error)
              else None))),
     s).

Definition handler (req : ApiRequest) : Async Server ApiResponse :=
  if negb (String.eqb (req_method req) "POST")
  then mret (mkApiResponse 405 [] (ErrorBody "Method not allowed" None))
  else
    match req_plz req with
    | None =>
        throw (TypeError "Cannot destructure property 'plz' of 'req.body' as it is undefined.")
    | Some plz =>
        if invalid_plz plz
        then mret (mkApiResponse 400 [] (ErrorBody "Invalid PLZ" None))
        else
          try_catch
            (connect;;
             geoQuery ← query (SelectCoordinates plz);
             match geoQuery with
             | [] =>
                 client_end;;
                 mret (mkApiResponse 404 cors_headers (ErrorBody "PLZ not found" None))
             | row :: _ =>
                 simulated ← simulate plz;
                 let '(text, waterData) := simulated in
                 let riskAssessment := calculateRisk waterData in
                 let recommendations := getFilterRecommendations (level riskAssessment) in
                 query (InsertLog plz (level riskAssessment));;
                 client_end;;
                 timestamp ← toISOString;
                 mret (mkApiResponse 200 cors_headers
                         (AnalysisBody text (city row) (lat row, lon row) waterData
                            riskAssessment recommendations timestamp))
             end)
            internal_error
    end.

End AnalysisApi.

(* ===================================================================== *)
(** ** Recommendations read off a chat answer (src/api/water-analysis.js) *)
(* ===================================================================== *)

Module Chatbot.

(** A character of a string stands for one UTF-16 code unit. *)

(** The entries of [productKeywords], in the order of [Object.entries]. *)
Definition productKeywords : list (string * string) :=
  [("Lotus Vita", "lotus_vita"); ("AquaZero", "aquazero_promax");
   ("Brita", "brita_filter"); ("Berkey", "berkey");
   ("Umkehrosmose", "reverse_osmosis")].

Record Recommendation : Type := mkRecommendation {
  productId : string;
  keyword : string;
  context : string
}.

(** [extractContextAroundKeyword(text, keyword, wordsAround = 20)];
    [Math.max(0, index - wordsAround * 10)] is the subtraction of natural
    numbers. *)
Definition extractContextAroundKeyword (text keyword : string) (wordsAround : nat)
  : string :=
  match String.index 0 keyword text with
  | None => ""
  | Some index =>
      let start := (index - wordsAround * 10)%nat in
      let finish := Nat.min (String.length text) (index + wordsAround * 10) in
      let extract := String.substring start (finish - start) text in
      let extract := if (0 <? start)%nat then "..." +:+ extract else extract in
      if (finish <? String.length text)%nat then extract +:+ "..." else extract
  end.

Fixpoint collect (aiResponse : string) (entries : list (string * string))
  : list Recommendation :=
  match entries with
  | [] => []
  | (keyword, productId) :: rest =>
      if includes aiResponse keyword
      then mkRecommendation productId keyword
             (extractContextAroundKeyword aiResponse keyword 20)
           :: collect aiResponse rest
      else collect aiResponse rest
  end.

Definition extractRecommendations (aiResponse : string) : list Recommendation :=
  collect aiResponse productKeywords.

End Chatbot.

(* ===================================================================== *)
(** ** Concrete worlds to evaluate the code in *)
(* ===================================================================== *)

Module Samples.
Import DataFetcher.

(** The page at time [t]: online, a fresh [DataFetcher] with its defaults,
    IndexedDB present and empty, nothing scripted to go wrong. *)
Definition page_at (t : Z) : World :=
  constructor None None
    (mkWorld t true [] [] (Some "production") (Some ∅) [] ∅ 0 "" "").

Definition sample_payload : JsVal :=
  JObj [("success", JBool true); ("plz", JStr "10115")].

(** The same page holding one cache entry stored at time [stored]. *)
Definition page_with_entry (stored t : Z) : World :=
  set_cache {[ "analysis_10115" := mkEntry sample_payload stored ]} (page_at t).

(** A 200 answer with [v] as its JSON body, [ms] after the request. *)
Definition answers (ms : Z) (v : JsVal) : Attempt :=
  mkAttempt ms (Responds (mkResponse 200 (inr v))).

(** A request that cannot reach the network at all. *)
Definition fails_to_fetch : Attempt :=
  mkAttempt 30 (Rejects (TypeError "Failed to fetch")).

Definition quota_exceeded : JsError :=
  mkError "QuotaExceededError" "The quota has been exceeded.".

(** The page at time [t] with one offline record, written at [stored]. *)
Definition page_with_record (stored t : Z) : World :=
  set_indexedDB
    (Some {[ "waterDataCache" :=
               {[ "analysis" := {[ "10115" := mkRecord "10115" sample_payload stored ]} ]} ]})
    (page_at t).

(** A worker at [https://example.org] whose current cache holds [entries]. *)
Definition worker_with (entries : gmap string ServiceWorker.Response)
    (net : list ServiceWorker.FetchOutcome) : ServiceWorker.Worker :=
  ServiceWorker.mkWorker "https://example.org"
    [(ServiceWorker.CACHE_NAME, entries)] net [] false.

Definition get_request (path mode : string) : ServiceWorker.Request :=
  ServiceWorker.mkRequest "GET"
    (ServiceWorker.mkURL "https://example.org" path "") mode.

Definition page_response (text : string) : ServiceWorker.Response :=
  ServiceWorker.mkResponse 200 [("Content-Type", "text/html")] (ServiceWorker.Text text).

(** Fifty events already buffered. *)
Definition numbered (i : nat) : JsVal :=
  JObj [("event", JStr "product_view"); ("timestamp", JStr (pretty i))].

Definition full_buffer : list JsVal := numbered <$> seq 0 50.

End Samples.

(* ===================================================================== *)
(** * Properties *)
(* ===================================================================== *)

(** ** The retrying fetch client *)

Module FetchWithRetryFacts.
Import DataFetcher Samples.

Lemma attempt_run url init w :
  attempt url init w =
  (settle (verdict (hd unreachable (network w))), after_fetch url init w).
Proof.
  unfold attempt, fetch, verdict, after_fetch, mbind, async_bind.
  destruct (latency (hd unreachable (network w)) <? 8000); [|reflexivity].
  destruct (outcome (hd unreachable (network w))) as [e|r]; [reflexivity|].
  destruct (ok r); [|reflexivity].
  unfold response_json. destruct (json r); reflexivity.
Qed.

Lemma retry_loop_success url init retries todo i w v :
  verdict (hd unreachable (network w)) = inr v ->
  retry_loop url init retries (S todo) i w = (Fulfilled v, after_fetch url init w).
Proof.
  intros Hv. cbn [retry_loop]. unfold try_catch.
  rewrite attempt_run, Hv. reflexivity.
Qed.

Lemma retry_loop_last url init retries todo i w e :
  verdict (hd unreachable (network w)) = inl e ->
  i = (retries - 1)%nat ->
  retry_loop url init retries (S todo) i w = (Rejected e, after_fetch url init w).
Proof.
  intros Hv Hi. cbn [retry_loop]. unfold try_catch.
  rewrite attempt_run, Hv. cbn [settle].
  apply Nat.eqb_eq in Hi. rewrite Hi. reflexivity.
Qed.

Lemma retry_loop_again url init retries todo i w e :
  verdict (hd unreachable (network w)) = inl e ->
  i <> (retries - 1)%nat ->
  retry_loop url init retries (S todo) i w =
  retry_loop url init retries todo (S i)
    (after_sleep (1000 * 2 ^ Z.of_nat i) (after_fetch url init w)).
Proof.
  intros Hv Hi. cbn [retry_loop]. unfold try_catch.
  rewrite attempt_run, Hv. cbn [settle].
  apply Nat.eqb_neq in Hi. rewrite Hi. reflexivity.
Qed.

Lemma effects_after_fetch url init w :
  effects (after_fetch url init w) = effects w ++ [Fetched url init].
Proof. reflexivity. Qed.

Lemma network_after_fetch url init w :
  network (after_fetch url init w) = tl (network w).
Proof. reflexivity. Qed.

Lemma hd_nth (l : list Attempt) : hd unreachable l = nth 0 l unreachable.
Proof. destruct l; reflexivity. Qed.

Lemma nth_tl (l : list Attempt) j : nth j (tl l) unreachable = nth (S j) l unreachable.
Proof. destruct l; [destruct j|]; reflexivity. Qed.

Lemma schedule_step url init k i :
  (0 < k)%nat ->
  schedule url init (S k) i =
  Fetched url init :: Slept (1000 * 2 ^ Z.of_nat i) :: schedule url init k (S i).
Proof. destruct k; [lia | reflexivity]. Qed.

Lemma fetch_count_schedule url init k i : fetch_count (schedule url init k i) = k.
Proof.
  revert i. induction k as [|k IH]; intros i; [reflexivity|].
  destruct k as [|k]; [reflexivity|].
  rewrite schedule_step by lia. cbn [fetch_count]. now rewrite IH.
Qed.

(** Whatever the network does, the loop makes between one and [todo]
    attempts and its trace is a schedule. *)
Lemma retry_loop_schedule url init retries todo :
  forall i w, (i + todo = retries)%nat ->
  exists k, (k <= todo)%nat /\ ((0 < todo)%nat -> (0 < k)%nat) /\
    effects (retry_loop url init retries todo i w).2 =
    effects w ++ schedule url init k i.
Proof.
  induction todo as [|todo IH]; intros i w Hsum.
  - exists O. split; [lia|split; [lia|]]. cbn. now rewrite app_nil_r.
  - destruct (verdict (hd unreachable (network w))) as [e|v] eqn:Hv.
    + destruct (Nat.eq_dec i (retries - 1)%nat) as [Hlast|Hmore].
      * exists 1%nat. rewrite (retry_loop_last _ _ _ _ _ _ e) by assumption.
        split; [lia|split; [lia|reflexivity]].
      * rewrite (retry_loop_again _ _ _ _ _ _ e) by assumption.
        destruct (IH (S i) (after_sleep (1000 * 2 ^ Z.of_nat i) (after_fetch url init w)))
          as (k & Hle & Hpos & Heff); [lia|].
        exists (S k). rewrite Heff. split; [lia|split; [lia|]].
        rewrite schedule_step by (apply Hpos; lia).
        cbn [after_sleep record_effect set_effects set_clock effects].
        rewrite effects_after_fetch, <- !app_assoc. reflexivity.
    + exists 1%nat. rewrite (retry_loop_success _ _ _ _ _ _ v) by assumption.
      split; [lia|split; [lia|reflexivity]].
Qed.

(** When every attempt fails the loop makes them all and rethrows the
    error of the last one. *)
Lemma retry_loop_exhausted url init retries todo :
  forall i w, (i + todo = retries)%nat -> (0 < todo)%nat ->
  (forall j, (j < todo)%nat ->
     exists e, verdict (nth j (network w) unreachable) = inl e) ->
  exists e, verdict (nth (todo - 1) (network w) unreachable) = inl e /\
    (retry_loop url init retries todo i w).1 = Rejected e /\
    effects (retry_loop url init retries todo i w).2 =
    effects w ++ schedule url init todo i.
Proof.
  induction todo as [|todo IH]; intros i w Hsum Hpos Hfail; [lia|].
  destruct (Hfail O) as [e He]; [lia|]. rewrite <- hd_nth in He.
  destruct (Nat.eq_dec i (retries - 1)%nat) as [Hlast|Hmore].
  - assert (todo = O) by lia. subst todo.
    exists e. rewrite (retry_loop_last _ _ _ _ _ _ e) by assumption.
    cbn [Nat.sub]. rewrite <- hd_nth. auto.
  - rewrite (retry_loop_again _ _ _ _ _ _ e) by assumption.
    destruct (IH (S i) (after_sleep (1000 * 2 ^ Z.of_nat i) (after_fetch url init w)))
      as (e' & He' & Hres & Heff); [lia | lia | |].
    + intros j Hj. cbn [after_sleep record_effect set_effects set_clock network].
      rewrite network_after_fetch, nth_tl. apply Hfail. lia.
    + exists e'. rewrite Hres, Heff. split; [|split; [reflexivity|]].
      * cbn [after_sleep record_effect set_effects set_clock network] in He'.
        rewrite network_after_fetch, nth_tl in He'.
        replace (S todo - 1)%nat with (S (todo - 1)) by lia. exact He'.
      * rewrite schedule_step by lia.
        cbn [after_sleep record_effect set_effects set_clock effects].
        rewrite effects_after_fetch, <- !app_assoc. reflexivity.
Qed.

(** Two failures and then a success, under the default of three attempts. *)
Lemma retry_third_time_lucky url init w a1 a2 a3 rest e1 e2 v :
  network w = a1 :: a2 :: a3 :: rest ->
  verdict a1 = inl e1 -> verdict a2 = inl e2 -> verdict a3 = inr v ->
  (fetchWithRetry url init None w).1 = Fulfilled v /\
  effects (fetchWithRetry url init None w).2 =
  effects w ++ [Fetched url init; Slept 1000; Fetched url init; Slept 2000;
                Fetched url init].
Proof.
  intros Hnet H1 H2 H3. unfold fetchWithRetry. cbn [default].
  rewrite (retry_loop_again _ _ _ _ _ _ e1); [| now rewrite Hnet | discriminate].
  rewrite (retry_loop_again _ _ _ _ _ _ e2);
    [| cbn [after_sleep record_effect set_effects set_clock network];
       now rewrite network_after_fetch, Hnet | discriminate].
  rewrite (retry_loop_success _ _ _ _ _ _ v);
    [| cbn [after_sleep record_effect set_effects set_clock network];
       rewrite network_after_fetch;
       cbn [after_sleep record_effect set_effects set_clock network];
       now rewrite network_after_fetch, Hnet ].
  split; [reflexivity|].
  cbn [snd]. rewrite effects_after_fetch.
  cbn [after_sleep record_effect set_effects set_clock effects].
  rewrite effects_after_fetch.
  cbn [after_sleep record_effect set_effects set_clock effects].
  rewrite effects_after_fetch, <- !app_assoc. reflexivity.
Qed.

(** C5.  [fetchWithRetry] makes at most [retries] attempts, three when the
    argument is left out; its trace is a schedule, that is, between two
    consecutive attempts and never after the last it waits 1000 * 2^i ms
    (1 s, then 2 s); a request that fails twice and succeeds on the third
    attempt resolves to the JSON of that attempt; when every attempt fails
    the error of the last one is thrown to the caller. *)
Theorem fetchWithRetry_bounded_backoff
    (url : string) (init : RequestInit) (retries : option nat) (w : World) :
  let n := default 3%nat retries in
  let run := fetchWithRetry url init retries w in
  (exists k, (k <= n)%nat /\
     effects run.2 = effects w ++ schedule url init k 0 /\
     fetch_count (schedule url init k 0) = k) /\
  default 3%nat None = 3%nat /\
  schedule url init 3 0 =
    [Fetched url init; Slept 1000; Fetched url init; Slept 2000; Fetched url init] /\
  (forall a1 a2 a3 rest e1 e2 v,
     retries = None ->
     network w = a1 :: a2 :: a3 :: rest ->
     verdict a1 = inl e1 -> verdict a2 = inl e2 -> verdict a3 = inr v ->
     run.1 = Fulfilled v /\ effects run.2 = effects w ++ schedule url init 3 0) /\
  ((0 < n)%nat ->
   (forall j, (j < n)%nat ->
      exists e, verdict (nth j (network w) unreachable) = inl e) ->
   exists e, verdict (nth (n - 1) (network w) unreachable) = inl e /\
     run.1 = Rejected e /\
     effects run.2 = effects w ++ schedule url init n 0).
Proof.
  intros n run. subst run. unfold fetchWithRetry. fold n.
  split; [|split; [reflexivity|split; [reflexivity|split]]].
  - destruct (retry_loop_schedule url init n n O w) as (k & Hle & _ & Heff); [lia|].
    exists k. auto using fetch_count_schedule.
  - intros a1 a2 a3 rest e1 e2 v -> Hnet H1 H2 H3.
    exact (retry_third_time_lucky url init w a1 a2 a3 rest e1 e2 v Hnet H1 H2 H3).
  - intros Hpos Hfail. apply retry_loop_exhausted; [lia | assumption | assumption].
Qed.

Lemma fetchWithRetry_bounded_backoff_witness :
  let init := analysis_request "10115" in
  let w := set_network [fails_to_fetch; mkAttempt 9000 (Responds (mkResponse 200 (inr JNull)));
                        answers 120 sample_payload] (page_at 0) in
  (fetchWithRetry "/api/water-analysis" init None w).1 = Fulfilled sample_payload /\
  let down := set_network [fails_to_fetch; fails_to_fetch;
                           mkAttempt 50 (Responds (mkResponse 503 (inr JNull)))] (page_at 0) in
  (fetchWithRetry "/api/water-analysis" init None down).1 = Rejected (Error "HTTP 503").
Proof.
  intros init w. split.
  - destruct (fetchWithRetry_bounded_backoff "/api/water-analysis" init None w)
      as (_ & _ & _ & Hthird & _).
    destruct (Hthird fails_to_fetch
                (mkAttempt 9000 (Responds (mkResponse 200 (inr JNull))))
                (answers 120 sample_payload) []
                (TypeError "Failed to fetch") AbortError sample_payload)
      as [Hres _]; [reflexivity ..|].
    exact Hres.
  - intros down.
    destruct (fetchWithRetry_bounded_backoff "/api/water-analysis" init None down)
      as (_ & _ & _ & _ & Hall).
    destruct Hall as (e & He & Hres & _).
    + cbn. lia.
    + intros j Hj. cbn in Hj.
      destruct j as [|[|[|j]]]; [eexists; reflexivity .. | lia].
    + rewrite Hres. vm_compute in He. injection He as <-. reflexivity.
Defined.

End FetchWithRetryFacts.

(** ** The in-memory cache: read path and sweep *)

Module CacheFacts.
Import DataFetcher Samples.

Lemma memory_hit_Some key force w e :
  memory_hit key force w = Some e <->
  force = false /\ cache w !! key = Some e /\
  clock w - timestamp e < cacheDuration w.
Proof.
  unfold memory_hit. destruct force.
  - split; [discriminate | intros (? & _); discriminate].
  - destruct (cache w !! key) as [c|].
    + destruct (Z.ltb_spec (clock w - timestamp c) (cacheDuration w)).
      * split; [intros [= <-]; auto | intros (_ & [= <-] & _); reflexivity].
      * split; [discriminate | intros (_ & [= <-] & ?); lia].
    + split; [discriminate | intros (_ & ? & _); discriminate].
Qed.

Lemma memory_hit_stale key w e :
  cache w !! key = Some e ->
  cacheDuration w <= clock w - timestamp e ->
  memory_hit key false w = None.
Proof.
  intros He Hage. destruct (memory_hit key false w) as [e'|] eqn:Hhit; [|reflexivity].
  apply memory_hit_Some in Hhit as (_ & He' & Hfresh).
  rewrite He in He'. injection He' as <-. lia.
Qed.

(** Without a hit the call goes on exactly as a forced refresh does. *)
Lemma miss_is_forced plz w :
  memory_hit ("analysis_" +:+ plz) false w = None ->
  fetchWaterAnalysis plz false w = fetchWaterAnalysis plz true w.
Proof.
  intros Hmiss. unfold fetchWaterAnalysis, mbind, async_bind, gets.
  rewrite Hmiss. reflexivity.
Qed.

Lemma cacheCleanup_lookup w k e :
  cache (cacheCleanup w) !! k = Some e <->
  cache w !! k = Some e /\ clock w - timestamp e <= cacheDuration w.
Proof.
  unfold cacheCleanup. cbn [cache set_cache].
  rewrite map_lookup_filter_Some. cbn [snd]. split; intros [? ?]; split; auto; lia.
Qed.

Lemma idle_clock n : forall w,
  clock (idle n w) = clock w + Z.of_nat n * cleanupInterval /\
  cacheDuration (idle n w) = cacheDuration w.
Proof.
  induction n as [|n IH]; intros w; cbn [idle]; [split; [lia | reflexivity]|].
  destruct (IH (cacheCleanup (set_clock (clock w + cleanupInterval) w))) as [-> ->].
  cbn. split; [lia | reflexivity].
Qed.

(** After one period or more, what is left is what was there and is not
    older than the TTL at the last sweep. *)
Lemma idle_lookup n : forall w k e, (0 < n)%nat ->
  cache (idle n w) !! k = Some e <->
  cache w !! k = Some e /\ clock (idle n w) - timestamp e <= cacheDuration w.
Proof.
  induction n as [|n IH]; intros w k e Hn; [lia|].
  destruct (idle_clock (S n) w) as [Hclock _]. rewrite Hclock.
  cbn [idle]. destruct n as [|n].
  - cbn [idle]. rewrite cacheCleanup_lookup. cbn. unfold cleanupInterval. split;
      intros [? ?]; split; auto; lia.
  - rewrite IH by lia.
    destruct (idle_clock (S n) (cacheCleanup (set_clock (clock w + cleanupInterval) w)))
      as [-> _].
    rewrite cacheCleanup_lookup. cbn [clock cache cacheDuration set_clock cacheCleanup set_cache].
    unfold cleanupInterval. split.
    + intros [[? ?] ?]. split; auto; lia.
    + intros [? ?]. split; [split; auto; lia | lia].
Qed.

(** C4, as the claim has it, fails at the boundary: an entry whose age is
    exactly the TTL has "now - storedAt >= ttl" and the sweep keeps it. *)
Lemma sweep_keeps_entry_of_age_ttl :
  let w := page_with_entry 0 300000 in
  cacheDuration w <= clock w - 0 /\
  cache (cacheCleanup w) !! "analysis_10115" = Some (mkEntry sample_payload 0).
Proof. split; [vm_compute; discriminate | vm_compute; reflexivity]. Qed.

(** C4 (amended).  A read serves an entry only while its age is below the
    TTL: with an entry whose age has reached the TTL the call behaves as a
    forced refresh.  The callback of the 60000 ms timer removes exactly the
    entries with now - storedAt > ttl, so after any number of periods the
    cache holds what it held and is not older than the TTL at the last
    sweep; an entry of age exactly the TTL stays, and is not served. *)
Theorem cache_read_rechecks_age_and_sweep_evicts_older
    (w : World) (plz : string) :
  let key := "analysis_" +:+ plz in
  (forall entry, cache w !! key = Some entry ->
     cacheDuration w <= clock w - timestamp entry ->
     memory_hit key false w = None /\
     fetchWaterAnalysis plz false w = fetchWaterAnalysis plz true w) /\
  (forall force entry, memory_hit key force w = Some entry ->
     cache w !! key = Some entry /\ clock w - timestamp entry < cacheDuration w) /\
  cleanupInterval = 60000 /\
  (forall k e, cache (cacheCleanup w) !! k = Some e <->
     cache w !! k = Some e /\ clock w - timestamp e <= cacheDuration w) /\
  (forall n k e, (0 < n)%nat ->
     clock (idle n w) = clock w + Z.of_nat n * 60000 /\
     (cache (idle n w) !! k = Some e <->
      cache w !! k = Some e /\ clock (idle n w) - timestamp e <= cacheDuration w)) /\
  (forall entry, cache w !! key = Some entry ->
     clock w - timestamp entry = cacheDuration w ->
     cache (cacheCleanup w) !! key = Some entry /\ memory_hit key false w = None).
Proof.
  intros key. repeat apply conj.
  - intros entry He Hage. pose proof (memory_hit_stale key w entry He Hage) as Hmiss.
    split; [exact Hmiss | exact (miss_is_forced plz w Hmiss)].
  - intros force entry Hhit. apply memory_hit_Some in Hhit. tauto.
  - reflexivity.
  - intros k e. apply cacheCleanup_lookup.
  - intros n k e Hn. split; [apply idle_clock | apply idle_lookup; assumption].
  - intros entry He Hage. split.
    + apply cacheCleanup_lookup. split; [assumption | lia].
    + apply (memory_hit_stale key w entry He). lia.
Qed.

Lemma cache_read_rechecks_age_and_sweep_evicts_older_witness :
  let w := page_with_entry 0 300000 in
  memory_hit "analysis_10115" false w = None /\
  cache (cacheCleanup w) !! "analysis_10115" = Some (mkEntry sample_payload 0) /\
  cache (idle 1 w) !! "analysis_10115" = None.
Proof.
  intros w.
  destruct (cache_read_rechecks_age_and_sweep_evicts_older w "10115")
    as (Hread & _ & _ & _ & Hidle & Hedge).
  destruct (Hedge (mkEntry sample_payload 0)) as [Hkept Hmiss];
    [vm_compute; reflexivity | vm_compute; reflexivity |].
  split; [exact Hmiss | split; [exact Hkept |]].
  destruct (cache (idle 1 w) !! "analysis_10115") as [e|] eqn:Hlook; [|reflexivity].
  destruct (Hidle 1%nat "analysis_10115" e) as [_ [Hold _]]; [lia|].
  destruct (Hold Hlook) as [Hwas Hage].
  vm_compute in Hwas. injection Hwas as <-. vm_compute in Hage. congruence.
Defined.

End CacheFacts.

(** ** The offline store *)

Module OfflineStoreFacts.
Import DataFetcher.

Lemma getOfflineData_unsupported plz w :
  indexedDB w = None -> getOfflineData plz w = (Fulfilled JNull, w).
Proof. intros H. unfold getOfflineData. now rewrite H. Qed.

(** A read of an existing store settles, with the data of a record younger
    than seven days or with [null], and leaves the databases as they are. *)
Lemma getOfflineData_read plz w :
  has_store w -> hd NoFault (idb_faults w) = NoFault ->
  getOfflineData plz w =
  (Fulfilled
     match stored_record w plz with
     | Some r => if clock w - rec_timestamp r <? seven_days then rec_data r else JNull
     | None => JNull
     end,
   set_idb_faults (tl (idb_faults w)) w).
Proof.
  intros (dbs & db & store & Hdbs & Hdb & Hstore) Hfault.
  unfold getOfflineData, stored_record, open_database.
  rewrite Hdbs, Hfault. cbn [mbind option_bind]. rewrite Hdb. cbn [mbind option_bind].
  rewrite Hstore. cbn [mbind option_bind].
  assert (set_indexedDB (Some dbs) (set_idb_faults (tl (idb_faults w)) w)
          = set_idb_faults (tl (idb_faults w)) w) as ->.
  { rewrite <- Hdbs. destruct w; reflexivity. }
  unfold seven_days. destruct (store !! plz) as [r|]; [|reflexivity].
  destruct (clock w - rec_timestamp r <? 7 * 24 * 60 * 60 * 1000); reflexivity.
Qed.

(** A failing read resolves to [null] all the same. *)
Lemma getOfflineData_fault plz w :
  has_store w -> hd NoFault (idb_faults w) <> NoFault ->
  (getOfflineData plz w).1 = Fulfilled JNull /\
  indexedDB (getOfflineData plz w).2 = indexedDB w.
Proof.
  intros (dbs & db & store & Hdbs & Hdb & Hstore) Hfault.
  unfold getOfflineData, open_database. rewrite Hdbs.
  destruct (hd NoFault (idb_faults w)) as [|e|e|e]; [congruence| | |].
  - split; [reflexivity | exact Hdbs].
  - rewrite Hdb, Hstore. split; [reflexivity | reflexivity].
  - rewrite Hdb, Hstore. split; [reflexivity | reflexivity].
Qed.

(** Without the object store the promise of [getOfflineData] never
    settles, and the database is left behind without it. *)
Lemma getOfflineData_no_store plz w dbs :
  indexedDB w = Some dbs ->
  (forall e, hd NoFault (idb_faults w) <> OpenFails e) ->
  (dbs !! offlineStorage w = None \/
   exists db, dbs !! offlineStorage w = Some db /\ db !! "analysis" = None) ->
  (getOfflineData plz w).1 = Pending /\
  ~ has_store (getOfflineData plz w).2 /\
  effects (getOfflineData plz w).2 = effects w.
Proof.
  intros Hdbs Hopen Hmissing. unfold getOfflineData, open_database. rewrite Hdbs.
  destruct (hd NoFault (idb_faults w)) as [|e|e|e] eqn:Hf;
    try (exfalso; exact (Hopen e eq_refl));
    (destruct Hmissing as [Hnone | (db & Hdb & Hstore)];
     [ rewrite Hnone; cbn [id]; rewrite lookup_empty;
       split; [reflexivity | split; [|reflexivity]];
       intros (dbs' & db' & store' & H1 & H2 & H3); cbn in H1, H2;
       injection H1 as <-; rewrite lookup_insert_eq in H2; injection H2 as <-;
       rewrite lookup_empty in H3; discriminate
     | rewrite Hdb, Hstore;
       split; [reflexivity | split; [|reflexivity]];
       intros (dbs' & db' & store' & H1 & H2 & H3); cbn in H1, H2;
       injection H1 as <-; rewrite Hdb in H2; injection H2 as <-; congruence ]).
Qed.

(** What a fulfilled [saveOfflineData] has done when IndexedDB is there. *)
Lemma saveOfflineData_stored plz data w w1 :
  indexedDB w <> None ->
  saveOfflineData plz data w = (Fulfilled tt, w1) ->
  stored_record w1 plz = Some (mkRecord plz data (clock w)) /\
  has_store w1 /\ offlineStorage w1 = offlineStorage w /\
  cache w1 = cache w /\ effects w1 = effects w /\ clock w1 = clock w.
Proof.
  intros Hsup. unfold saveOfflineData, open_database.
  destruct (indexedDB w) as [dbs|]; [|congruence].
  set (name := offlineStorage w).
  assert (forall db dbs' store,
    db !! "analysis" = Some store ->
    let w1 := set_indexedDB
      (Some (<[name := <["analysis" := <[plz := mkRecord plz data (clock w)]> store]> db]> dbs'))
      (set_idb_faults (tl (idb_faults w)) w) in
    stored_record w1 plz = Some (mkRecord plz data (clock w)) /\
    has_store w1 /\ offlineStorage w1 = offlineStorage w /\
    cache w1 = cache w /\ effects w1 = effects w /\ clock w1 = clock w) as Hgood.
  { intros db dbs' store Hstore w'. subst w'. unfold stored_record, has_store.
    cbn [indexedDB offlineStorage set_indexedDB set_idb_faults cache effects clock].
    fold name. cbn [mbind option_bind].
    rewrite lookup_insert_eq. cbn [mbind option_bind].
    rewrite lookup_insert_eq. cbn [mbind option_bind].
    rewrite lookup_insert_eq. split; [reflexivity|].
    split; [|auto].
    eexists _, _, _. split; [reflexivity|].
    split; [apply lookup_insert_eq | apply lookup_insert_eq]. }
  destruct (hd NoFault (idb_faults w)) as [|e|e|e]; try discriminate.
  - destruct (dbs !! name) as [db|] eqn:Hdb.
    + destruct (db !! "analysis") as [store|] eqn:Hstore; [|discriminate].
      intros [= <-]. now apply Hgood.
    + unfold create_analysis. rewrite lookup_empty, lookup_insert_eq.
      intros [= <-]. apply Hgood. apply lookup_insert_eq.
  - destruct (dbs !! name) as [db|] eqn:Hdb.
    + destruct (db !! "analysis"); discriminate.
    + unfold create_analysis. rewrite lookup_empty, lookup_insert_eq. discriminate.
  - destruct (dbs !! name) as [db|] eqn:Hdb.
    + destruct (db !! "analysis"); discriminate.
    + unfold create_analysis. rewrite lookup_empty, lookup_insert_eq. discriminate.
Qed.

End OfflineStoreFacts.

(** ** [fetchWaterAnalysis]: the order of the three sources *)

Module AnalysisFacts.
Import DataFetcher Samples FetchWithRetryFacts CacheFacts OfflineStoreFacts.

Lemma fetchWaterAnalysis_memory plz force w cached :
  memory_hit ("analysis_" +:+ plz) force w = Some cached ->
  fetchWaterAnalysis plz force w = (Fulfilled (from_memory (data cached)), w).
Proof.
  intros Hhit. unfold fetchWaterAnalysis, mbind, async_bind, gets.
  rewrite Hhit. reflexivity.
Qed.

Lemma fetchWaterAnalysis_offline plz force w :
  memory_hit ("analysis_" +:+ plz) force w = None ->
  onLine w = false ->
  fetchWaterAnalysis plz force w =
  match getOfflineData plz w with
  | (Fulfilled offlineData, w') =>
      if truthy offlineData then (Fulfilled (from_offline offlineData), w')
      else (Rejected offline_unavailable, w')
  | (Rejected e, w') => (Rejected e, w')
  | (Pending, w') => (Pending, w')
  end.
Proof.
  intros Hmiss Hoff. unfold fetchWaterAnalysis, mbind, async_bind, gets.
  rewrite Hmiss, Hoff. cbn [negb].
  destruct (getOfflineData plz w) as [[d|e|] w']; [|reflexivity|reflexivity].
  destruct (truthy d); reflexivity.
Qed.

Lemma fetchWaterAnalysis_online plz force w :
  memory_hit ("analysis_" +:+ plz) force w = None ->
  onLine w = true ->
  fetchWaterAnalysis plz force w =
  match fetchWithRetry (analysis_url w) (analysis_request plz) None w with
  | (Fulfilled data, wa) =>
      let wb := set_cache (<["analysis_" +:+ plz := mkEntry data (clock wa)]> (cache wa)) wa in
      match saveOfflineData plz data wb with
      | (Fulfilled _, wc) =>
          match node_env wc with
          | Some _ => (Fulfilled (from_api data), wc)
          | None => (Rejected (ReferenceError "process"), wc)
          end
      | (Rejected e, wc) => recover plz e wc
      | (Pending, wc) => (Pending, wc)
      end
  | (Rejected e, wa) => recover plz e wa
  | (Pending, wa) => (Pending, wa)
  end.
Proof.
  intros Hmiss Hon.
  unfold fetchWaterAnalysis, try_catch, mbind, async_bind, gets, modify, analysis_url.
  rewrite Hmiss, Hon. cbn [negb].
  destruct (fetchWithRetry _ _ None w) as [[d|e|] wa]; [|reflexivity|reflexivity].
  cbn beta iota.
  destruct (saveOfflineData plz d _) as [[[]|e|] wc]; [|reflexivity|reflexivity].
  unfold logAnalytics. destruct (node_env wc); reflexivity.
Qed.

Lemma same_storage_refl w : same_storage w w.
Proof. repeat split. Qed.

Lemma same_storage_trans w1 w2 w3 :
  same_storage w1 w2 -> same_storage w2 w3 -> same_storage w1 w3.
Proof.
  unfold same_storage. intros (?&?&?&?&?&?&?&?) (?&?&?&?&?&?&?&?).
  repeat split; congruence.
Qed.

Lemma retry_loop_frame url init retries todo :
  forall i w, same_storage w (retry_loop url init retries todo i w).2.
Proof.
  induction todo as [|todo IH]; intros i w; [apply same_storage_refl|].
  destruct (verdict (hd unreachable (network w))) as [e|v] eqn:Hv.
  - destruct (Nat.eq_dec i (retries - 1)%nat) as [Hlast|Hmore].
    + rewrite (retry_loop_last _ _ _ _ _ _ e) by assumption. repeat split.
    + rewrite (retry_loop_again _ _ _ _ _ _ e) by assumption.
      eapply same_storage_trans; [|apply IH]. repeat split.
  - rewrite (retry_loop_success _ _ _ _ _ _ v) by assumption. repeat split.
Qed.

Lemma fetchWithRetry_frame url init retries w :
  same_storage w (fetchWithRetry url init retries w).2.
Proof. apply retry_loop_frame. Qed.

(** One call of [fetchWithRetry] with the default: one to three attempts on
    the schedule. *)
Lemma fetchWithRetry_trace url init w :
  exists k, (1 <= k <= 3)%nat /\
    effects (fetchWithRetry url init None w).2 = effects w ++ schedule url init k 0.
Proof.
  destruct (retry_loop_schedule url init 3 3 O w) as (k & Hle & Hpos & Heff); [lia|].
  exists k. split; [lia | exact Heff].
Qed.

Lemma retry_loop_settles url init retries todo :
  forall i w, (retry_loop url init retries todo i w).1 <> Pending.
Proof.
  induction todo as [|todo IH]; intros i w; [discriminate|].
  destruct (verdict (hd unreachable (network w))) as [e|v] eqn:Hv.
  - destruct (Nat.eq_dec i (retries - 1)%nat) as [Hlast|Hmore].
    + rewrite (retry_loop_last _ _ _ _ _ _ e) by assumption. discriminate.
    + rewrite (retry_loop_again _ _ _ _ _ _ e) by assumption. apply IH.
  - rewrite (retry_loop_success _ _ _ _ _ _ v) by assumption. discriminate.
Qed.

Lemma fetchWithRetry_settles url init retries w :
  (fetchWithRetry url init retries w).1 <> Pending.
Proof. apply retry_loop_settles. Qed.

Lemma saveOfflineData_frame plz data w :
  effects (saveOfflineData plz data w).2 = effects w /\
  cache (saveOfflineData plz data w).2 = cache w /\
  cacheDuration (saveOfflineData plz data w).2 = cacheDuration w /\
  clock (saveOfflineData plz data w).2 = clock w /\
  node_env (saveOfflineData plz data w).2 = node_env w.
Proof.
  unfold saveOfflineData, open_database. repeat case_match; repeat split.
Qed.

Lemma getOfflineData_frame plz w :
  effects (getOfflineData plz w).2 = effects w /\
  cache (getOfflineData plz w).2 = cache w /\
  cacheDuration (getOfflineData plz w).2 = cacheDuration w.
Proof.
  unfold getOfflineData, open_database. repeat case_match; repeat split.
Qed.

Lemma get_field_set_field_eq k v o : get_field k (set_field k v o) = Some v.
Proof.
  induction o as [|[k' v'] o IH]; cbn.
  - now rewrite String.eqb_refl.
  - destruct (String.eqb k k') eqn:Hk; cbn; rewrite ?String.eqb_refl, ?Hk; auto.
Qed.

Lemma get_field_set_field_ne k k' v o :
  k <> k' -> get_field k (set_field k' v o) = get_field k o.
Proof.
  intros Hne. induction o as [|[k'' v''] o IH]; cbn.
  - apply String.eqb_neq in Hne. now rewrite Hne.
  - destruct (String.eqb k' k'') eqn:Hk; cbn.
    + apply String.eqb_eq in Hk. subst k''.
      apply String.eqb_neq in Hne. now rewrite Hne.
    + now rewrite IH.
Qed.

Lemma source_of_from_memory d : source_of (from_memory d) = Some (JStr "memory_cache").
Proof. apply get_field_set_field_eq. Qed.

Lemma source_of_from_api d : source_of (from_api d) = Some (JStr "api").
Proof. apply get_field_set_field_eq. Qed.

Lemma source_of_from_offline d :
  source_of (from_offline d) = Some (JStr "offline_storage").
Proof.
  unfold from_offline, spread_with, source_of. cbn [fold_left fst snd].
  rewrite get_field_set_field_ne by discriminate. apply get_field_set_field_eq.
Qed.

(** The fallback generator settles at once, touches nothing and tags its
    result. *)
Lemma getFallbackData_run plz w :
  exists v, getFallbackData plz w = (Fulfilled v, w) /\
    source_of v = Some (JStr "fallback_data").
Proof. eexists. split; reflexivity. Qed.

Lemma recover_frame plz e w :
  (recover plz e w).2 = w /\
  forall v, (recover plz e w).1 = Fulfilled v ->
    source_of v = Some (JStr "fallback_data").
Proof.
  unfold recover. destruct (includes (message e) "Failed to fetch").
  - destruct (getFallbackData_run plz w) as (v & -> & Hv).
    split; [reflexivity | intros v' [= <-]; exact Hv].
  - split; [reflexivity | discriminate].
Qed.

(** Offline, the call touches neither the network nor the memory cache. *)
Lemma offline_path_frame plz force w :
  memory_hit ("analysis_" +:+ plz) force w = None ->
  onLine w = false ->
  effects (fetchWaterAnalysis plz force w).2 = effects w /\
  cache (fetchWaterAnalysis plz force w).2 = cache w.
Proof.
  intros Hmiss Hoff. rewrite fetchWaterAnalysis_offline by assumption.
  destruct (getOfflineData_frame plz w) as (He & Hc & _).
  destruct (getOfflineData plz w) as [[d|e|] w']; cbn [snd] in *; auto.
  destruct (truthy d); auto.
Qed.

(** Online and without a hit, the trace of the call is that of its one
    call of [fetchWithRetry]. *)
Lemma online_path_effects plz force w :
  memory_hit ("analysis_" +:+ plz) force w = None ->
  onLine w = true ->
  effects (fetchWaterAnalysis plz force w).2 =
  effects (fetchWithRetry (analysis_url w) (analysis_request plz) None w).2.
Proof.
  intros Hmiss Hon. rewrite fetchWaterAnalysis_online by assumption.
  destruct (fetchWithRetry _ _ None w) as [[d|e|] wa]; cbn [snd].
  - cbn zeta.
    set (wb := set_cache _ wa).
    destruct (saveOfflineData_frame plz d wb) as (He & _).
    destruct (saveOfflineData plz d wb) as [[[]|e|] wc]; cbn [snd] in *.
    + destruct (node_env wc); exact He.
    + destruct (recover_frame plz e wc) as [-> _]. exact He.
    + exact He.
  - now destruct (recover_frame plz e wa) as [-> _].
  - reflexivity.
Qed.

Lemma online_path_trace plz force w :
  memory_hit ("analysis_" +:+ plz) force w = None ->
  onLine w = true ->
  exists k, (1 <= k <= 3)%nat /\
    effects (fetchWaterAnalysis plz force w).2 =
    effects w ++ schedule (analysis_url w) (analysis_request plz) k 0.
Proof.
  intros Hmiss Hon. rewrite online_path_effects by assumption.
  apply fetchWithRetry_trace.
Qed.

(** Whatever path it takes, one call runs [fetchWithRetry] at most once. *)
Lemma one_call_one_run plz force w :
  exists k, (k <= 3)%nat /\
    effects (fetchWaterAnalysis plz force w).2 =
    effects w ++ schedule (analysis_url w) (analysis_request plz) k 0.
Proof.
  destruct (memory_hit ("analysis_" +:+ plz) force w) as [cached|] eqn:Hhit.
  - exists O. rewrite (fetchWaterAnalysis_memory _ _ _ cached) by assumption.
    split; [lia | cbn; now rewrite app_nil_r].
  - destruct (onLine w) eqn:Hon.
    + destruct (online_path_trace plz force w Hhit Hon) as (k & Hk & Heff).
      exists k. split; [lia | exact Heff].
    + exists O. destruct (offline_path_frame plz force w Hhit Hon) as [-> _].
      split; [lia | cbn; now rewrite app_nil_r].
Qed.

(** The network is consulted in the third case only. *)
Lemma network_only_third plz force w :
  effects (fetchWaterAnalysis plz force w).2 <> effects w ->
  memory_hit ("analysis_" +:+ plz) force w = None /\ onLine w = true.
Proof.
  intros Hnet.
  destruct (memory_hit ("analysis_" +:+ plz) force w) as [cached|] eqn:Hhit.
  - rewrite (fetchWaterAnalysis_memory _ _ _ cached) in Hnet by assumption.
    now contradiction Hnet.
  - destruct (onLine w) eqn:Hon; [auto|].
    destruct (offline_path_frame plz force w Hhit Hon) as [Heff _]. contradiction.
Qed.

(** The offline case when the store can be read. *)
Lemma offline_path_read plz force w :
  memory_hit ("analysis_" +:+ plz) force w = None ->
  onLine w = false ->
  has_store w -> hd NoFault (idb_faults w) = NoFault ->
  (fetchWaterAnalysis plz force w).1 =
  match stored_record w plz with
  | Some r =>
      if (clock w - rec_timestamp r <? seven_days) && truthy (rec_data r)
      then Fulfilled (from_offline (rec_data r))
      else Rejected offline_unavailable
  | None => Rejected offline_unavailable
  end.
Proof.
  intros Hmiss Hoff Hstore Hfault.
  rewrite fetchWaterAnalysis_offline by assumption.
  rewrite getOfflineData_read by assumption.
  destruct (stored_record w plz) as [r|]; [|reflexivity].
  destruct (clock w - rec_timestamp r <? seven_days); cbn [andb]; [|reflexivity].
  destruct (truthy (rec_data r)); reflexivity.
Qed.

Lemma offline_path_unsupported plz force w :
  memory_hit ("analysis_" +:+ plz) force w = None ->
  onLine w = false ->
  indexedDB w = None ->
  fetchWaterAnalysis plz force w = (Rejected offline_unavailable, w).
Proof.
  intros Hmiss Hoff Hnone.
  rewrite fetchWaterAnalysis_offline by assumption.
  now rewrite getOfflineData_unsupported.
Qed.

(** C1, as the claim has it, fails when the first call caches nothing:
    online in name but with the network out of reach, two calls three
    seconds apart both go to the network, six requests in two runs of
    [fetchWithRetry], and both return fallback data.  And a first call that
    gets its answer on the third attempt has made three requests, although
    the second call is then served from memory. *)
Lemma two_calls_within_ttl_two_network_runs :
  (let w := page_at 0 in
   let first := fetchWaterAnalysis "10115" false w in
   let second := fetchWaterAnalysis "10115" false first.2 in
   clock first.2 - clock w < cacheDuration w /\
   fetch_count (effects first.2) = 3%nat /\
   fetch_count (effects second.2) = 6%nat /\
   (exists v, second.1 = Fulfilled v /\ source_of v = Some (JStr "fallback_data"))) /\
  (let w := set_network [fails_to_fetch; fails_to_fetch; answers 120 sample_payload]
              (page_at 0) in
   let first := fetchWaterAnalysis "10115" false w in
   let second := fetchWaterAnalysis "10115" false first.2 in
   first.1 = Fulfilled (from_api sample_payload) /\
   second.1 = Fulfilled (from_memory sample_payload) /\
   fetch_count (effects second.2) = 3%nat).
Proof.
  cbv zeta. split.
  - split; [vm_compute; reflexivity|].
    split; [vm_compute; reflexivity|].
    split; [vm_compute; reflexivity|].
    eexists. split; vm_compute; reflexivity.
  - split; [vm_compute; reflexivity|].
    split; vm_compute; reflexivity.
Qed.

(** Offline with a fresh record whose data is falsy: the test
    [if (offlineData)] takes it for a missing one. *)
Lemma offline_falsy_record_is_unavailable :
  let stored := (saveOfflineData "10115" (JBool false) (page_at 0)).2 in
  let w := set_onLine false (set_clock 1000 stored) in
  stored_record w "10115" = Some (mkRecord "10115" (JBool false) 0) /\
  (fetchWaterAnalysis "10115" false w).1 = Rejected offline_unavailable.
Proof. cbv zeta. split; vm_compute; reflexivity. Qed.

(** Offline before the database was ever created: [getOfflineData] opens
    it without creating the object store, its promise never settles, and
    neither does the call. *)
Lemma offline_first_use_never_settles :
  let w := set_onLine false (page_at 0) in
  (fetchWaterAnalysis "10115" false w).1 = Pending /\
  ~ store_intact (fetchWaterAnalysis "10115" false w).2.
Proof.
  cbv zeta. split; [vm_compute; reflexivity|].
  intros Hintact.
  destruct (Hintact {[ "waterDataCache" := ∅ ]} ∅) as [store Hstore];
    [vm_compute; reflexivity | vm_compute; reflexivity |].
  rewrite lookup_empty in Hstore. discriminate.
Qed.

(** Once that has happened the database stays without its object store,
    and a later call that fetches with success hangs in [saveOfflineData],
    after the memory cache has been written. *)
Lemma save_after_offline_first_use_never_settles :
  let offline := (fetchWaterAnalysis "10115" false (set_onLine false (page_at 0))).2 in
  let w := set_network [answers 120 sample_payload] (set_onLine true offline) in
  (fetchWaterAnalysis "10115" false w).1 = Pending /\
  cache (fetchWaterAnalysis "10115" false w).2 !! "analysis_10115"
  = Some (mkEntry sample_payload 120).
Proof. cbv zeta. split; vm_compute; reflexivity. Qed.

(** A first call whose fetch fails leaves the memory cache as it was. *)
Lemma failed_fetch_caches_nothing plz force w e :
  memory_hit ("analysis_" +:+ plz) force w = None ->
  onLine w = true ->
  (fetchWithRetry (analysis_url w) (analysis_request plz) None w).1 = Rejected e ->
  cache (fetchWaterAnalysis plz force w).2 = cache w.
Proof.
  intros Hmiss Hon Hfail. rewrite fetchWaterAnalysis_online by assumption.
  pose proof (fetchWithRetry_frame (analysis_url w) (analysis_request plz) None w)
    as (Hcache & _).
  destruct (fetchWithRetry _ _ None w) as [[d|e'|] wa]; cbn [fst snd] in *;
    try discriminate.
  destruct (recover_frame plz e' wa) as [-> _]. exact Hcache.
Qed.

(** A key that the memory cache does not hold is a miss. *)
Lemma memory_hit_absent key force w :
  cache w !! key = None -> memory_hit key force w = None.
Proof. intros Hnone. unfold memory_hit. rewrite Hnone. now destruct force. Qed.

(** C1 (amended).  The three sources in order.  (1) Without [forceRefresh],
    an entry younger than the TTL is returned tagged 'memory_cache' and the
    world is left as it was.  (2) Otherwise, offline, no request is made.
    With IndexedDB missing the call throws the offline error.  With the
    offline database in place and holding its object store ([has_store]):
    a failing read, no record, or a record of seven days or more makes the
    call throw the offline error, and a younger record of truthy data is
    returned tagged 'offline_storage'.  Nothing is said here of a database
    that does not exist yet or lacks its object store.  (3) The network is
    consulted only otherwise, and then by exactly one run of
    [fetchWithRetry] (one to three requests).  Two calls: when the first
    leaves an entry for the key and the second, without [forceRefresh],
    comes within the TTL of that entry, the second is served from memory
    and makes no request, so both together make at most one run of
    [fetchWithRetry]; a first call whose fetch fails leaves the memory
    cache as it was, and when the cache held no entry for the key a second
    call, online, runs [fetchWithRetry] again. *)
Theorem analysis_sources_in_order (plz : string) (force : bool) (w : World) :
  let key := "analysis_" +:+ plz in
  let run := fetchWaterAnalysis plz force w in
  (forall cached,
     force = false -> cache w !! key = Some cached ->
     clock w - timestamp cached < cacheDuration w ->
     run = (Fulfilled (from_memory (data cached)), w)) /\
  (memory_hit key force w = None -> onLine w = false ->
     effects run.2 = effects w /\
     (indexedDB w = None -> run.1 = Rejected offline_unavailable) /\
     (has_store w -> hd NoFault (idb_faults w) <> NoFault ->
      run.1 = Rejected offline_unavailable) /\
     (has_store w -> hd NoFault (idb_faults w) = NoFault ->
      (forall r, stored_record w plz = Some r ->
         clock w - rec_timestamp r < seven_days -> truthy (rec_data r) = true ->
         run.1 = Fulfilled (from_offline (rec_data r))) /\
      (stored_record w plz = None -> run.1 = Rejected offline_unavailable) /\
      (forall r, stored_record w plz = Some r ->
         seven_days <= clock w - rec_timestamp r ->
         run.1 = Rejected offline_unavailable))) /\
  (effects run.2 <> effects w -> memory_hit key force w = None /\ onLine w = true) /\
  (memory_hit key force w = None -> onLine w = true ->
     exists k, (1 <= k <= 3)%nat /\
       effects run.2 =
       effects w ++ schedule (analysis_url w) (analysis_request plz) k 0) /\
  (force = false ->
   forall cached w2,
     cache run.2 !! key = Some cached ->
     cache w2 = cache run.2 -> cacheDuration w2 = cacheDuration w ->
     clock w2 - timestamp cached < cacheDuration w2 ->
     fetchWaterAnalysis plz false w2 = (Fulfilled (from_memory (data cached)), w2) /\
     exists k, (k <= 3)%nat /\
       effects run.2 =
       effects w ++ schedule (analysis_url w) (analysis_request plz) k 0) /\
  (forall e,
     memory_hit key force w = None -> onLine w = true ->
     (fetchWithRetry (analysis_url w) (analysis_request plz) None w).1 = Rejected e ->
     cache run.2 = cache w /\
     forall w2,
       cache w2 = cache run.2 -> cache w !! key = None -> onLine w2 = true ->
       exists k, (1 <= k <= 3)%nat /\
         effects (fetchWaterAnalysis plz false w2).2 =
         effects w2 ++ schedule (analysis_url w2) (analysis_request plz) k 0).
Proof.
  intros key run. subst run. repeat apply conj.
  - intros cached -> Hc Hfresh. apply fetchWaterAnalysis_memory.
    apply memory_hit_Some. auto.
  - intros Hmiss Hoff. split; [apply (offline_path_frame plz force w Hmiss Hoff)|].
    split; [|split].
    + intros Hnone. now rewrite offline_path_unsupported.
    + intros Hstore Hfault. rewrite fetchWaterAnalysis_offline by assumption.
      destruct (getOfflineData_fault plz w Hstore Hfault) as [Hnull _].
      destruct (getOfflineData plz w) as [[d|e|] w']; cbn [fst] in Hnull;
        try discriminate.
      injection Hnull as ->. reflexivity.
    + intros Hstore Hfault.
      pose proof (offline_path_read plz force w Hmiss Hoff Hstore Hfault) as Hread.
      repeat apply conj.
      * intros r Hr Hage Htruthy. rewrite Hread, Hr, Htruthy.
        apply Z.ltb_lt in Hage. now rewrite Hage.
      * intros Hr. now rewrite Hread, Hr.
      * intros r Hr Hage. rewrite Hread, Hr.
        apply Z.ltb_ge in Hage. now rewrite Hage.
  - apply network_only_third.
  - apply online_path_trace.
  - intros -> cached w2 Hc Hsame Hdur Hfresh. split; [|apply one_call_one_run].
    apply fetchWaterAnalysis_memory. apply memory_hit_Some.
    split; [reflexivity|]. split; [now rewrite Hsame | assumption].
  - intros e Hmiss Hon Hfail.
    pose proof (failed_fetch_caches_nothing plz force w e Hmiss Hon Hfail) as Hcache.
    split; [exact Hcache|].
    intros w2 Hsame Hnone Hon2. apply online_path_trace; [|assumption].
    apply memory_hit_absent. now rewrite Hsame, Hcache.
Qed.

Lemma analysis_sources_in_order_witness :
  (let w := page_with_entry 0 1000 in
   fetchWaterAnalysis "10115" false w = (Fulfilled (from_memory sample_payload), w)) /\
  (let first := fetchWaterAnalysis "10115" false
                  (set_network [answers 120 sample_payload] (page_at 0)) in
   fetchWaterAnalysis "10115" false (set_clock 299000 first.2) =
   (Fulfilled (from_memory sample_payload), set_clock 299000 first.2)) /\
  (let w := set_onLine false (page_with_record 0 1000) in
   (fetchWaterAnalysis "10115" false w).1 = Fulfilled (from_offline sample_payload)) /\
  (let w := set_onLine false (page_with_record 0 seven_days) in
   (fetchWaterAnalysis "10115" false w).1 = Rejected offline_unavailable) /\
  (let w := page_at 0 in
   let first := fetchWaterAnalysis "10115" false w in
   cache first.2 = cache w /\
   exists k, (1 <= k <= 3)%nat /\
     effects (fetchWaterAnalysis "10115" false first.2).2 =
     effects first.2 ++
     schedule (analysis_url first.2) (analysis_request "10115") k 0).
Proof.
  assert (forall t, has_store (set_onLine false (page_with_record 0 t))) as Hstore.
  { intros t.
    exists {[ "waterDataCache" := {[ "analysis" := {[ "10115" := mkRecord "10115" sample_payload 0 ]} ]} ]},
           {[ "analysis" := {[ "10115" := mkRecord "10115" sample_payload 0 ]} ]},
           {[ "10115" := mkRecord "10115" sample_payload 0 ]}.
    split; [reflexivity|]. split; vm_compute; reflexivity. }
  repeat apply conj.
  - destruct (analysis_sources_in_order "10115" false (page_with_entry 0 1000))
      as (Hmem & _).
    apply (Hmem (mkEntry sample_payload 0)); vm_compute; reflexivity.
  - intros first.
    destruct (analysis_sources_in_order "10115" false
                (set_network [answers 120 sample_payload] (page_at 0)))
      as (_ & _ & _ & _ & Htwo & _).
    destruct (Htwo eq_refl (mkEntry sample_payload 120) (set_clock 299000 first.2))
      as [Hsecond _]; [vm_compute; reflexivity .. | exact Hsecond].
  - intros w.
    destruct (analysis_sources_in_order "10115" false w) as (_ & Hoff & _).
    destruct Hoff as (_ & _ & _ & Hread); [reflexivity | reflexivity |].
    destruct (Hread (Hstore 1000) eq_refl) as (Hfresh & _).
    apply (Hfresh (mkRecord "10115" sample_payload 0));
      [vm_compute; reflexivity | vm_compute; reflexivity | reflexivity].
  - intros w.
    destruct (analysis_sources_in_order "10115" false w) as (_ & Hoff & _).
    destruct Hoff as (_ & _ & _ & Hread); [reflexivity | reflexivity |].
    destruct (Hread (Hstore seven_days) eq_refl) as (_ & _ & Hold).
    apply (Hold (mkRecord "10115" sample_payload 0));
      [vm_compute; reflexivity | vm_compute; discriminate].
  - destruct (analysis_sources_in_order "10115" false (page_at 0))
      as (_ & _ & _ & _ & _ & Hfail).
    destruct (Hfail (TypeError "Failed to fetch")) as [Hcache _];
      [reflexivity | reflexivity | vm_compute; reflexivity | exact Hcache].
  - destruct (analysis_sources_in_order "10115" false (page_at 0))
      as (_ & _ & _ & _ & _ & Hfail).
    destruct (Hfail (TypeError "Failed to fetch")) as [_ Hagain];
      [reflexivity | reflexivity | vm_compute; reflexivity |].
    apply (Hagain (fetchWaterAnalysis "10115" false (page_at 0)).2);
      [reflexivity | vm_compute; reflexivity | reflexivity].
Defined.

(** ** A successful fetch: the two writes *)

Lemma saveOfflineData_faulted plz data w e :
  write_fault w = Some e -> store_intact w ->
  (saveOfflineData plz data w).1 = Rejected e.
Proof.
  unfold write_fault, store_intact, saveOfflineData, open_database.
  destruct (indexedDB w) as [dbs|]; [|discriminate].
  intros Hfault Hintact.
  destruct (hd NoFault (idb_faults w)) as [|e'|e'|e']; try discriminate;
    injection Hfault as ->; [reflexivity| |].
  all: destruct (dbs !! offlineStorage w) as [db|] eqn:Hdb;
    [ destruct (Hintact dbs db eq_refl Hdb) as [store ->]; reflexivity
    | unfold create_analysis; rewrite lookup_empty, lookup_insert_eq; reflexivity ].
Qed.

Lemma saveOfflineData_clean plz data w :
  write_fault w = None -> store_intact w ->
  exists w1, saveOfflineData plz data w = (Fulfilled tt, w1).
Proof.
  unfold write_fault, store_intact, saveOfflineData, open_database.
  destruct (indexedDB w) as [dbs|]; [|eauto].
  intros Hfault Hintact.
  destruct (hd NoFault (idb_faults w)) as [|e'|e'|e']; try discriminate.
  destruct (dbs !! offlineStorage w) as [db|] eqn:Hdb.
  - destruct (Hintact dbs db eq_refl Hdb) as [store ->]. eauto.
  - unfold create_analysis. rewrite lookup_empty, lookup_insert_eq. eauto.
Qed.

(** The world in which [saveOfflineData] runs after a fetch that came
    back in [wa]. *)
Lemma cached_world_storage plz data w wa :
  same_storage w wa ->
  let wb := set_cache (<["analysis_" +:+ plz := mkEntry data (clock wa)]> (cache wa)) wa in
  write_fault wb = write_fault w /\ (store_intact w -> store_intact wb) /\
  indexedDB wb = indexedDB w /\ node_env wb = node_env w /\ clock wb = clock wa.
Proof.
  intros (_ & _ & Hdb & Hf & Hname & Henv & _ & _) wb.
  unfold write_fault, store_intact. subst wb.
  cbn [indexedDB idb_faults offlineStorage node_env clock set_cache].
  rewrite Hdb, Hf, Hname. auto.
Qed.

(** C2, as the claim has it, fails: the fetch succeeds, the open request of
    IndexedDB errors, and the call is rejected with that error instead of
    returning the payload; the memory cache has been written. *)
Lemma persistence_failure_fails_the_call :
  let w := set_idb_faults [OpenFails quota_exceeded]
             (set_network [answers 120 sample_payload] (page_at 0)) in
  (fetchWaterAnalysis "10115" false w).1 = Rejected quota_exceeded /\
  cache (fetchWaterAnalysis "10115" false w).2 !! "analysis_10115"
  = Some (mkEntry sample_payload 120).
Proof. cbv zeta. split; vm_compute; reflexivity. Qed.

(** C2 (amended).  When the fetch of step 3 succeeds, the payload is put in
    the memory cache under the key, stamped with the time the fetch came
    back, whatever happens next.  When the write to IndexedDB raises no
    error (IndexedDB missing, which skips it, or the write going through,
    which leaves the record in the store) and [process.env.NODE_ENV] can be
    read, the call returns the payload tagged 'api'.  When the write is
    rejected with an error, the call does not return the payload: it
    rethrows that error, or returns fallback data if the message of the
    error contains 'Failed to fetch'. *)
Theorem api_success_cached_then_persisted
    (plz : string) (force : bool) (w wa : World) (data : JsVal) :
  let key := "analysis_" +:+ plz in
  let run := fetchWaterAnalysis plz force w in
  memory_hit key force w = None -> onLine w = true ->
  fetchWithRetry (analysis_url w) (analysis_request plz) None w = (Fulfilled data, wa) ->
  store_intact w ->
  cache run.2 !! key = Some (mkEntry data (clock wa)) /\
  (write_fault w = None -> node_env w <> None ->
     run.1 = Fulfilled (from_api data) /\
     (indexedDB w <> None ->
      stored_record run.2 plz = Some (mkRecord plz data (clock wa)))) /\
  (forall e, write_fault w = Some e ->
     (includes (message e) "Failed to fetch" = false -> run.1 = Rejected e) /\
     (includes (message e) "Failed to fetch" = true ->
      exists v, run.1 = Fulfilled v /\ source_of v = Some (JStr "fallback_data"))).
Proof.
  intros key run Hmiss Hon Hfetch Hintact. subst run.
  rewrite fetchWaterAnalysis_online by assumption. rewrite Hfetch. cbn zeta.
  pose proof (fetchWithRetry_frame (analysis_url w) (analysis_request plz) None w)
    as Hframe. rewrite Hfetch in Hframe. cbn [snd] in Hframe.
  destruct (cached_world_storage plz data w wa Hframe)
    as (Hfault & Hint & Hdb & Henv & Hclock).
  fold key in Hfault, Hint, Hdb, Henv, Hclock |- *.
  set (wb := set_cache (<[key := mkEntry data (clock wa)]> (cache wa)) wa) in *.
  destruct (saveOfflineData_frame plz data wb) as (_ & Hcache & _ & _ & Henv').
  assert (cache wb !! key = Some (mkEntry data (clock wa))) as Hentry
    by apply lookup_insert_eq.
  repeat apply conj.
  - destruct (saveOfflineData plz data wb) as [[[]|e|] wc]; cbn [snd] in *.
    + destruct (node_env wc); cbn [snd]; now rewrite Hcache.
    + destruct (recover_frame plz e wc) as [-> _]. now rewrite Hcache.
    + now rewrite Hcache.
  - intros Hclean Hnode.
    destruct (saveOfflineData_clean plz data wb) as [wc Hsave];
      [congruence | auto |].
    rewrite Hsave in Henv' |- *. cbn [snd] in Henv'.
    rewrite Henv', Henv.
    destruct (node_env w) as [env|]; [|congruence].
    split; [reflexivity|]. intros Hsup. cbn [snd].
    destruct (saveOfflineData_stored plz data wb wc) as (Hrec & _);
      [congruence | exact Hsave |]. now rewrite Hrec, Hclock.
  - intros e He.
    pose proof (saveOfflineData_faulted plz data wb e) as Hrej.
    destruct (saveOfflineData plz data wb) as [[[]|e'|] wc];
      (cbn [fst] in Hrej; specialize (Hrej ltac:(congruence) ltac:(auto)));
      try discriminate.
    injection Hrej as ->. unfold recover. split; intros Hinc; rewrite Hinc.
    + reflexivity.
    + destruct (getFallbackData_run plz wc) as (v & -> & Hv). eauto.
Qed.

Lemma api_success_cached_then_persisted_witness :
  let w := set_network [answers 120 sample_payload] (page_at 0) in
  (fetchWaterAnalysis "10115" false w).1 = Fulfilled (from_api sample_payload) /\
  let w' := set_idb_faults [TransactionFails quota_exceeded] w in
  (fetchWaterAnalysis "10115" false w').1 = Rejected quota_exceeded.
Proof.
  assert (forall w, indexedDB w = Some ∅ -> store_intact w) as Hempty.
  { intros w Hw dbs db Hdbs Hdb. rewrite Hw in Hdbs. injection Hdbs as <-.
    rewrite lookup_empty in Hdb. discriminate. }
  split.
  - destruct (api_success_cached_then_persisted "10115" false
                (set_network [answers 120 sample_payload] (page_at 0))
                (fetchWithRetry "/api/water-analysis" (analysis_request "10115") None
                   (set_network [answers 120 sample_payload] (page_at 0))).2
                sample_payload)
      as (_ & Hok & _);
      [reflexivity | reflexivity | vm_compute; reflexivity
      | apply Hempty; reflexivity |].
    apply Hok; [reflexivity | discriminate].
  - intros w'.
    destruct (api_success_cached_then_persisted "10115" false w'
                (fetchWithRetry "/api/water-analysis" (analysis_request "10115") None w').2
                sample_payload)
      as (_ & _ & Hrej);
      [reflexivity | reflexivity | vm_compute; reflexivity
      | apply Hempty; reflexivity |].
    destruct (Hrej quota_exceeded) as [Hthrow _]; [reflexivity|].
    apply Hthrow. reflexivity.
Defined.

(** ** The offline record after a successful fetch *)

(** A result tagged 'api' comes from the third step having gone through:
    fetched, cached, saved. *)
Lemma api_result_inversion plz force w v w1 :
  fetchWaterAnalysis plz force w = (Fulfilled v, w1) ->
  source_of v = Some (JStr "api") ->
  exists data wa,
    fetchWithRetry (analysis_url w) (analysis_request plz) None w = (Fulfilled data, wa) /\
    saveOfflineData plz data
      (set_cache (<["analysis_" +:+ plz := mkEntry data (clock wa)]> (cache wa)) wa)
    = (Fulfilled tt, w1) /\
    v = from_api data.
Proof.
  intros Hrun Hsrc.
  destruct (memory_hit ("analysis_" +:+ plz) force w) as [cached|] eqn:Hhit.
  { rewrite (fetchWaterAnalysis_memory _ _ _ cached) in Hrun by assumption.
    injection Hrun as <- <-. rewrite source_of_from_memory in Hsrc. discriminate. }
  destruct (onLine w) eqn:Hon.
  - rewrite fetchWaterAnalysis_online in Hrun by assumption.
    destruct (fetchWithRetry _ _ None w) as [[data|e|] wa]; cbn zeta in Hrun.
    + destruct (saveOfflineData plz data _) as [[[]|e|] wc] eqn:Hsave.
      * destruct (node_env wc); [|discriminate].
        injection Hrun as <- <-. eauto.
      * destruct (recover_frame plz e wc) as [_ Hfb].
        rewrite Hrun in Hfb. rewrite (Hfb v eq_refl) in Hsrc. discriminate.
      * discriminate.
    + destruct (recover_frame plz e wa) as [_ Hfb].
      rewrite Hrun in Hfb. rewrite (Hfb v eq_refl) in Hsrc. discriminate.
    + discriminate.
  - rewrite fetchWaterAnalysis_offline in Hrun by assumption.
    destruct (getOfflineData plz w) as [[d|e|] w']; try discriminate.
    destruct (truthy d); [|discriminate].
    injection Hrun as <- <-. rewrite source_of_from_offline in Hsrc. discriminate.
Qed.

Lemma stored_record_same w w' plz :
  indexedDB w' = indexedDB w -> offlineStorage w' = offlineStorage w ->
  stored_record w' plz = stored_record w plz /\ (has_store w -> has_store w').
Proof.
  intros Hdb Hname. unfold stored_record, has_store. rewrite Hdb, Hname. auto.
Qed.

(** C8.  After a call of [fetchWaterAnalysis] has returned a payload tagged
    'api' with IndexedDB present, the store holds a record of that payload
    for the key, stamped with the time of the write.  From then on, as long
    as the databases are left alone, [getOfflineData] for the key resolves
    to that payload while now - storedAt is below seven days and to [null]
    from seven days on; neither read removes the record. *)
Theorem offline_record_served_for_seven_days
    (plz : string) (force : bool) (w w1 : World) (v : JsVal) :
  fetchWaterAnalysis plz force w = (Fulfilled v, w1) ->
  source_of v = Some (JStr "api") ->
  indexedDB w <> None ->
  exists data storedAt,
    v = from_api data /\
    stored_record w1 plz = Some (mkRecord plz data storedAt) /\
    storedAt = clock w1 /\
    seven_days = 604800000 /\
    forall w2,
      indexedDB w2 = indexedDB w1 -> offlineStorage w2 = offlineStorage w1 ->
      hd NoFault (idb_faults w2) = NoFault ->
      let read := getOfflineData plz w2 in
      (clock w2 - storedAt < seven_days -> read.1 = Fulfilled data) /\
      (seven_days <= clock w2 - storedAt -> read.1 = Fulfilled JNull) /\
      indexedDB read.2 = indexedDB w2 /\
      stored_record read.2 plz = Some (mkRecord plz data storedAt).
Proof.
  intros Hrun Hsrc Hsup.
  destruct (api_result_inversion plz force w v w1 Hrun Hsrc)
    as (data & wa & Hfetch & Hsave & ->).
  pose proof (fetchWithRetry_frame (analysis_url w) (analysis_request plz) None w)
    as Hframe. rewrite Hfetch in Hframe. cbn [snd] in Hframe.
  destruct (cached_world_storage plz data w wa Hframe) as (_ & _ & Hdb & _ & Hclock).
  cbn zeta in Hdb, Hclock.
  assert (indexedDB
            (set_cache (<["analysis_" +:+ plz := mkEntry data (clock wa)]> (cache wa)) wa)
          <> None) as Hsup' by (rewrite Hdb; exact Hsup).
  destruct (saveOfflineData_stored plz data _ w1 Hsup' Hsave)
    as (Hrec & Hstore & _ & _ & _ & Hclock1).
  exists data, (clock w1). rewrite Hclock1 at 1. rewrite Hclock1.
  repeat apply conj; try reflexivity; [exact Hrec|].
  intros w2 Hdb2 Hname2 Hfault read. subst read.
  destruct (stored_record_same w1 w2 plz Hdb2 Hname2) as [Hrec2 Hstore2].
  rewrite getOfflineData_read by auto.
  rewrite Hrec2, Hrec. cbn [rec_timestamp rec_data fst snd].
  cbn [indexedDB set_idb_faults].
  repeat apply conj.
  - intros Hage. apply Z.ltb_lt in Hage. now rewrite Hage.
  - intros Hage. apply Z.ltb_ge in Hage. now rewrite Hage.
  - reflexivity.
  - unfold stored_record in *. cbn [indexedDB offlineStorage set_idb_faults].
    now rewrite Hrec2, Hrec.
Qed.

Lemma offline_record_served_for_seven_days_witness :
  let w := set_network [answers 120 sample_payload] (page_at 0) in
  let w1 := (fetchWaterAnalysis "10115" false w).2 in
  (getOfflineData "10115" (set_clock (120 + 604799999) w1)).1 = Fulfilled sample_payload /\
  (getOfflineData "10115" (set_clock (120 + 604800000) w1)).1 = Fulfilled JNull /\
  stored_record (getOfflineData "10115" (set_clock (120 + 604800000) w1)).2 "10115"
  = Some (mkRecord "10115" sample_payload 120).
Proof.
  intros w w1.
  destruct (offline_record_served_for_seven_days "10115" false w w1
              (from_api sample_payload))
    as (data & storedAt & Hv & Hrec & Hat & _ & Hreads);
    [vm_compute; reflexivity | vm_compute; reflexivity | discriminate |].
  vm_compute in Hrec. injection Hrec as <- <-.
  destruct (Hreads (set_clock (120 + 604799999) w1)) as (Hyoung & _);
    [reflexivity | reflexivity | reflexivity |].
  destruct (Hreads (set_clock (120 + 604800000) w1)) as (_ & Hold & _ & Hkept);
    [reflexivity | reflexivity | reflexivity |].
  split; [apply Hyoung; vm_compute; reflexivity|].
  split; [apply Hold; vm_compute; discriminate | exact Hkept].
Defined.

End AnalysisFacts.

(** ** The service worker *)

Module ServiceWorkerFacts.
Import ServiceWorker Samples.

Lemma find_cache_app name cs :
  find_cache name (cs ++ [(name, ∅)]) =
  Some (default ∅ (find_cache name cs)).
Proof.
  induction cs as [|[n c] cs IH]; cbn.
  - now rewrite String.eqb_refl.
  - destruct (String.eqb name n); [reflexivity | exact IH].
Qed.

Lemma find_cache_update name f cs :
  find_cache name (update_cache name f cs) = f <$> find_cache name cs.
Proof.
  induction cs as [|[n c] cs IH]; cbn; [reflexivity|].
  destruct (String.eqb name n) eqn:Hn; cbn; rewrite Hn; [reflexivity | exact IH].
Qed.

Lemma caches_open_run w : caches_open CACHE_NAME w = (Fulfilled tt, opened w).
Proof. reflexivity. Qed.

Lemma opened_find w :
  find_cache CACHE_NAME (caches (opened w)) = Some (current_cache w).
Proof.
  unfold opened, caches_open, modify, current_cache. cbn [snd].
  destruct (find_cache CACHE_NAME (caches w)) as [c|] eqn:Hc.
  - now rewrite Hc.
  - cbn [caches set_caches]. rewrite find_cache_app, Hc. reflexivity.
Qed.

Lemma opened_frame w :
  current_cache (opened w) = current_cache w /\
  network (opened w) = network w /\ effects (opened w) = effects w /\
  event_bound (opened w) = event_bound w /\
  location_origin (opened w) = location_origin w.
Proof.
  split; [unfold current_cache at 1; now rewrite opened_find|].
  unfold opened, caches_open, modify. cbn [snd].
  destruct (find_cache CACHE_NAME (caches w)); repeat split.
Qed.

Lemma cache_match_run request w :
  cache_match CACHE_NAME request (opened w) =
  (Fulfilled (current_cache w !! href (url request)), opened w).
Proof.
  unfold cache_match, gets. now rewrite opened_find.
Qed.

Lemma fetch_run request w :
  fetch request w =
  (match next_answer w with
   | Rejects e => Rejected e
   | Responds r => Fulfilled r
   end,
   record_effect (Fetched (href (url request))) (set_network (tl (network w)) w)).
Proof. unfold fetch, next_answer. destruct (hd _ (network w)); reflexivity. Qed.

Lemma after_fetch_frame request w :
  current_cache (after_fetch request w) = current_cache w /\
  caches (after_fetch request w) = caches w /\
  effects (after_fetch request w) = effects w ++ [Fetched (href (url request))].
Proof. repeat split. Qed.

Lemma put_after_fetch request response w :
  current_cache (cache_put CACHE_NAME request response (after_fetch request (opened w))).2
  = <[href (url request) := response]> (current_cache w).
Proof.
  unfold cache_put, modify, current_cache at 1.
  cbn [snd caches record_effect set_caches after_fetch set_network].
  now rewrite find_cache_update, opened_find.
Qed.

(** [handleApiRequest], case by case on the answer of the network. *)
Lemma handleApiRequest_run request w :
  handleApiRequest request w =
  let w1 := after_fetch request (opened w) in
  match next_answer w with
  | Responds r =>
      (Fulfilled r,
       if status r =? 200 then (cache_put CACHE_NAME request r w1).2 else w1)
  | Rejects e =>
      (Fulfilled (default offline_response (current_cache w !! href (url request))), w1)
  end.
Proof.
  unfold handleApiRequest, try_catch, mbind, async_bind, mret, async_ret.
  rewrite caches_open_run, fetch_run.
  destruct (opened_frame w) as (_ & Hnet & _).
  unfold next_answer, after_fetch. rewrite Hnet.
  destruct (hd _ (network w)) as [e|r]; cbn zeta.
  - unfold cache_match, gets. cbn [caches record_effect set_network].
    rewrite opened_find. cbn [mbind option_bind].
    destruct (current_cache w !! href (url request)); reflexivity.
  - destruct (status r =? 200); reflexivity.
Qed.

(** C3.  A GET request whose path contains one of the API patterns is
    answered by [handleApiRequest].  When the network answers with status
    200 the response is returned and the current cache generation holds it
    under the URL of the request, so a later call that finds the network
    down returns that response; when the fetch fails and the cache holds a
    response for the request, that one is returned; when the fetch fails and
    the cache has none, the answer is the synthetic response: status 503,
    JSON body with error equal to "Offline". *)
Theorem api_requests_network_first
    (request : Request) (w : Worker) :
  method request = "GET" -> is_api request = true ->
  let run := handleApiRequest request w in
  route request = Api /\
  onfetch request = Some (r ← handleApiRequest request; mret (Some r)) /\
  (forall r, next_answer w = Responds r -> status r = 200 ->
     run.1 = Fulfilled r /\
     current_cache run.2 !! href (url request) = Some r /\
     forall w2 e, current_cache w2 = current_cache run.2 ->
       next_answer w2 = Rejects e ->
       (handleApiRequest request w2).1 = Fulfilled r) /\
  (forall e cached, next_answer w = Rejects e ->
     current_cache w !! href (url request) = Some cached ->
     run.1 = Fulfilled cached) /\
  (forall e, next_answer w = Rejects e ->
     current_cache w !! href (url request) = None ->
     run.1 = Fulfilled offline_response) /\
  status offline_response = 503 /\
  body_error offline_response = Some (JStr "Offline").
Proof.
  intros Hget Hapi run. subst run.
  assert (route request = Api) as Hroute.
  { unfold route. rewrite Hget. cbn [String.eqb negb].
    unfold is_api in Hapi. now rewrite Hapi. }
  split; [exact Hroute|]. split; [unfold onfetch; now rewrite Hroute|].
  rewrite handleApiRequest_run. cbn zeta.
  repeat apply conj; try reflexivity.
  - intros r Hans H200. rewrite Hans.
    apply Z.eqb_eq in H200. rewrite H200. cbn [fst snd].
    split; [reflexivity|]. rewrite put_after_fetch.
    split; [apply lookup_insert_eq|].
    intros w2 e Hsame Hdown. rewrite handleApiRequest_run. cbn zeta.
    rewrite Hdown, Hsame, lookup_insert_eq. reflexivity.
  - intros e cached Hans Hcached. now rewrite Hans, Hcached.
  - intros e Hans Hmiss. now rewrite Hans, Hmiss.
Qed.

Lemma api_requests_network_first_witness :
  let request := get_request "/api/water-analysis" "cors" in
  let fresh := mkResponse 200 [("Content-Type", "application/json")]
                 (Json Samples.sample_payload) in
  (handleApiRequest request (worker_with ∅ [Responds fresh])).1 = Fulfilled fresh /\
  (handleApiRequest request (worker_with {[ href (url request) := fresh ]} [])).1
  = Fulfilled fresh /\
  (handleApiRequest request (worker_with ∅ [])).1 = Fulfilled offline_response.
Proof.
  intros request fresh. repeat apply conj.
  - destruct (api_requests_network_first request (worker_with ∅ [Responds fresh]))
      as (_ & _ & Hok & _); [reflexivity | reflexivity |].
    destruct (Hok fresh) as [Hres _]; [reflexivity | reflexivity |]. exact Hres.
  - destruct (api_requests_network_first request
                (worker_with {[ href (url request) := fresh ]} []))
      as (_ & _ & _ & Hcached & _); [reflexivity | reflexivity |].
    apply (Hcached (TypeError "Failed to fetch")); [reflexivity | vm_compute; reflexivity].
  - destruct (api_requests_network_first request (worker_with ∅ []))
      as (_ & _ & _ & _ & Hoff & _); [reflexivity | reflexivity |].
    apply (Hoff (TypeError "Failed to fetch")); reflexivity.
Defined.

(** *** Static assets *)

Lemma handleStaticRequest_run request w :
  handleStaticRequest request w =
  match current_cache w !! href (url request) with
  | Some r =>
      if event_bound w
      then (Fulfilled r, (updateCache request CACHE_NAME (opened w)).2)
      else (Rejected (ReferenceError "event"), opened w)
  | None => fetch request (opened w)
  end.
Proof.
  unfold handleStaticRequest, mbind, async_bind, mret, async_ret.
  rewrite caches_open_run, cache_match_run.
  destruct (current_cache w !! href (url request)) as [r|]; [|reflexivity].
  unfold gets. destruct (opened_frame w) as (_ & _ & _ & -> & _).
  destruct (event_bound w); [|reflexivity].
  unfold updateCache, try_catch, mbind, async_bind, mret, async_ret.
  rewrite fetch_run. destruct (next_answer (opened w)) as [e|fresh]; [reflexivity|].
  destruct (status fresh =? 200); reflexivity.
Qed.

(** Where nothing binds [event], a cache hit ends in a ReferenceError:
    the cached copy is not returned and nothing is fetched. *)
Lemma static_hit_unbound request w r :
  event_bound w = false ->
  current_cache w !! href (url request) = Some r ->
  handleStaticRequest request w = (Rejected (ReferenceError "event"), opened w) /\
  effects (opened w) = effects w /\ current_cache (opened w) = current_cache w.
Proof.
  intros Hunbound Hhit. rewrite handleStaticRequest_run, Hhit, Hunbound.
  destruct (opened_frame w) as (? & _ & ? & _). auto.
Qed.

(** On a miss the request goes to the network and the cache is left as it
    was. *)
Lemma static_miss_fetches request w :
  current_cache w !! href (url request) = None ->
  handleStaticRequest request w = fetch request (opened w) /\
  current_cache (handleStaticRequest request w).2 = current_cache w /\
  effects (handleStaticRequest request w).2 =
  effects w ++ [Fetched (href (url request))].
Proof.
  intros Hmiss. rewrite handleStaticRequest_run, Hmiss, fetch_run.
  destruct (opened_frame w) as (Hc & _ & He & _).
  split; [reflexivity|]. cbn [snd].
  fold (after_fetch request (opened w)).
  destruct (after_fetch_frame request (opened w)) as (-> & _ & ->).
  now rewrite Hc, He.
Qed.

Lemma next_answer_opened w : next_answer (opened w) = next_answer w.
Proof.
  destruct (opened_frame w) as (_ & Hnet & _). unfold next_answer. now rewrite Hnet.
Qed.

Lemma updateCache_run request w :
  (updateCache request CACHE_NAME (opened w)).2 =
  match next_answer w with
  | Responds fresh =>
      if status fresh =? 200
      then (cache_put CACHE_NAME request fresh (after_fetch request (opened w))).2
      else after_fetch request (opened w)
  | Rejects _ => after_fetch request (opened w)
  end.
Proof.
  unfold updateCache, try_catch, mbind, async_bind, mret, async_ret.
  rewrite fetch_run. fold (after_fetch request (opened w)).
  rewrite next_answer_opened.
  destruct (next_answer w) as [e|fresh]; [reflexivity|].
  destruct (status fresh =? 200); reflexivity.
Qed.

(** With [event] bound the hit branch does what it was written for. *)
Lemma static_hit_bound request w r :
  event_bound w = true ->
  current_cache w !! href (url request) = Some r ->
  (handleStaticRequest request w).1 = Fulfilled r /\
  forall fresh, next_answer w = Responds fresh -> status fresh = 200 ->
    current_cache (handleStaticRequest request w).2 !! href (url request) = Some fresh.
Proof.
  intros Hbound Hhit. rewrite handleStaticRequest_run, Hhit, Hbound.
  split; [reflexivity|]. intros fresh Hans H200. cbn [snd].
  rewrite updateCache_run, Hans. apply Z.eqb_eq in H200. rewrite H200.
  rewrite put_after_fetch. apply lookup_insert_eq.
Qed.

(** Every path that starts with a slash contains the first asset of the
    manifest: what is not an API request is a static one. *)
Lemma slash_paths_are_static request rest :
  method request = "GET" -> pathname (url request) = "/" +:+ rest ->
  is_api request = false -> route request = Static.
Proof.
  intros Hget Hpath Hapi. unfold route. rewrite Hget. cbn [String.eqb negb].
  unfold is_api in Hapi. rewrite Hapi.
  unfold PRECACHE_ASSETS. cbn [existsb]. rewrite Hpath.
  destruct rest; reflexivity.
Qed.

(** C6 at a concrete input: a GET for a precached stylesheet whose copy is
    in the cache, in a worker whose global scope has no [event].  The
    listener routes it to [handleStaticRequest]; the promise given to
    [respondWith] is rejected with a ReferenceError, no request is made
    and the cache entry is not refreshed. *)
Theorem static_hit_rejects_without_event :
  let request := get_request "/styles/main.css" "no-cors" in
  let cached := page_response "body { color: navy }" in
  let fresh := page_response "body { color: teal }" in
  let w := worker_with {[ href (url request) := cached ]} [Responds fresh] in
  route request = Static /\
  handleStaticRequest request w = (Rejected (ReferenceError "event"), w) /\
  effects (handleStaticRequest request w).2 = [] /\
  current_cache (handleStaticRequest request w).2 !! href (url request) = Some cached.
Proof.
  cbv zeta. split; [reflexivity|].
  split; [vm_compute; reflexivity|].
  split; vm_compute; reflexivity.
Qed.

(** *** Everything else *)

Lemma handleNetworkFirst_run request w :
  handleNetworkFirst request w =
  match next_answer w with
  | Responds r => (Fulfilled (Some r), after_fetch request w)
  | Rejects e =>
      let w1 := opened (after_fetch request w) in
      match current_cache w !! href (url request) with
      | Some r => (Fulfilled (Some r), w1)
      | None =>
          if String.eqb (mode request) "navigate"
          then (Fulfilled (first_match (location_origin w +:+ OFFLINE_URL) (caches w1)), w1)
          else (Rejected e, w1)
      end
  end.
Proof.
  unfold handleNetworkFirst, try_catch, mbind, async_bind, mret, async_ret.
  rewrite fetch_run. fold (after_fetch request w).
  destruct (next_answer w) as [e|r]; [|reflexivity].
  rewrite caches_open_run, cache_match_run. cbn zeta.
  destruct (after_fetch_frame request w) as (-> & _ & _).
  destruct (current_cache w !! href (url request)); [reflexivity|].
  destruct (String.eqb (mode request) "navigate"); [|reflexivity].
  unfold caches_match, gets.
  destruct (opened_frame (after_fetch request w)) as (_ & _ & _ & _ & ->).
  reflexivity.
Qed.

(** C7 at a concrete input: a navigation to [/about.html], a page that
    neither list names, with the network down, once with the offline page
    in the cache and once with the cache empty.  '/' is a precached asset
    and the listener tests [pathname.includes], so the request goes to
    [handleStaticRequest] and not to [handleNetworkFirst]; on the miss its
    [fetch] fails and the promise given to [respondWith] is rejected with
    that error, the cached offline page is not looked up.
    [handleNetworkFirst] on the same request would have answered with the
    offline page. *)
Theorem unlisted_navigation_offline_is_rejected :
  let request := get_request "/about.html" "navigate" in
  let page := page_response "You are offline" in
  let down := [Rejects (TypeError "Failed to fetch")] in
  let w := worker_with {[ "https://example.org/offline.html" := page ]} down in
  let bare := worker_with ∅ down in
  is_api request = false /\
  route request = Static /\
  onfetch request = Some (r ← handleStaticRequest request; mret (Some r)) /\
  current_cache w !! href (url request) = None /\
  first_match (location_origin w +:+ OFFLINE_URL) (caches w) = Some page /\
  (handleStaticRequest request w).1 = Rejected (TypeError "Failed to fetch") /\
  effects (handleStaticRequest request w).2 = [Fetched (href (url request))] /\
  (handleStaticRequest request bare).1 = Rejected (TypeError "Failed to fetch") /\
  (handleNetworkFirst request w).1 = Fulfilled (Some page).
Proof.
  cbv zeta. split; [reflexivity|]. split; [reflexivity|]. split; [reflexivity|].
  repeat split; vm_compute; reflexivity.
Qed.

End ServiceWorkerFacts.

(** ** The fallback generator *)

Module FallbackFacts.
Import DataFetcher Samples AnalysisFacts CacheFacts.

(** A result tagged 'fallback_data' is the output of the generator for the
    key of the call. *)
Lemma fallback_result_inversion plz force w v w1 :
  fetchWaterAnalysis plz force w = (Fulfilled v, w1) ->
  source_of v = Some (JStr "fallback_data") ->
  (getFallbackData plz w1).1 = Fulfilled v.
Proof.
  intros Hrun Hsrc.
  assert (forall e w0, recover plz e w0 = (Fulfilled v, w1) ->
          (getFallbackData plz w1).1 = Fulfilled v) as Hrec.
  { intros e w0. unfold recover.
    destruct (includes (message e) "Failed to fetch"); [|discriminate].
    intros H. injection H as <- <-. reflexivity. }
  destruct (memory_hit ("analysis_" +:+ plz) force w) as [cached|] eqn:Hhit.
  { rewrite (fetchWaterAnalysis_memory _ _ _ cached) in Hrun by assumption.
    injection Hrun as <- <-. rewrite source_of_from_memory in Hsrc. discriminate. }
  destruct (onLine w) eqn:Hon.
  - rewrite fetchWaterAnalysis_online in Hrun by assumption.
    destruct (fetchWithRetry _ _ None w) as [[data|e|] wa]; cbn zeta in Hrun.
    + destruct (saveOfflineData plz data _) as [[[]|e|] wc].
      * destruct (node_env wc); [|discriminate].
        injection Hrun as <- <-. rewrite source_of_from_api in Hsrc. discriminate.
      * exact (Hrec e wc Hrun).
      * discriminate.
    + exact (Hrec e wa Hrun).
    + discriminate.
  - rewrite fetchWaterAnalysis_offline in Hrun by assumption.
    destruct (getOfflineData plz w) as [[d|e|] w']; try discriminate.
    destruct (truthy d); [|discriminate].
    injection Hrun as <- <-. rewrite source_of_from_offline in Hsrc. discriminate.
Qed.

(** C9.  [getFallbackData] is a function of the key alone: run in any two
    worlds (other clock, cache, network, stores) it settles at once with the
    same object and changes nothing; and any two results of
    [fetchWaterAnalysis] for one key that are tagged 'fallback_data' are
    the same object, field by field. *)
Theorem getFallbackData_deterministic (plz : string) (w1 w2 : World) :
  (exists v, getFallbackData plz w1 = (Fulfilled v, w1) /\
             getFallbackData plz w2 = (Fulfilled v, w2)) /\
  (forall force1 force2 v1 v2 w1' w2',
     fetchWaterAnalysis plz force1 w1 = (Fulfilled v1, w1') ->
     fetchWaterAnalysis plz force2 w2 = (Fulfilled v2, w2') ->
     source_of v1 = Some (JStr "fallback_data") ->
     source_of v2 = Some (JStr "fallback_data") ->
     v1 = v2).
Proof.
  split; [eexists; split; reflexivity|].
  intros force1 force2 v1 v2 w1' w2' Hrun1 Hrun2 Hsrc1 Hsrc2.
  pose proof (fallback_result_inversion plz force1 w1 v1 w1' Hrun1 Hsrc1) as H1.
  pose proof (fallback_result_inversion plz force2 w2 v2 w2' Hrun2 Hsrc2) as H2.
  assert ((getFallbackData plz w1').1 = (getFallbackData plz w2').1) as Hsame
    by reflexivity.
  rewrite H1, H2 in Hsame. now injection Hsame.
Qed.

Lemma getFallbackData_deterministic_witness :
  let early := page_at 0 in
  let late := set_network [fails_to_fetch] (page_with_entry 0 86400000) in
  (fetchWaterAnalysis "10115" false early).1 = (fetchWaterAnalysis "10115" false late).1.
Proof.
  intros early late.
  destruct (getFallbackData_deterministic "10115" early late) as [_ Hsame].
  destruct (fetchWaterAnalysis "10115" false early) as [[v1| |] w1'] eqn:H1;
    [|vm_compute in H1; discriminate ..].
  destruct (fetchWaterAnalysis "10115" false late) as [[v2| |] w2'] eqn:H2;
    [|vm_compute in H2; discriminate ..].
  cbn [fst]. f_equal.
  apply (Hsame false false v1 v2 w1' w2' H1 H2).
  - vm_compute in H1. injection H1 as <- _. reflexivity.
  - vm_compute in H2. injection H2 as <- _. reflexivity.
Defined.

End FallbackFacts.

(** ** The analytics buffer *)

Module BufferFacts.
Import AffiliateOptimizer Samples.

Lemma slice_last_50 {A} (l : list A) :
  slice (-50) l = drop (length l - 50) l.
Proof.
  unfold slice. cbn [Z.ltb Z.compare]. f_equal. lia.
Qed.

(** C10.  Starting from no buffer or a stored array, [bufferAnalytics]
    returns normally and leaves under 'analytics_buffer' the last fifty of
    the old events followed by the new one: at most 50 events, all of them
    when there is room, exactly 50 when the buffer was full, the oldest
    dropped and the new event last. *)
Theorem analytics_buffer_bounded
    (event : JsVal) (localStorage : gmap string JsVal) (buffer : list JsVal) :
  localStorage !! "analytics_buffer" = None /\ buffer = [] \/
  localStorage !! "analytics_buffer" = Some (JArr buffer) ->
  let run := bufferAnalytics event localStorage in
  exists kept,
    run.1 = Fulfilled tt /\
    run.2 !! "analytics_buffer" = Some (JArr kept) /\
    (length kept <= 50)%nat /\
    kept = drop (length (buffer ++ [event]) - 50) (buffer ++ [event]) /\
    ((length buffer < 50)%nat -> kept = buffer ++ [event]) /\
    ((50 <= length buffer)%nat ->
     length kept = 50%nat /\ kept = drop (length buffer - 49) buffer ++ [event]) /\
    last kept = Some event.
Proof.
  intros Hstored run. subst run. unfold bufferAnalytics.
  assert (default (JArr []) (localStorage !! "analytics_buffer") = JArr buffer) as ->.
  { destruct Hstored as [[-> ->] | ->]; reflexivity. }
  cbn [fst snd]. rewrite lookup_insert_eq, slice_last_50.
  eexists. split; [reflexivity|]. split; [reflexivity|].
  rewrite length_app. cbn [length].
  repeat apply conj.
  - rewrite length_drop, length_app. cbn [length]. lia.
  - reflexivity.
  - intros Hroom. replace (length buffer + 1 - 50)%nat with O by lia. reflexivity.
  - intros Hfull. split.
    + rewrite length_drop, length_app. cbn [length]. lia.
    + rewrite drop_app_le by lia. f_equal. f_equal. lia.
  - destruct (decide (length buffer + 1 - 50 <= length buffer)%nat) as [Hle|Hgt]; [|lia].
    rewrite drop_app_le by exact Hle. apply last_snoc.
Qed.

Lemma analytics_buffer_bounded_witness :
  let event := numbered 50 in
  let stored := (bufferAnalytics event {[ "analytics_buffer" := JArr full_buffer ]}).2 in
  stored !! "analytics_buffer" = Some (JArr (numbered <$> seq 1 50)).
Proof.
  intros event stored.
  destruct (analytics_buffer_bounded event
              {[ "analytics_buffer" := JArr full_buffer ]} full_buffer)
    as (kept & _ & Hkept & _ & _ & _ & Hfull & _); [right; reflexivity|].
  destruct Hfull as [_ Heq]; [vm_compute; lia|].
  rewrite Heq in Hkept. exact Hkept.
Defined.

End BufferFacts.

(** ** The worker's lifecycle and background sync *)

Module WorkerLifecycleFacts.
Import ServiceWorker WorkerLifecycle ServiceWorkerFacts.

(** *** Background sync *)

Lemma filter_out_head (event : AnalyticsEvent) (rest : list AnalyticsEvent) :
  NoDup (event_id <$> (event :: rest)) ->
  List.filter (fun ev => negb (event_id ev =? event_id event)) (event :: rest) = rest.
Proof.
  intros Hnodup. apply NoDup_cons in Hnodup as [Hfresh _].
  cbn [List.filter]. rewrite Z.eqb_refl. cbn [negb].
  induction rest as [|ev rest IH]; [reflexivity|].
  cbn [List.filter]. cbn in Hfresh. apply not_elem_of_cons in Hfresh.
  destruct Hfresh as [Hne Hfresh].
  assert ((event_id ev =? event_id event) = false) as -> by (apply Z.eqb_neq; congruence).
  cbn [negb]. f_equal. exact (IH Hfresh).
Qed.

(** One run of the loop over a queue that is the store itself. *)
Lemma replay_run (events : list AnalyticsEvent) :
  forall w, pending w = events -> NoDup (event_id <$> events) ->
  let k := delivered events (sync_network w) (delete_faults w) in
  (replay events w).1 = Fulfilled tt /\
  pending (replay events w).2 = drop k events /\
  posted (replay events w).2 = posted w ++ take (S k) events.
Proof.
  induction events as [|event rest IH]; intros w Hstore Hnodup k; subst k.
  - cbn. rewrite app_nil_r. auto.
  - cbn [replay delivered]. unfold mbind, async_bind, post_event.
    destruct (hd (Rejects (TypeError "Failed to fetch")) (sync_network w)) as [e|r].
    + cbn. auto.
    + unfold deleteEvent. cbn [delete_faults pending sync_network open_fault read_fault posted].
      destruct (hd None (delete_faults w)) as [e|].
      * cbn. auto.
      * rewrite Hstore, (filter_out_head event rest Hnodup).
        apply NoDup_cons in Hnodup as [_ Hnodup].
        match goal with |- context [replay rest ?w2] =>
          destruct (IH w2 eq_refl Hnodup) as (Hres & Hpending & Hposted) end.
        cbn [sync_network delete_faults posted] in Hres, Hpending, Hposted.
        rewrite Hres, Hpending, Hposted. cbn [drop take].
        rewrite <- app_assoc. auto.
Qed.

(** X1.  Background sync drains the queue from its head and stops at the
    first event whose request fails or whose deletion fails: the run is
    fulfilled all the same, the events before that one are gone from the
    store, that one and those after it are still there in their order, and
    the events posted are those deleted and the one that failed.  When the
    database cannot be opened or read, the run is rejected and nothing is
    posted. *)
Theorem syncAnalytics_stops_at_first_failure (w : SyncWorld) :
  let run := syncAnalytics w in
  let k := delivered (pending w) (sync_network w) (delete_faults w) in
  (open_fault w = None -> read_fault w = None ->
   NoDup (event_id <$> pending w) ->
   run.1 = Fulfilled tt /\
   (k <= length (pending w))%nat /\
   pending run.2 = drop k (pending w) /\
   posted run.2 = posted w ++ take (S k) (pending w)) /\
  (forall e, open_fault w = Some e -> run = (Rejected e, w)) /\
  (forall e, open_fault w = None -> read_fault w = Some e -> run = (Rejected e, w)).
Proof.
  intros run k. subst run k. unfold syncAnalytics, mbind, async_bind,
    openAnalyticsDB, getAllPendingEvents.
  repeat apply conj.
  - intros -> -> Hnodup.
    destruct (replay_run (pending w) w eq_refl Hnodup) as (Hres & Hpending & Hposted).
    split; [exact Hres|]. split; [|split; assumption].
    clear. generalize (sync_network w) (delete_faults w).
    induction (pending w) as [|ev rest IH]; intros net faults; cbn [delivered length];
      [lia|].
    destruct (hd _ net); [lia|]. destruct (hd None faults); [lia|].
    specialize (IH (tl net) (tl faults)). lia.
  - intros e ->. reflexivity.
  - intros e -> ->. reflexivity.
Qed.

(** *** Activation *)

Lemma delete_old_run (cacheNames : list string) :
  forall w,
  (delete_old cacheNames w).1 = Fulfilled tt /\
  caches (delete_old cacheNames w).2 =
  List.filter
    (fun c => String.eqb c.1 CACHE_NAME ||
              negb (existsb (String.eqb c.1) cacheNames))
    (caches w) /\
  network (delete_old cacheNames w).2 = network w /\
  effects (delete_old cacheNames w).2 = effects w /\
  location_origin (delete_old cacheNames w).2 = location_origin w.
Proof.
  induction cacheNames as [|cacheName rest IH]; intros w.
  - cbn. split; [reflexivity|]. split; [|auto].
    induction (caches w) as [|c l IHl]; [reflexivity|].
    cbn. rewrite orb_true_r. now f_equal.
  - cbn [delete_old]. unfold mbind, async_bind.
    destruct (negb (String.eqb cacheName CACHE_NAME)) eqn:Hold.
    + unfold caches_delete, modify.
      match goal with |- context [delete_old rest ?w1] =>
        destruct (IH w1) as (Hres & Hcaches & Hnet & Heff & Horigin) end.
      rewrite Hres, Hcaches, Hnet, Heff, Horigin.
      split; [reflexivity|]. split; [|auto].
      cbn [caches set_caches existsb]. clear - Hold.
      apply negb_true_iff in Hold.
      induction (caches w) as [|[n c] l IHl]; [reflexivity|].
      cbn [List.filter fst]. destruct (String.eqb n cacheName) eqn:Hn.
      * apply String.eqb_eq in Hn. subst n. rewrite Hold. cbn. exact IHl.
      * cbn [negb List.filter fst orb].
        destruct (String.eqb n CACHE_NAME || negb (existsb (String.eqb n) rest));
          [f_equal|]; exact IHl.
    + unfold mret, async_ret.
      destruct (IH w) as (Hres & Hcaches & Hnet & Heff & Horigin).
      rewrite Hres, Hcaches, Hnet, Heff, Horigin.
      split; [reflexivity|]. split; [|auto].
      apply negb_false_iff, String.eqb_eq in Hold. subst cacheName.
      apply List.filter_ext. intros [n c]. cbn [fst existsb].
      destruct (String.eqb n CACHE_NAME); reflexivity.
Qed.

Lemma existsb_own_name (cs : list (string * gmap string Response)) n c :
  In (n, c) cs -> existsb (String.eqb n) cs.*1 = true.
Proof.
  intros Hin. apply existsb_exists. exists n. split; [|apply String.eqb_refl].
  apply in_map_iff. exists (n, c). auto.
Qed.

(** What activation leaves of the Cache Storage. *)
Lemma activate_caches (r : Registration) :
  (activate r).1 = Fulfilled tt /\
  caches (worker (activate r).2) =
  List.filter (fun c => String.eqb c.1 CACHE_NAME) (caches (worker r)) /\
  clients_claimed (activate r).2 = true /\
  skipped_waiting (activate r).2 = skipped_waiting r /\
  network (worker (activate r).2) = network (worker r) /\
  effects (worker (activate r).2) = effects (worker r).
Proof.
  unfold activate, mbind, async_bind, lift, gets, modify. cbv beta iota zeta.
  cbn [worker skipped_waiting clients_claimed].
  destruct (delete_old_run (caches (worker r)).*1 (worker r))
    as (Hres & Hcaches & Hnet & Heff & _).
  destruct (delete_old (caches (worker r)).*1 (worker r)) as [res w'].
  cbn [fst snd] in *. subst res. cbn [fst snd worker clients_claimed skipped_waiting].
  split; [reflexivity|]. split; [|auto].
  rewrite Hcaches. apply List.filter_ext_in. intros [n c] Hin. cbn [fst].
  rewrite (existsb_own_name _ n c Hin). now rewrite orb_false_r.
Qed.

Lemma find_cache_only name (cs : list (string * gmap string Response)) :
  find_cache name (List.filter (fun c => String.eqb c.1 name) cs) = find_cache name cs.
Proof.
  induction cs as [|[n c] cs IH]; [reflexivity|].
  cbn [List.filter fst find_cache]. rewrite (String.eqb_sym n name).
  destruct (String.eqb name n) eqn:Hn; [|exact IH].
  cbn [find_cache]. now rewrite Hn.
Qed.

Lemma find_cache_other name other (cs : list (string * gmap string Response)) :
  name <> other ->
  find_cache name (List.filter (fun c => String.eqb c.1 other) cs) = None.
Proof.
  intros Hne. induction cs as [|[n c] cs IH]; [reflexivity|].
  cbn [List.filter fst]. destruct (String.eqb n other) eqn:Hn; [|exact IH].
  cbn [find_cache]. apply String.eqb_eq in Hn. subst n.
  apply String.eqb_neq in Hne. now rewrite Hne.
Qed.

Lemma filter_one_name (cs : list (string * gmap string Response)) name :
  NoDup cs.*1 ->
  (length (List.filter (fun c => String.eqb c.1 name) cs) <= 1)%nat.
Proof.
  induction cs as [|[n c] cs IH]; intros Hnodup; [cbn; lia|].
  cbn in Hnodup. apply NoDup_cons in Hnodup as [Hfresh Hnodup].
  cbn [List.filter fst]. destruct (String.eqb n name) eqn:Hn; [|auto].
  apply String.eqb_eq in Hn. subst n. cbn [length].
  assert (List.filter (fun c0 => String.eqb c0.1 name) cs = []) as ->; [|cbn; lia].
  clear - Hfresh. induction cs as [|[n c] cs IH]; [reflexivity|].
  cbn in Hfresh. apply not_elem_of_cons in Hfresh as [Hne Hfresh].
  cbn [List.filter fst]. apply not_eq_sym, String.eqb_neq in Hne. rewrite Hne. auto.
Qed.

(** X2.  Activation always completes, deletes every cache generation but
    the current one and leaves the current one as it was: afterwards no
    cache of another name can be found, the content of the current cache is
    unchanged, and the storage holds at most one cache; the clients are
    claimed after the deletions, and no request is made. *)
Theorem activate_leaves_current_generation_only (r : Registration) :
  let run := activate r in
  run.1 = Fulfilled tt /\
  clients_claimed run.2 = true /\
  (forall name, name <> CACHE_NAME ->
     find_cache name (caches (worker run.2)) = None) /\
  find_cache CACHE_NAME (caches (worker run.2)) =
  find_cache CACHE_NAME (caches (worker r)) /\
  Forall (fun c => c.1 = CACHE_NAME) (caches (worker run.2)) /\
  (NoDup (caches (worker r)).*1 -> (length (caches (worker run.2)) <= 1)%nat) /\
  effects (worker run.2) = effects (worker r).
Proof.
  intros run. subst run.
  destruct (activate_caches r) as (Hres & Hcaches & Hclaimed & _ & _ & Heff).
  rewrite Hcaches. repeat apply conj; auto.
  - intros name Hne. now apply find_cache_other.
  - apply find_cache_only.
  - apply Forall_forall. intros [n c] Hin.
    apply list_elem_of_In, filter_In in Hin as [_ Hn].
    now apply String.eqb_eq in Hn.
  - apply filter_one_name.
Qed.

(** *** Installation *)

Lemma fetch_each_run (requests : list Request) :
  forall w,
  (fetch_each requests w).1 = zip requests (coming (length requests) (network w)) /\
  caches (fetch_each requests w).2 = caches w /\
  location_origin (fetch_each requests w).2 = location_origin w /\
  event_bound (fetch_each requests w).2 = event_bound w /\
  effects (fetch_each requests w).2 =
  effects w ++ ((fun request => Fetched (href (url request))) <$> requests).
Proof.
  induction requests as [|request rest IH]; intros w.
  - cbn. now rewrite app_nil_r.
  - cbn [fetch_each].
    destruct (IH (after_fetch request w)) as (Hans & Hc & Ho & Hb & He).
    destruct (fetch_each rest (after_fetch request w)) as [answers w'].
    cbn [fst snd] in *. rewrite Hans, Hc, Ho, Hb, He.
    split; [reflexivity|]. split; [reflexivity|]. split; [reflexivity|].
    split; [reflexivity|]. cbn. now rewrite <- app_assoc.
Qed.

Lemma all_ok_good (requests : list Request) :
  forall rs, length rs = length requests ->
  Forall (fun r => addable r = true) rs ->
  all_ok (zip requests (Responds <$> rs)) = Some (zip requests rs).
Proof.
  induction requests as [|request rest IH]; intros [|r rs] Hlen Hok;
    try discriminate; [reflexivity|].
  apply Forall_cons in Hok as [Hr Hok]. cbn. rewrite Hr.
  rewrite IH by (auto; cbn in Hlen; lia). reflexivity.
Qed.

Lemma all_ok_bad (requests : list Request) :
  forall answers i a, (i < length requests)%nat ->
  answers !! i = Some a ->
  (forall r, a = Responds r -> addable r = false) ->
  all_ok (zip requests answers) = None.
Proof.
  induction requests as [|request rest IH]; intros answers i a Hi Ha Hbad;
    [cbn in Hi; lia|].
  destruct answers as [|a0 answers]; [discriminate|].
  cbn [zip zip_with all_ok]. destruct i as [|i].
  - injection Ha as ->. destruct a as [e|r]; [reflexivity|].
    now rewrite (Hbad r eq_refl).
  - destruct a0 as [e|r]; [reflexivity|].
    destruct (addable r); [|reflexivity].
    rewrite (IH answers i a); [reflexivity | cbn in Hi; lia | exact Ha | exact Hbad].
Qed.

Lemma coming_lookup n : forall answers i, (i < n)%nat ->
  coming n answers !! i = Some (nth i answers (Rejects (TypeError "Failed to fetch"))).
Proof.
  induction n as [|n IH]; intros answers i Hi; [lia|].
  destruct i as [|i]; cbn.
  - now destruct answers.
  - rewrite IH by lia. f_equal. destruct answers; [now destruct i | reflexivity].
Qed.

Lemma coming_length n : forall answers, length (coming n answers) = n.
Proof. induction n; intros; cbn; auto. Qed.

Lemma coming_responses n : forall answers,
  (forall i, (i < n)%nat -> exists r,
     nth i answers (Rejects (TypeError "Failed to fetch")) = Responds r /\
     addable r = true) ->
  exists rs, coming n answers = Responds <$> rs /\ length rs = n /\
    Forall (fun r => addable r = true) rs.
Proof.
  induction n as [|n IH]; intros answers Hall; [exists []; auto|].
  destruct (Hall O) as (r & Hr & Hok); [lia|].
  destruct (IH (tl answers)) as (rs & Hrs & Hlen & Hoks).
  { intros i Hi. destruct (Hall (S i)) as (r' & Hr' & Hok'); [lia|].
    exists r'. split; [|exact Hok'].
    rewrite <- Hr'. destruct answers; [now destruct i | reflexivity]. }
  exists (r :: rs). cbn. rewrite Hrs. split; [|split; [lia | now constructor]].
  f_equal. rewrite <- Hr. now destruct answers.
Qed.

Lemma put_all_current (entries : list (Request * Response)) :
  forall w c, find_cache CACHE_NAME (caches w) = Some c ->
  find_cache CACHE_NAME (caches (put_all CACHE_NAME entries w)) =
  Some (fold_left (fun m entry => <[href (url entry.1) := entry.2]> m) entries c) /\
  location_origin (put_all CACHE_NAME entries w) = location_origin w /\
  event_bound (put_all CACHE_NAME entries w) = event_bound w /\
  network (put_all CACHE_NAME entries w) = network w.
Proof.
  induction entries as [|[request r] entries IH]; intros w c Hc; [auto|].
  unfold put_all in *. cbn [fold_left fst snd].
  destruct (IH (cache_put CACHE_NAME request r w).2 (<[href (url request) := r]> c))
    as (Hfind & Horigin & Hbound & Hnet).
  - unfold cache_put, modify. cbn. now rewrite find_cache_update, Hc.
  - rewrite Hfind, Horigin, Hbound, Hnet. repeat split.
Qed.

Lemma fold_insert_other (entries : list (Request * Response)) :
  forall (c : gmap string Response) u,
  (forall entry, entry ∈ entries -> href (url entry.1) <> u) ->
  fold_left (fun m entry => <[href (url entry.1) := entry.2]> m) entries c !! u = c !! u.
Proof.
  induction entries as [|entry entries IH]; intros c u Hother; [reflexivity|].
  cbn [fold_left]. rewrite IH.
  - apply lookup_insert_ne. apply Hother. left.
  - intros e He. apply Hother. now right.
Qed.

Lemma fold_insert_own (entries : list (Request * Response)) :
  forall (c : gmap string Response) i entry,
  NoDup ((fun e => href (url e.1)) <$> entries) ->
  entries !! i = Some entry ->
  fold_left (fun m e => <[href (url e.1) := e.2]> m) entries c !! href (url entry.1)
  = Some entry.2.
Proof.
  induction entries as [|e entries IH]; intros c i entry Hnodup Hi; [discriminate|].
  cbn in Hnodup. apply NoDup_cons in Hnodup as [Hfresh Hnodup].
  cbn [fold_left]. destruct i as [|i].
  - injection Hi as ->. rewrite fold_insert_other; [apply lookup_insert_eq|].
    intros e He Heq. apply Hfresh. rewrite <- Heq.
    apply list_elem_of_fmap. eauto.
  - exact (IH _ i entry Hnodup Hi).
Qed.

Lemma append_empty (s : string) : s +:+ "" = s.
Proof.
  induction s as [|a s IH]; [reflexivity|].
  change (String a (s +:+ "") = String a s). now rewrite IH.
Qed.

Lemma asset_url_eq w path : asset_url w path = location_origin w +:+ path.
Proof. unfold asset_url, href. cbn. now rewrite append_empty. Qed.

Lemma asset_urls_distinct w :
  NoDup (asset_url w <$> PRECACHE_ASSETS).
Proof.
  apply NoDup_fmap_2_strong; [|apply (bool_decide_unpack _); vm_compute; reflexivity].
  intros a b _ _. rewrite !asset_url_eq. apply String.app_inj.
Qed.

Lemma install_run r :
  install r =
  let w0 := opened (worker r) in
  let fetched := fetch_each (asset_request w0 <$> PRECACHE_ASSETS) w0 in
  match all_ok fetched.1 with
  | Some entries =>
      (Fulfilled tt,
       mkRegistration (put_all CACHE_NAME entries fetched.2) true (clients_claimed r))
  | None =>
      (Rejected (TypeError "Failed to execute 'addAll' on 'Cache': Request failed"),
       mkRegistration fetched.2 (skipped_waiting r) (clients_claimed r))
  end.
Proof.
  unfold install, lift, addAll, mbind, async_bind, modify, opened.
  destruct (caches_open CACHE_NAME (worker r)) as [[[]|e|] w0] eqn:Hopen;
    try (unfold caches_open, modify in Hopen; discriminate).
  cbn [worker skipped_waiting clients_claimed snd fst].
  destruct (fetch_each (asset_request w0 <$> PRECACHE_ASSETS) w0) as [answers w1].
  cbn [fst snd]. destruct (all_ok answers); reflexivity.
Qed.

Lemma zip_keys (requests : list Request) :
  forall (rs : list Response), length rs = length requests ->
  (fun e : Request * Response => href (url e.1)) <$> zip requests rs =
  (fun request => href (url request)) <$> requests.
Proof.
  induction requests as [|request rest IH]; intros [|r rs] Hlen;
    try discriminate; [reflexivity|].
  cbn. f_equal. apply IH. cbn in Hlen. lia.
Qed.

Lemma all_ok_Some (answers : list (Request * FetchOutcome)) :
  forall entries, all_ok answers = Some entries ->
  entries.*1 = answers.*1 /\ Responds <$> entries.*2 = answers.*2.
Proof.
  induction answers as [|[request [e|r]] answers IH]; intros entries Hall;
    cbn in Hall; try discriminate.
  - injection Hall as <-. auto.
  - destruct (addable r); [|discriminate].
    destruct (all_ok answers) as [rest|]; [|discriminate].
    injection Hall as <-. destruct (IH rest eq_refl) as [H1 H2].
    cbn. now rewrite H1, H2.
Qed.

(** What the installation does, case by case. *)
Lemma install_outcome (r : Registration) :
  let w := worker r in
  let run := install r in
  let answer i := nth i (network w) (Rejects (TypeError "Failed to fetch")) in
  ((forall i, (i < length PRECACHE_ASSETS)%nat ->
      exists resp, answer i = Responds resp /\ addable resp = true) ->
   run.1 = Fulfilled tt /\ skipped_waiting run.2 = true /\
   forall i asset resp, PRECACHE_ASSETS !! i = Some asset ->
     answer i = Responds resp ->
     current_cache (worker run.2) !! (location_origin w +:+ asset) = Some resp) /\
  (forall i, (i < length PRECACHE_ASSETS)%nat ->
     (forall resp, answer i = Responds resp -> addable resp = false) ->
     run.1 = Rejected (TypeError "Failed to execute 'addAll' on 'Cache': Request failed") /\
     skipped_waiting run.2 = skipped_waiting r /\
     current_cache (worker run.2) = current_cache w) /\
  (forall u, (forall asset, asset ∈ PRECACHE_ASSETS -> u <> location_origin w +:+ asset) ->
     current_cache (worker run.2) !! u = current_cache w !! u) /\
  current_cache (worker run.2) !! (location_origin w +:+ OFFLINE_URL) =
  current_cache w !! (location_origin w +:+ OFFLINE_URL) /\
  clients_claimed run.2 = clients_claimed r /\
  event_bound (worker run.2) = event_bound w /\
  location_origin (worker run.2) = location_origin w.
Proof.
  intros w run answer. subst run. rewrite install_run. cbv zeta.
  fold w. set (w0 := opened w).
  destruct (opened_frame w) as (_ & Hnet & _ & Hbound & Horigin).
  fold w0 in Hnet, Hbound, Horigin.
  set (requests := asset_request w0 <$> PRECACHE_ASSETS).
  destruct (fetch_each_run requests w0) as (Hans & Hcaches & Ho1 & Hb1 & _).
  assert (Hlen : length requests = length PRECACHE_ASSETS)
    by (subst requests; apply length_fmap).
  assert (Hfind : find_cache CACHE_NAME (caches (fetch_each requests w0).2)
                  = Some (current_cache w))
    by (rewrite Hcaches; apply opened_find).
  assert (Hfst : (fetch_each requests w0).1.*1 = requests).
  { rewrite Hans. apply fst_zip. rewrite coming_length. lia. }
  assert (Hsnd : (fetch_each requests w0).1.*2 = coming (length requests) (network w)).
  { rewrite Hans, Hnet. apply snd_zip. rewrite coming_length. lia. }
  assert (Hurl : forall asset, href (url (asset_request w0 asset)) = location_origin w +:+ asset).
  { intros asset. fold (asset_url w0 asset). now rewrite asset_url_eq, Horigin. }
  assert (Hothers : forall u,
    (forall asset, asset ∈ PRECACHE_ASSETS -> u <> location_origin w +:+ asset) ->
    current_cache (worker
      match all_ok (fetch_each requests w0).1 with
      | Some entries =>
          (Fulfilled tt,
           mkRegistration (put_all CACHE_NAME entries (fetch_each requests w0).2)
             true (clients_claimed r))
      | None =>
          (Rejected (TypeError "Failed to execute 'addAll' on 'Cache': Request failed"),
           mkRegistration (fetch_each requests w0).2 (skipped_waiting r)
             (clients_claimed r))
      end.2) !! u = current_cache w !! u).
  { intros u Hu. destruct (all_ok (fetch_each requests w0).1) as [entries|] eqn:Hall.
    - cbn [snd worker]. unfold current_cache at 1.
      destruct (put_all_current entries _ _ Hfind) as [-> _]. cbn [default].
      apply fold_insert_other. intros entry Hin Heq.
      destruct (all_ok_Some _ _ Hall) as [Hkeys _]. rewrite Hfst in Hkeys.
      assert (Hreq : entry.1 ∈ requests)
        by (rewrite <- Hkeys; apply list_elem_of_fmap; eauto).
      subst requests. apply list_elem_of_fmap in Hreq as (asset & Hasset & Hreq).
      apply (Hu asset Hreq). now rewrite <- Heq, Hasset, Hurl.
    - cbn [snd worker]. unfold current_cache at 1. now rewrite Hfind. }
  split; [|split; [|split; [exact Hothers|split; [|split]]]].
  - intros Hgood.
    destruct (coming_responses (length requests) (network w)) as (rs & Hrs & Hrslen & Hoks).
    { intros i Hi. apply Hgood. lia. }
    assert (Hall : all_ok (fetch_each requests w0).1 = Some (zip requests rs)).
    { rewrite Hans, Hnet, Hrs. now apply all_ok_good. }
    rewrite Hall. cbn [fst snd worker skipped_waiting].
    split; [reflexivity|]. split; [reflexivity|].
    intros i asset resp Hasset Hanswer.
    unfold current_cache at 1.
    destruct (put_all_current (zip requests rs) _ _ Hfind) as [-> _]. cbn [default].
    assert (Hi : (i < length PRECACHE_ASSETS)%nat)
      by (apply lookup_lt_is_Some; eauto).
    assert (Hresp : rs !! i = Some resp).
    { assert (Hc := coming_lookup (length requests) (network w) i ltac:(lia)).
      fold (answer i) in Hc. rewrite Hanswer, Hrs, list_lookup_fmap in Hc.
      destruct (rs !! i); cbn in Hc; congruence. }
    assert (Hentry : zip requests rs !! i = Some (asset_request w0 asset, resp)).
    { apply lookup_zip_with_Some. exists (asset_request w0 asset), resp.
      split; [reflexivity|]. split; [|exact Hresp].
      subst requests. now rewrite list_lookup_fmap, Hasset. }
    rewrite <- Hurl.
    apply (fold_insert_own (zip requests rs) (current_cache w) i
             (asset_request w0 asset, resp)); [|exact Hentry].
    rewrite zip_keys by lia. subst requests. rewrite <- list_fmap_compose.
    apply (asset_urls_distinct w0).
  - intros i Hi Hbad.
    assert (Hall : all_ok (fetch_each requests w0).1 = None).
    { rewrite Hans, Hnet.
      apply (all_ok_bad requests _ i (answer i)); [lia | | exact Hbad].
      apply coming_lookup. lia. }
    rewrite Hall. cbn [fst snd worker skipped_waiting].
    split; [reflexivity|]. split; [reflexivity|].
    unfold current_cache at 1. now rewrite Hfind.
  - apply Hothers. intros asset Hin Heq. apply String.app_inj in Heq. subst asset.
    revert Hin. apply (bool_decide_unpack _). vm_compute. reflexivity.
  - now destruct (all_ok (fetch_each requests w0).1).
  - destruct (all_ok (fetch_each requests w0).1) as [entries|]; cbn [snd worker].
    + destruct (put_all_current entries _ _ Hfind) as (_ & -> & -> & _).
      rewrite Ho1, Hb1. auto.
    + rewrite Ho1, Hb1. auto.
Qed.

(** X3. Installation is all or nothing.  The seven precache requests go
    out in the order of [PRECACHE_ASSETS], each meeting the next answer of
    the network.  When every answer is a response with an ok status
    other than 206, the promise handed to [waitUntil] is fulfilled, [skipWaiting] has been
    called, and the current cache maps [origin + asset] to the response
    that the asset's request received.  When one of the seven answers is
    a rejection or a response with another status, the promise is
    rejected with a TypeError, [skipWaiting] is not called and the
    current cache holds exactly what it held.  In both cases no URL other
    than the seven asset URLs is touched; the offline page
    ['/offline.html'] in particular is never stored by the installation. *)
Theorem install_precaches_all_or_nothing (r : Registration) :
  let w := worker r in
  let run := install r in
  let answer i := nth i (network w) (Rejects (TypeError "Failed to fetch")) in
  ((forall i, (i < length PRECACHE_ASSETS)%nat ->
      exists resp, answer i = Responds resp /\ addable resp = true) ->
   run.1 = Fulfilled tt /\ skipped_waiting run.2 = true /\
   forall i asset resp, PRECACHE_ASSETS !! i = Some asset ->
     answer i = Responds resp ->
     current_cache (worker run.2) !! (location_origin w +:+ asset) = Some resp) /\
  (forall i, (i < length PRECACHE_ASSETS)%nat ->
     (forall resp, answer i = Responds resp -> addable resp = false) ->
     run.1 = Rejected (TypeError "Failed to execute 'addAll' on 'Cache': Request failed") /\
     skipped_waiting run.2 = skipped_waiting r /\
     current_cache (worker run.2) = current_cache w) /\
  (forall u, (forall asset, asset ∈ PRECACHE_ASSETS -> u <> location_origin w +:+ asset) ->
     current_cache (worker run.2) !! u = current_cache w !! u) /\
  current_cache (worker run.2) !! (location_origin w +:+ OFFLINE_URL) =
  current_cache w !! (location_origin w +:+ OFFLINE_URL) /\
  clients_claimed run.2 = clients_claimed r.
Proof.
  intros w run answer.
  destruct (install_outcome r) as (Hgood & Hbad & Hothers & Hoffline & Hclaimed & _).
  auto.
Qed.

(** *** The theorems at concrete inputs *)

Lemma syncAnalytics_stops_at_first_failure_witness :
  let ev i := mkEvent i (JObj [("event", JStr "product_click")]) in
  let ok := Responds (mkResponse 200 [] (Text "")) in
  let w := mkSync [ev 1; ev 2; ev 3] [ok; Rejects (TypeError "Failed to fetch"); ok]
             [] None None [] in
  (syncAnalytics w).1 = Fulfilled tt /\
  pending (syncAnalytics w).2 = [ev 2; ev 3] /\
  posted (syncAnalytics w).2 = [ev 1; ev 2].
Proof.
  intros ev ok w.
  destruct (syncAnalytics_stops_at_first_failure w) as (Hrun & _ & _).
  destruct Hrun as (Hres & _ & Hpending & Hposted);
    [reflexivity | reflexivity | apply (bool_decide_unpack _); vm_compute; reflexivity |].
  split; [exact Hres|]. split; [exact Hpending | exact Hposted].
Defined.

Lemma activate_leaves_current_generation_only_witness :
  let old := ("wasserfilter-v3", {[ "https://example.org/" := Samples.page_response "v3" ]}) in
  let cur := (CACHE_NAME, {[ "https://example.org/" := Samples.page_response "v4" ]}) in
  let r := mkRegistration (mkWorker "https://example.org" [old; cur] [] [] false)
             true false in
  (length (caches (worker (activate r).2)) <= 1)%nat /\
  find_cache "wasserfilter-v3" (caches (worker (activate r).2)) = None.
Proof.
  intros old cur r.
  destruct (activate_leaves_current_generation_only r)
    as (_ & _ & Hgone & _ & _ & Hone & _).
  split.
  - apply Hone. apply (bool_decide_unpack _). vm_compute. reflexivity.
  - apply Hgone. vm_compute. discriminate.
Defined.

Lemma install_precaches_all_or_nothing_witness :
  let page := Samples.page_response "index" in
  let missing := mkResponse 404 [] (Text "Not Found") in
  let fresh net := mkRegistration (mkWorker "https://example.org" [] net [] false)
                     false false in
  let good := install (fresh (repeat (Responds page) 7)) in
  let bad := install (fresh (repeat (Responds page) 4 ++ [Responds missing]
                             ++ repeat (Responds page) 2)) in
  (good.1 = Fulfilled tt /\
   current_cache (worker good.2) !! "https://example.org/manifest.json" = Some page) /\
  (bad.1 = Rejected (TypeError "Failed to execute 'addAll' on 'Cache': Request failed") /\
   skipped_waiting bad.2 = false /\
   current_cache (worker bad.2) = ∅).
Proof.
  intros page missing fresh good bad. split.
  - destruct (install_precaches_all_or_nothing (fresh (repeat (Responds page) 7)))
      as (Hgood & _).
    destruct Hgood as (Hres & _ & Hstored).
    { intros i Hi. exists page.
      do 7 (destruct i as [|i]; [split; reflexivity|]). cbn in Hi. lia. }
    split; [exact Hres|].
    apply (Hstored 5%nat "/manifest.json" page); reflexivity.
  - destruct (install_precaches_all_or_nothing
                (fresh (repeat (Responds page) 4 ++ [Responds missing]
                        ++ repeat (Responds page) 2)))
      as (_ & Hbad & _).
    destruct (Hbad 4%nat) as (Hres & Hskip & Hcache).
    { cbn. lia. }
    { intros resp Hresp. injection Hresp as <-. reflexivity. }
    split; [exact Hres|]. split; [exact Hskip | exact Hcache].
Defined.

End WorkerLifecycleFacts.


(* ===================================================================== *)
(** ** The fetch listener: routing and what gets cached *)

Module ServingFacts.
Import ServiceWorker WorkerLifecycle ServiceWorkerFacts WorkerLifecycleFacts.

(** X4. The listener does not answer a request whose method is not GET.
    A GET request whose path starts with a slash, as the path of every
    http(s) URL does, contains the asset ['/'] of the manifest: it goes to
    [handleApiRequest] when the path contains an API pattern and to
    [handleStaticRequest] otherwise, and never to [handleNetworkFirst]. *)
Theorem rooted_paths_never_reach_network_first (request : Request) (rest : string) :
  (method request <> "GET" -> onfetch request = None) /\
  (method request = "GET" -> pathname (url request) = "/" +:+ rest ->
   route request = (if is_api request then Api else Static) /\
   route request <> NetworkFirst).
Proof.
  split.
  - intros Hmethod. unfold onfetch, route.
    apply String.eqb_neq in Hmethod. now rewrite Hmethod.
  - intros Hget Hpath.
    assert (Hroute : route request = if is_api request then Api else Static).
    { destruct (is_api request) eqn:Hapi.
      - unfold route. rewrite Hget. cbn [String.eqb negb].
        unfold is_api in Hapi. now rewrite Hapi.
      - exact (slash_paths_are_static request rest Hget Hpath Hapi). }
    split; [exact Hroute|]. rewrite Hroute. now destruct (is_api request).
Qed.

Lemma rooted_paths_never_reach_network_first_witness :
  route (Samples.get_request "/news/today" "navigate") = Static /\
  route (Samples.get_request "/v2/api/plz-data/80331" "cors") = Api.
Proof.
  split.
  - destruct (rooted_paths_never_reach_network_first
                (Samples.get_request "/news/today" "navigate") "news/today")
      as [_ Hget].
    destruct Hget as [Hroute _]; [reflexivity | reflexivity | exact Hroute].
  - destruct (rooted_paths_never_reach_network_first
                (Samples.get_request "/v2/api/plz-data/80331" "cors")
                "v2/api/plz-data/80331") as [_ Hget].
    destruct Hget as [Hroute _]; [reflexivity | reflexivity | exact Hroute].
Defined.

(** X5. [handleStaticRequest] on a miss: the request goes to the network
    once and the promise settles as the fetch does, fulfilled with the
    response of any status or rejected with the error of the fetch.  The
    response is not stored: the cache holds what it held, so an asset
    outside the precache list is fetched again on every request. *)
Theorem static_miss_is_fetched_and_not_cached (request : Request) (w : Worker) :
  current_cache w !! href (url request) = None ->
  let run := handleStaticRequest request w in
  (forall r, next_answer w = Responds r -> run.1 = Fulfilled r) /\
  (forall e, next_answer w = Rejects e -> run.1 = Rejected e) /\
  current_cache run.2 = current_cache w /\
  effects run.2 = effects w ++ [Fetched (href (url request))] /\
  current_cache (handleStaticRequest request run.2).2 = current_cache w.
Proof.
  intros Hmiss run.
  destruct (static_miss_fetches request w Hmiss) as (Hrun & Hcache & Heffects).
  fold run in Hrun, Hcache, Heffects.
  assert (H1 : run.1 = match next_answer w with
                       | Rejects e => Rejected e
                       | Responds r => Fulfilled r
                       end).
  { rewrite Hrun, fetch_run. cbn [fst]. now rewrite next_answer_opened. }
  split; [intros r Hr; now rewrite H1, Hr|].
  split; [intros e He; now rewrite H1, He|].
  split; [exact Hcache|]. split; [exact Heffects|].
  destruct (static_miss_fetches request run.2) as (_ & Hagain & _).
  - now rewrite Hcache.
  - now rewrite Hagain.
Qed.

Lemma static_miss_is_fetched_and_not_cached_witness :
  let request := Samples.get_request "/images/banner.png" "no-cors" in
  let image := Samples.page_response "png" in
  let run := handleStaticRequest request (Samples.worker_with ∅ [Responds image]) in
  run.1 = Fulfilled image /\ current_cache run.2 = ∅.
Proof.
  intros request image run.
  destruct (static_miss_is_fetched_and_not_cached request
              (Samples.worker_with ∅ [Responds image]))
    as (Hserved & _ & Hcache & _); [vm_compute; reflexivity|].
  split; [apply Hserved; reflexivity | exact Hcache].
Defined.

(** X6. [handleApiRequest] never rejects, makes exactly one request and
    touches the cache at most under the URL of the request.  A response
    whose status is not 200 is handed to the page as it is, even when the
    cache holds an earlier good response, and it is not stored: the cache
    holds what it held.  A failed fetch leaves the cache as it was too. *)
Theorem api_handler_caches_only_status_200 (request : Request) (w : Worker) :
  let run := handleApiRequest request w in
  (exists r, run.1 = Fulfilled r) /\
  (forall u, u <> href (url request) ->
     current_cache run.2 !! u = current_cache w !! u) /\
  (forall r, next_answer w = Responds r -> status r <> 200 ->
     run.1 = Fulfilled r /\ current_cache run.2 = current_cache w /\
     effects run.2 = effects w ++ [Fetched (href (url request))]) /\
  (forall e, next_answer w = Rejects e ->
     current_cache run.2 = current_cache w /\
     effects run.2 = effects w ++ [Fetched (href (url request))]) /\
  (forall r, next_answer w = Responds r -> status r = 200 ->
     effects run.2 = effects w ++ [Fetched (href (url request));
                                   Put CACHE_NAME (href (url request))]).
Proof.
  intros run. subst run. rewrite handleApiRequest_run. cbn zeta.
  destruct (opened_frame w) as (Hcache & _ & Heffects & _).
  destruct (after_fetch_frame request (opened w)) as (Hc1 & _ & He1).
  rewrite Hcache in Hc1. rewrite Heffects in He1.
  destruct (next_answer w) as [e|r] eqn:Hanswer.
  - cbn [fst snd]. split; [eauto|]. split; [intros; now rewrite Hc1|].
    split; [discriminate|]. split; [auto|]. discriminate.
  - cbn [fst snd]. split; [eauto|].
    destruct (status r =? 200) eqn:H200.
    + split.
      { intros u Hu. rewrite put_after_fetch. now apply lookup_insert_ne. }
      split.
      { intros r' Hr' Hstatus. injection Hr' as <-.
        apply Z.eqb_eq in H200. contradiction. }
      split; [discriminate|]. intros _ _ _.
      unfold cache_put, modify. cbn [snd effects record_effect set_caches].
      rewrite He1. now rewrite <- app_assoc.
    + split; [intros; now rewrite Hc1|].
      split; [intros r' Hr' _; injection Hr' as <-; auto|].
      split; [discriminate|]. intros r' Hr' Hstatus. injection Hr' as <-.
      apply Z.eqb_neq in H200. contradiction.
Qed.

Lemma api_handler_caches_only_status_200_witness :
  let request := Samples.get_request "/api/water-analysis" "cors" in
  let good := Samples.page_response "good" in
  let failure := mkResponse 500 [] (Text "Internal Server Error") in
  let run := handleApiRequest request
               (Samples.worker_with {[ href (url request) := good ]} [Responds failure]) in
  run.1 = Fulfilled failure /\
  current_cache run.2 !! href (url request) = Some good.
Proof.
  intros request good failure run.
  destruct (api_handler_caches_only_status_200 request
              (Samples.worker_with {[ href (url request) := good ]} [Responds failure]))
    as (_ & _ & Hbad & _).
  destruct (Hbad failure) as (Hserved & Hcache & _);
    [reflexivity | vm_compute; discriminate |].
  split; [exact Hserved|]. fold run in Hcache. rewrite Hcache. vm_compute. reflexivity.
Defined.

(** *** Installation, then a request for a precached asset *)

Lemma assets_are_static (i : nat) (asset origin mode : string) :
  PRECACHE_ASSETS !! i = Some asset ->
  route (mkRequest "GET" (mkURL origin asset "") mode) = Static.
Proof.
  intros Hasset.
  do 7 (destruct i as [|i]; [injection Hasset as <-; reflexivity|]).
  discriminate.
Qed.

(** X7. After an installation that succeeded, a GET for one of the
    precached assets is routed to [handleStaticRequest] and finds the
    copy stored by the installation.  In a worker whose global scope has
    no [event] the promise given to [respondWith] is then rejected with a
    ReferenceError, and no request goes to the network: the copy stored
    by the installation is never served.  Where [event] is bound the
    response is that copy, without waiting for the network. *)
Theorem precached_asset_after_install
    (r : Registration) (i : nat) (asset mode : string) (resp : Response) :
  let w := worker r in
  let answer j := nth j (network w) (Rejects (TypeError "Failed to fetch")) in
  (forall j, (j < length PRECACHE_ASSETS)%nat ->
     exists resp, answer j = Responds resp /\ addable resp = true) ->
  PRECACHE_ASSETS !! i = Some asset -> answer i = Responds resp ->
  let installed := worker (install r).2 in
  let request := mkRequest "GET" (mkURL (location_origin w) asset "") mode in
  let run := handleStaticRequest request installed in
  route request = Static /\
  (event_bound w = false ->
   run.1 = Rejected (ReferenceError "event") /\
   effects run.2 = effects installed /\
   current_cache run.2 = current_cache installed) /\
  (event_bound w = true -> run.1 = Fulfilled resp).
Proof.
  intros w answer Hgood Hasset Hanswer installed request run.
  destruct (install_outcome r) as (Hok & _ & _ & _ & _ & Hbound & _).
  destruct (Hok Hgood) as (_ & _ & Hstored).
  specialize (Hstored i asset resp Hasset Hanswer).
  fold w in Hbound, Hstored. fold installed in Hbound, Hstored.
  assert (Hhit : current_cache installed !! href (url request) = Some resp).
  { rewrite <- Hstored. f_equal. unfold request, href. cbn.
    now rewrite append_empty. }
  split; [exact (assets_are_static i asset _ mode Hasset)|]. split.
  - intros Hunbound. rewrite <- Hbound in Hunbound.
    destruct (static_hit_unbound request installed resp Hunbound Hhit)
      as (Hrun & Heffects & Hcache).
    subst run. rewrite Hrun. cbn [fst snd]. auto.
  - intros Hb. rewrite <- Hbound in Hb.
    destruct (static_hit_bound request installed resp Hb Hhit) as [Hrun _].
    exact Hrun.
Qed.

Lemma precached_asset_after_install_witness :
  let page := Samples.page_response "index" in
  let r := mkRegistration
             (mkWorker "https://example.org" [] (repeat (Responds page) 7) [] false)
             false false in
  (handleStaticRequest (Samples.get_request "/index.html" "navigate")
     (worker (install r).2)).1 = Rejected (ReferenceError "event").
Proof.
  intros page r.
  destruct (precached_asset_after_install r 1%nat "/index.html" "navigate" page)
    as (_ & Hunbound & _).
  - intros j Hj. exists page.
    do 7 (destruct j as [|j]; [split; reflexivity|]). cbn in Hj. lia.
  - reflexivity.
  - reflexivity.
  - destruct Hunbound as [Hrun _]; [reflexivity | exact Hrun].
Defined.

(** *** Installation, then activation *)

(** X24. An upgrade of the worker: after an installation that succeeded,
    activation completes, the clients are claimed, every cache of an
    older generation is gone, together with the API responses it held,
    and the current generation holds the seven precached assets as the
    installation stored them; what it held under other URLs is still
    there. *)
Theorem upgrade_keeps_precache_and_drops_old_generations (r : Registration) :
  let w := worker r in
  let answer j := nth j (network w) (Rejects (TypeError "Failed to fetch")) in
  (forall j, (j < length PRECACHE_ASSETS)%nat ->
     exists resp, answer j = Responds resp /\ addable resp = true) ->
  let installed := (install r).2 in
  let activated := (activate installed).2 in
  (activate installed).1 = Fulfilled tt /\
  skipped_waiting activated = true /\ clients_claimed activated = true /\
  (forall i asset resp, PRECACHE_ASSETS !! i = Some asset ->
     answer i = Responds resp ->
     current_cache (worker activated) !! (location_origin w +:+ asset) = Some resp) /\
  (forall name, name <> CACHE_NAME ->
     find_cache name (caches (worker activated)) = None) /\
  (forall u, (forall asset, asset ∈ PRECACHE_ASSETS -> u <> location_origin w +:+ asset) ->
     current_cache (worker activated) !! u = current_cache w !! u).
Proof.
  intros w answer Hgood installed activated.
  destruct (install_outcome r) as (Hok & _ & Hothers & _).
  destruct (Hok Hgood) as (_ & Hskip & Hstored).
  fold w in Hothers, Hstored. fold installed in Hskip, Hothers, Hstored.
  destruct (activate_caches installed) as (Hres & Hcaches & Hclaimed & Hkept & _).
  fold activated in Hcaches, Hclaimed, Hkept.
  assert (Hsame : current_cache (worker activated) = current_cache (worker installed)).
  { unfold current_cache. now rewrite Hcaches, find_cache_only. }
  split; [exact Hres|]. split; [now rewrite Hkept|]. split; [exact Hclaimed|].
  split; [intros i asset resp Hasset Hanswer; rewrite Hsame; eauto|].
  split; [|intros u Hu; rewrite Hsame; auto].
  intros name Hname. rewrite Hcaches. now apply find_cache_other.
Qed.

Lemma upgrade_keeps_precache_and_drops_old_generations_witness :
  let page := Samples.page_response "index" in
  let old := ("wasserfilter-v3",
              {[ "https://example.org/api/plz-data" := Samples.page_response "cached" ]}) in
  let r := mkRegistration
             (mkWorker "https://example.org" [old] (repeat (Responds page) 7) [] false)
             false false in
  let upgraded := worker (activate (install r).2).2 in
  current_cache upgraded !! "https://example.org/index.html" = Some page /\
  find_cache "wasserfilter-v3" (caches upgraded) = None.
Proof.
  intros page old r upgraded.
  destruct (upgrade_keeps_precache_and_drops_old_generations r)
    as (_ & _ & _ & Hassets & Hold & _).
  - intros j Hj. exists page.
    do 7 (destruct j as [|j]; [split; reflexivity|]). cbn in Hj. lia.
  - split.
    + apply (Hassets 1%nat "/index.html" page); reflexivity.
    + apply Hold. vm_compute. discriminate.
Defined.

End ServingFacts.


(* ===================================================================== *)
(** ** The data fetcher: retries, failures and the offline store *)

Module RetryFacts.
Import DataFetcher FetchWithRetryFacts.

Lemma retry_loop_first_success url init retries :
  forall j todo i w v,
  (j < todo)%nat -> (i + j < retries)%nat ->
  (forall k, (k < j)%nat ->
     exists e, verdict (nth k (network w) unreachable) = inl e) ->
  verdict (nth j (network w) unreachable) = inr v ->
  (retry_loop url init retries todo i w).1 = Fulfilled v /\
  effects (retry_loop url init retries todo i w).2 =
  effects w ++ schedule url init (S j) i /\
  network (retry_loop url init retries todo i w).2 = drop (S j) (network w).
Proof.
  induction j as [|j IH]; intros todo i w v Htodo Hi Hfail Hv;
    (destruct todo as [|todo]; [lia|]).
  - rewrite <- hd_nth in Hv. rewrite (retry_loop_success _ _ _ _ _ _ v Hv).
    cbn [fst snd]. rewrite network_after_fetch.
    split; [reflexivity|]. split; [reflexivity|]. now destruct (network w).
  - destruct (Hfail O) as [e He]; [lia|]. rewrite <- hd_nth in He.
    rewrite (retry_loop_again _ _ _ _ _ _ e He) by lia.
    set (w1 := after_sleep (1000 * 2 ^ Z.of_nat i) (after_fetch url init w)).
    assert (Hnet : network w1 = tl (network w)) by reflexivity.
    destruct (IH todo (S i) w1 v) as (Hres & Heff & Hrest); [lia | lia | | |].
    + intros k Hk. rewrite Hnet, nth_tl. apply Hfail. lia.
    + now rewrite Hnet, nth_tl.
    + rewrite Hres, Heff, Hrest, Hnet. split; [reflexivity|]. split.
      * rewrite (schedule_step url init (S j)) by lia.
        subst w1. cbn [after_sleep record_effect set_effects set_clock effects].
        rewrite effects_after_fetch, <- !app_assoc. reflexivity.
      * now destruct (network w).
Qed.

(** X8. [fetchWithRetry] stops at the first attempt that succeeds.  When
    the attempts before attempt [j] fail (a rejected fetch, a timeout
    after 8000 ms, a status that is not ok, a body that is not JSON) and
    attempt [j] succeeds, with [j] below the number of attempts allowed,
    the promise is fulfilled with the JSON of attempt [j]; exactly
    [j + 1] requests were made, with the waits of 1000 * 2^i ms between
    them, and the answers of the network after attempt [j] are not
    consumed.  With zero attempts allowed the loop does not run: the
    promise is fulfilled with [undefined] and no request is made. *)
Theorem fetchWithRetry_stops_at_first_success
    (url : string) (init : RequestInit) (retries : option nat) (w : World) :
  let n := default 3%nat retries in
  let run := fetchWithRetry url init retries w in
  (n = O -> run = (Fulfilled JUndefined, w)) /\
  (forall j v, (j < n)%nat ->
     (forall k, (k < j)%nat ->
        exists e, verdict (nth k (network w) unreachable) = inl e) ->
     verdict (nth j (network w) unreachable) = inr v ->
     run.1 = Fulfilled v /\
     effects run.2 = effects w ++ schedule url init (S j) 0 /\
     fetch_count (schedule url init (S j) 0) = S j /\
     network run.2 = drop (S j) (network w)).
Proof.
  intros n run. subst run. unfold fetchWithRetry. fold n. split.
  - intros ->. reflexivity.
  - intros j v Hj Hfail Hv.
    destruct (retry_loop_first_success url init n j n O w v) as (Hres & Heff & Hnet);
      [lia | lia | exact Hfail | exact Hv |].
    rewrite fetch_count_schedule. auto.
Qed.

Lemma fetchWithRetry_stops_at_first_success_witness :
  let w := set_network [Samples.fails_to_fetch; Samples.answers 120 Samples.sample_payload;
                        Samples.fails_to_fetch] (Samples.page_at 0) in
  let run := fetchWithRetry "/api/water-analysis" (analysis_request "10115") None w in
  run.1 = Fulfilled Samples.sample_payload /\
  network run.2 = [Samples.fails_to_fetch].
Proof.
  intros w run.
  destruct (fetchWithRetry_stops_at_first_success
              "/api/water-analysis" (analysis_request "10115") None w) as [_ Hfirst].
  destruct (Hfirst 1%nat Samples.sample_payload) as (Hres & _ & _ & Hnet).
  - cbn. lia.
  - intros k Hk. assert (k = O) by lia. subst k. eexists. vm_compute. reflexivity.
  - vm_compute. reflexivity.
  - split; [exact Hres | exact Hnet].
Defined.

End RetryFacts.


Module FailureFacts.
Import DataFetcher FetchWithRetryFacts AnalysisFacts.

(** A text without the letter F does not contain 'Failed to fetch'. *)
Lemma includes_needs_F (s : string) :
  ~ In "F"%char (list_ascii_of_string s) ->
  includes s "Failed to fetch" = false.
Proof.
  induction s as [|c s IH]; intros Hno; [reflexivity|].
  cbn [includes]. rewrite IH by (intros Hin; apply Hno; now right).
  rewrite orb_false_r. cbn [String.prefix].
  destruct (ascii_dec "F" c) as [<-|Hne]; [|reflexivity].
  exfalso. apply Hno. now left.
Qed.

Lemma pretty_N_go_lacks_F (x : N) :
  forall s, ~ In "F"%char (list_ascii_of_string s) ->
  ~ In "F"%char (list_ascii_of_string (pretty_N_go x s)).
Proof.
  induction (N.lt_wf_0 x) as [x _ IH]. intros s Hs.
  assert (x = 0 \/ 0 < x)%N as [->|Hpos] by lia.
  - now rewrite pretty_N_go_0.
  - rewrite pretty_N_go_step by exact Hpos.
    apply IH; [now apply N.div_lt|].
    cbn [list_ascii_of_string]. intros [Hc|Hin]; [|now apply Hs].
    revert Hc. unfold pretty_N_char. repeat case_match; discriminate.
Qed.

Lemma pretty_Z_lacks_F (n : Z) :
  ~ In "F"%char (list_ascii_of_string (pretty n)).
Proof.
  assert (Hpos : forall p : positive,
            ~ In "F"%char (list_ascii_of_string (pretty p))).
  { intros p. unfold pretty, pretty_positive, pretty, pretty_N.
    destruct (decide (N.pos p = 0%N)); [discriminate|].
    apply pretty_N_go_lacks_F. cbn. tauto. }
  destruct n as [|p|p]; unfold pretty, pretty_Z.
  - cbn. intros [H|[]]. discriminate.
  - apply Hpos.
  - change ("-" +:+ pretty p) with (String "-" (pretty p)).
    cbn [list_ascii_of_string]. intros [H|Hin]; [discriminate | now apply (Hpos p)].
Qed.

(** The message of the error thrown for a status that is not ok never
    asks for the fallback. *)
Lemma http_error_is_rethrown (n : Z) :
  includes (message (Error ("HTTP " +:+ pretty n))) "Failed to fetch" = false.
Proof.
  apply includes_needs_F. cbn [message Error].
  change ("HTTP " +:+ pretty n)
    with (String "H" (String "T" (String "T" (String "P" (String " " (pretty n)))))).
  cbn [list_ascii_of_string].
  intros [H|[H|[H|[H|[H|Hin]]]]]; try discriminate.
  now apply (pretty_Z_lacks_F n).
Qed.

(** X9. What [fetchWaterAnalysis] does when all three attempts of step 3
    fail.  Nothing is written: the memory cache and the offline store
    hold what they held.  The error of the third attempt decides the
    result.  A third attempt that times out ends the call with the abort
    error, and one that is answered with a status that is not ok ends it
    with [Error('HTTP <status>')]: neither is replaced by fallback data.
    A third attempt whose fetch is rejected gives the fallback data when
    the message of the rejection contains 'Failed to fetch', and the
    rejection itself otherwise. *)
Theorem failed_fetch_falls_back_only_on_fetch_failure
    (plz : string) (force : bool) (w : World) :
  let key := "analysis_" +:+ plz in
  let run := fetchWaterAnalysis plz force w in
  let last := nth 2 (network w) unreachable in
  memory_hit key force w = None -> onLine w = true ->
  (forall j, (j < 3)%nat ->
     exists e, verdict (nth j (network w) unreachable) = inl e) ->
  cache run.2 = cache w /\ indexedDB run.2 = indexedDB w /\
  effects run.2 = effects w ++ schedule (analysis_url w) (analysis_request plz) 3 0 /\
  (8000 <= latency last -> run.1 = Rejected AbortError) /\
  (forall r, latency last < 8000 -> outcome last = Responds r -> ok r = false ->
     run.1 = Rejected (Error ("HTTP " +:+ pretty (status r)))) /\
  (forall e, latency last < 8000 -> outcome last = Rejects e ->
     includes (message e) "Failed to fetch" = true ->
     run.1 = (getFallbackData plz w).1 /\
     exists v, run.1 = Fulfilled v /\ source_of v = Some (JStr "fallback_data")) /\
  (forall e, latency last < 8000 -> outcome last = Rejects e ->
     includes (message e) "Failed to fetch" = false ->
     run.1 = Rejected e).
Proof.
  intros key run last Hmiss Hon Hfail. subst run.
  rewrite fetchWaterAnalysis_online by assumption.
  pose proof (fetchWithRetry_frame (analysis_url w) (analysis_request plz) None w)
    as Hframe.
  destruct (retry_loop_exhausted (analysis_url w) (analysis_request plz) 3 3 O w)
    as (e & He & Hres & Heff); [lia | lia | exact Hfail |].
  change (3 - 1)%nat with 2%nat in He. fold last in He.
  unfold fetchWithRetry in *. cbn [default] in *.
  destruct (retry_loop (analysis_url w) (analysis_request plz) 3 3 0 w)
    as [[d|e'|] wa]; cbn [fst snd] in *; try discriminate.
  injection Hres as ->.
  destruct Hframe as (Hcache & _ & Hdb & _).
  destruct (recover_frame plz e wa) as [Hworld _].
  rewrite Hworld, Hcache, Hdb, Heff.
  split; [reflexivity|]. split; [reflexivity|]. split; [reflexivity|].
  unfold verdict in He. repeat apply conj.
  - intros Hslow. apply Z.ltb_ge in Hslow. rewrite Hslow in He.
    injection He as <-. reflexivity.
  - intros r Hfast Hout Hbad. apply Z.ltb_lt in Hfast.
    rewrite Hfast, Hout, Hbad in He. injection He as <-.
    unfold recover. now rewrite http_error_is_rethrown.
  - intros e0 Hfast Hout Hinc. apply Z.ltb_lt in Hfast.
    rewrite Hfast, Hout in He. injection He as <-.
    unfold recover. rewrite Hinc. split; [reflexivity|].
    destruct (getFallbackData_run plz wa) as (v & -> & Hv). eauto.
  - intros e0 Hfast Hout Hinc. apply Z.ltb_lt in Hfast.
    rewrite Hfast, Hout in He. injection He as <-.
    unfold recover. now rewrite Hinc.
Qed.

Lemma failed_fetch_falls_back_only_on_fetch_failure_witness :
  let down := mkAttempt 40 (Responds (mkResponse 503 (inr JNull))) in
  let w := set_network [down; down; down] (Samples.page_at 0) in
  (fetchWaterAnalysis "10115" false w).1 = Rejected (Error "HTTP 503") /\
  cache (fetchWaterAnalysis "10115" false w).2 = ∅.
Proof.
  intros down w.
  destruct (failed_fetch_falls_back_only_on_fetch_failure "10115" false w)
    as (Hcache & _ & _ & _ & Hhttp & _).
  - reflexivity.
  - reflexivity.
  - intros j Hj. exists (Error "HTTP 503").
    do 3 (destruct j as [|j]; [vm_compute; reflexivity|]). lia.
  - split; [|exact Hcache].
    apply (Hhttp (mkResponse 503 (inr JNull))); [cbn; lia | reflexivity | reflexivity].
Defined.

End FailureFacts.


Module OfflineStoreMoreFacts.
Import DataFetcher FetchWithRetryFacts OfflineStoreFacts AnalysisFacts.

(** Both operations on a database that lacks the object store: neither
    promise settles and the database stays as it is. *)
Lemma store_missing_stays plz data w dbs db :
  indexedDB w = Some dbs -> dbs !! offlineStorage w = Some db ->
  db !! "analysis" = None ->
  (forall e, hd NoFault (idb_faults w) <> OpenFails e) ->
  (saveOfflineData plz data w).1 = Pending /\
  indexedDB (saveOfflineData plz data w).2 = indexedDB w /\
  (getOfflineData plz w).1 = Pending /\
  indexedDB (getOfflineData plz w).2 = indexedDB w.
Proof.
  intros Hdbs Hdb Hstore Hopen.
  unfold saveOfflineData, getOfflineData, open_database. rewrite Hdbs, Hdb, Hstore.
  destruct (hd NoFault (idb_faults w)) as [|e|e|e];
    try (exfalso; exact (Hopen e eq_refl)); repeat split.
Qed.

(** X10. A read that comes before the first write disables the offline
    store.  [getOfflineData] on a page whose database does not exist yet
    creates it, and as it registers no upgrade handler the database is
    left without the object store 'analysis'; the promise of that read
    never settles.  From then on, on every page over those databases,
    neither [saveOfflineData] nor [getOfflineData] ever settles, for any
    key, and both leave the databases as they are, so the state does not
    heal; a call of [fetchWaterAnalysis] whose fetch succeeds writes the
    memory cache and then never returns. *)
Theorem read_before_first_write_disables_offline_store
    (plz : string) (w : World)
    (dbs : gmap string (gmap string (gmap string OfflineRecord))) :
  indexedDB w = Some dbs -> dbs !! offlineStorage w = None ->
  (forall e, hd NoFault (idb_faults w) <> OpenFails e) ->
  let read := getOfflineData plz w in
  read.1 = Pending /\
  forall (w2 : World) (plz2 : string),
    indexedDB w2 = indexedDB read.2 -> offlineStorage w2 = offlineStorage w ->
    (forall e, hd NoFault (idb_faults w2) <> OpenFails e) ->
    (forall data,
       (saveOfflineData plz2 data w2).1 = Pending /\
       indexedDB (saveOfflineData plz2 data w2).2 = indexedDB w2) /\
    (getOfflineData plz2 w2).1 = Pending /\
    indexedDB (getOfflineData plz2 w2).2 = indexedDB w2 /\
    (forall force data wa,
       memory_hit ("analysis_" +:+ plz2) force w2 = None -> onLine w2 = true ->
       fetchWithRetry (analysis_url w2) (analysis_request plz2) None w2
       = (Fulfilled data, wa) ->
       let run := fetchWaterAnalysis plz2 force w2 in
       run.1 = Pending /\
       cache run.2 !! ("analysis_" +:+ plz2) = Some (mkEntry data (clock wa))).
Proof.
  intros Hdbs Hnone Hopen read.
  assert (Hread : read.1 = Pending /\
                  indexedDB read.2 = Some (<[offlineStorage w := ∅]> dbs)).
  { subst read. unfold getOfflineData, open_database. rewrite Hdbs, Hnone.
    cbn [id]. rewrite lookup_empty.
    destruct (hd NoFault (idb_faults w)) as [|e|e|e];
      try (exfalso; exact (Hopen e eq_refl)); split; reflexivity. }
  destruct Hread as [Hpending Hafter]. split; [exact Hpending|].
  intros w2 plz2 Hdb2 Hname2 Hopen2. rewrite Hafter in Hdb2.
  assert (Hbroken : forall w3 : World,
            indexedDB w3 = indexedDB w2 -> offlineStorage w3 = offlineStorage w2 ->
            idb_faults w3 = idb_faults w2 ->
            forall data,
            (saveOfflineData plz2 data w3).1 = Pending /\
            indexedDB (saveOfflineData plz2 data w3).2 = indexedDB w3 /\
            (getOfflineData plz2 w3).1 = Pending /\
            indexedDB (getOfflineData plz2 w3).2 = indexedDB w3).
  { intros w3 Hdb3 Hname3 Hf3 data.
    apply (store_missing_stays plz2 data w3 (<[offlineStorage w := ∅]> dbs) ∅).
    - now rewrite Hdb3.
    - rewrite Hname3, Hname2. apply lookup_insert_eq.
    - apply lookup_empty.
    - now rewrite Hf3. }
  split; [|split; [|split]].
  - intros data. destruct (Hbroken w2 eq_refl eq_refl eq_refl data) as (? & ? & _).
    auto.
  - now destruct (Hbroken w2 eq_refl eq_refl eq_refl JNull) as (_ & _ & ? & _).
  - now destruct (Hbroken w2 eq_refl eq_refl eq_refl JNull) as (_ & _ & _ & ?).
  - intros force data wa Hmiss Hon Hfetch run. subst run.
    rewrite fetchWaterAnalysis_online by assumption. rewrite Hfetch. cbn zeta.
    pose proof (fetchWithRetry_frame (analysis_url w2) (analysis_request plz2) None w2)
      as Hframe. rewrite Hfetch in Hframe. cbn [snd] in Hframe.
    destruct Hframe as (_ & _ & Hdbf & Hff & Hnf & _).
    set (wb := set_cache _ wa).
    destruct (Hbroken wb Hdbf Hnf Hff data) as (Hsave & _).
    destruct (saveOfflineData_frame plz2 data wb) as (_ & Hcache & _).
    destruct (saveOfflineData plz2 data wb) as [[[]|e|] wc]; cbn [fst] in Hsave;
      try discriminate.
    cbn [fst snd] in *. split; [reflexivity|].
    rewrite Hcache. subst wb. cbn [cache set_cache]. apply lookup_insert_eq.
Qed.

Lemma read_before_first_write_disables_offline_store_witness :
  let first := getOfflineData "10115" (set_onLine false (Samples.page_at 0)) in
  let later := set_network [Samples.answers 120 Samples.sample_payload]
                 (set_onLine true first.2) in
  first.1 = Pending /\
  (fetchWaterAnalysis "80331" false later).1 = Pending.
Proof.
  intros first later.
  destruct (read_before_first_write_disables_offline_store
              "10115" (set_onLine false (Samples.page_at 0)) ∅)
    as [Hfirst Hlater]; [reflexivity | reflexivity | vm_compute; discriminate |].
  split; [exact Hfirst|].
  destruct (Hlater later "80331") as (_ & _ & _ & Hcall);
    [reflexivity | reflexivity | vm_compute; discriminate |].
  destruct (Hcall false Samples.sample_payload
              (fetchWithRetry (analysis_url later) (analysis_request "80331") None later).2)
    as [Hrun _]; [reflexivity | reflexivity | vm_compute; reflexivity | exact Hrun].
Defined.

(** *** What the two operations leave alone *)

Lemma stored_record_at w dbs db store key :
  indexedDB w = Some dbs -> dbs !! offlineStorage w = Some db ->
  db !! "analysis" = Some store ->
  stored_record w key = store !! key.
Proof.
  intros Hdbs Hdb Hstore. unfold stored_record.
  rewrite Hdbs. cbn [mbind option_bind]. rewrite Hdb. cbn [mbind option_bind].
  rewrite Hstore. reflexivity.
Qed.

Lemma stored_record_no_database w dbs key :
  indexedDB w = Some dbs -> dbs !! offlineStorage w = None ->
  stored_record w key = None.
Proof.
  intros Hdbs Hdb. unfold stored_record.
  rewrite Hdbs. cbn [mbind option_bind]. rewrite Hdb. reflexivity.
Qed.

Lemma stored_record_no_store w dbs db key :
  indexedDB w = Some dbs -> dbs !! offlineStorage w = Some db ->
  db !! "analysis" = None ->
  stored_record w key = None.
Proof.
  intros Hdbs Hdb Hstore. unfold stored_record.
  rewrite Hdbs. cbn [mbind option_bind]. rewrite Hdb. cbn [mbind option_bind].
  rewrite Hstore. reflexivity.
Qed.

Lemma stored_record_set w dbs f db store key :
  dbs !! offlineStorage w = Some db -> db !! "analysis" = Some store ->
  stored_record (set_indexedDB (Some dbs) (set_idb_faults f w)) key = store !! key.
Proof.
  intros Hdb Hstore.
  apply (stored_record_at (set_indexedDB (Some dbs) (set_idb_faults f w)) dbs db store);
    [reflexivity | exact Hdb | exact Hstore].
Qed.

(** [getOfflineData] changes no record. *)
Lemma getOfflineData_records plz w key :
  stored_record (getOfflineData plz w).2 key = stored_record w key /\
  offlineStorage (getOfflineData plz w).2 = offlineStorage w.
Proof.
  unfold getOfflineData, open_database.
  destruct (indexedDB w) as [dbs|] eqn:Hdbs; [|auto].
  destruct (dbs !! offlineStorage w) as [db|] eqn:Hdb.
  - assert (Hsame : forall f, stored_record (set_indexedDB (Some dbs) (set_idb_faults f w)) key
                              = stored_record w key).
    { intros f. unfold stored_record. cbn. now rewrite Hdbs. }
    destruct (hd NoFault (idb_faults w)); [| split; [unfold stored_record; cbn; now rewrite Hdbs | reflexivity] | |];
      destruct (db !! "analysis") as [store|]; try (split; [apply Hsame | reflexivity]).
    destruct (store !! plz) as [r|]; [|split; [apply Hsame | reflexivity]].
    destruct (_ <? _); (split; [apply Hsame | reflexivity]).
  - rewrite (stored_record_no_database w dbs key Hdbs Hdb).
    assert (Hnew : forall f,
              stored_record (set_indexedDB (Some (<[offlineStorage w := id ∅]> dbs))
                               (set_idb_faults f w)) key = None).
    { intros f. apply (stored_record_no_store _ (<[offlineStorage w := id ∅]> dbs) ∅).
      - reflexivity.
      - apply lookup_insert_eq.
      - apply lookup_empty. }
    cbn [id]. rewrite lookup_empty.
    destruct (hd NoFault (idb_faults w));
      [| split; [apply (stored_record_no_database _ dbs); [exact Hdbs | exact Hdb]
                | reflexivity] | |];
      (split; [apply Hnew | reflexivity]).
Qed.

(** [saveOfflineData] changes at most the record of its key, and changes
    none when its promise is not fulfilled. *)
Lemma saveOfflineData_records plz data w key :
  (key <> plz \/ (saveOfflineData plz data w).1 <> Fulfilled tt) ->
  stored_record (saveOfflineData plz data w).2 key = stored_record w key.
Proof.
  unfold saveOfflineData, open_database.
  destruct (indexedDB w) as [dbs|] eqn:Hdbs; [|auto].
  set (name := offlineStorage w).
  assert (Hopen : forall f, stored_record (set_idb_faults f w) key = stored_record w key)
    by reflexivity.
  destruct (dbs !! name) as [db|] eqn:Hdb.
  - assert (Hsame : forall f, stored_record (set_indexedDB (Some dbs) (set_idb_faults f w)) key
                              = stored_record w key).
    { intros f. unfold stored_record. cbn. now rewrite Hdbs. }
    destruct (db !! "analysis") as [store|] eqn:Hstore;
      [|destruct (hd NoFault (idb_faults w)); intros _; cbn [snd];
        solve [apply Hsame | apply Hopen]].
    destruct (hd NoFault (idb_faults w)); intros Hkey; cbn [fst snd] in *;
      try solve [apply Hsame | apply Hopen].
    destruct Hkey as [Hkey|Hkey]; [|now contradiction Hkey].
    rewrite (stored_record_at w dbs db store key Hdbs Hdb Hstore).
    rewrite (stored_record_set w _ _ _ (<[plz := mkRecord plz data (clock w)]> store) key
               (lookup_insert_eq _ _ _) (lookup_insert_eq _ _ _)).
    now apply lookup_insert_ne.
  - rewrite (stored_record_no_database w dbs key Hdbs Hdb).
    unfold create_analysis. rewrite lookup_empty, lookup_insert_eq.
    assert (Hnew : forall f,
              stored_record
                (set_indexedDB (Some (<[name := <["analysis" := ∅]> ∅]> dbs))
                   (set_idb_faults f w)) key = None).
    { intros f.
      rewrite (stored_record_set w _ _ _ ∅ key (lookup_insert_eq _ _ _)
                 (lookup_insert_eq _ _ _)).
      apply lookup_empty. }
    destruct (hd NoFault (idb_faults w)); intros Hkey; cbn [fst snd] in *;
      [| apply (stored_record_no_database _ dbs); [exact Hdbs | exact Hdb]
       | apply Hnew | apply Hnew].
    destruct Hkey as [Hkey|Hkey]; [|now contradiction Hkey].
    rewrite (stored_record_set w _ _ _ (<[plz := mkRecord plz data (clock w)]> ∅) key
               (lookup_insert_eq _ _ _) (lookup_insert_eq _ _ _)).
    rewrite lookup_insert_ne by auto. apply lookup_empty.
Qed.

(** X11. What the operations on the offline store change.  A write that
    is fulfilled with IndexedDB present leaves, for its key, the record
    of the data stamped with the time of the write, replacing any earlier
    record of that key, so that a rewrite restarts the seven days.  A
    write never changes the record of another key, and a write that is
    rejected or never settles changes no record at all.  A read changes
    no record: a record that has passed seven days is not served and is
    not removed either. *)
Theorem offline_store_write_replaces_only_its_key
    (plz : string) (data : JsVal) (w : World) :
  let write := saveOfflineData plz data w in
  (indexedDB w <> None -> write.1 = Fulfilled tt ->
   stored_record write.2 plz = Some (mkRecord plz data (clock w)) /\
   forall w2, indexedDB w2 = indexedDB write.2 ->
     offlineStorage w2 = offlineStorage w ->
     hd NoFault (idb_faults w2) = NoFault ->
     (getOfflineData plz w2).1
     = Fulfilled (if clock w2 - clock w <? seven_days then data else JNull)) /\
  (forall key, key <> plz -> stored_record write.2 key = stored_record w key) /\
  (write.1 <> Fulfilled tt ->
   forall key, stored_record write.2 key = stored_record w key) /\
  (forall key, stored_record (getOfflineData plz w).2 key = stored_record w key).
Proof.
  intros write. subst write. split; [|split; [|split]].
  - intros Hsup Hok.
    destruct (saveOfflineData plz data w) as [res w1] eqn:Hrun.
    cbn [fst snd] in *. subst res.
    destruct (saveOfflineData_stored plz data w w1 Hsup Hrun)
      as (Hrec & Hstore & Hname & _).
    split; [exact Hrec|]. intros w2 Hdb2 Hname2 Hfault.
    rewrite <- Hname in Hname2.
    destruct (stored_record_same w1 w2 plz Hdb2 Hname2) as [Hrec2 Hstore2].
    rewrite getOfflineData_read by auto.
    rewrite Hrec2, Hrec. cbn [rec_timestamp rec_data fst].
    now destruct (clock w2 - clock w <? seven_days).
  - intros key Hkey. apply saveOfflineData_records. now left.
  - intros Hfailed key. apply saveOfflineData_records. now right.
  - intros key. apply getOfflineData_records.
Qed.

Lemma offline_store_write_replaces_only_its_key_witness :
  let first := (saveOfflineData "10115" (JStr "old") (Samples.page_at 0)).2 in
  let second := saveOfflineData "10115" (JStr "new") (set_clock 500 first) in
  stored_record second.2 "10115" = Some (mkRecord "10115" (JStr "new") 500).
Proof.
  intros first second.
  destruct (offline_store_write_replaces_only_its_key
              "10115" (JStr "new") (set_clock 500 first)) as [Hwrite _].
  destruct Hwrite as [Hrec _];
    [vm_compute; discriminate | vm_compute; reflexivity | exact Hrec].
Defined.

(** X13. A call of [fetchWaterAnalysis] touches the memory cache and the
    offline store under its own key only, whatever path it takes and
    however it ends: every other cache entry and every other offline
    record is what it was, and no entry of the memory cache is ever
    removed by a call. *)
Theorem fetchWaterAnalysis_touches_only_its_key
    (plz : string) (force : bool) (w : World) :
  let run := fetchWaterAnalysis plz force w in
  (forall k, k <> "analysis_" +:+ plz -> cache run.2 !! k = cache w !! k) /\
  (forall k, is_Some (cache w !! k) -> is_Some (cache run.2 !! k)) /\
  (forall other, other <> plz -> stored_record run.2 other = stored_record w other) /\
  cacheDuration run.2 = cacheDuration w.
Proof.
  intros run. subst run.
  destruct (memory_hit ("analysis_" +:+ plz) force w) as [cached|] eqn:Hhit.
  { rewrite (fetchWaterAnalysis_memory _ _ _ cached) by assumption. auto. }
  destruct (onLine w) eqn:Hon.
  - rewrite fetchWaterAnalysis_online by assumption.
    pose proof (fetchWithRetry_frame (analysis_url w) (analysis_request plz) None w)
      as Hframe.
    destruct (fetchWithRetry _ _ None w) as [[d|e|] wa]; cbn [snd] in Hframe;
      destruct Hframe as (Hcache & Hdur & Hdb & _ & Hname & _).
    + cbn zeta. set (wb := set_cache _ wa).
      assert (Hwb : (forall k, k <> "analysis_" +:+ plz -> cache wb !! k = cache w !! k) /\
                    (forall k, is_Some (cache w !! k) -> is_Some (cache wb !! k)) /\
                    (forall other, stored_record wb other = stored_record w other) /\
                    cacheDuration wb = cacheDuration w).
      { subst wb. cbn [cache set_cache cacheDuration]. rewrite Hcache.
        split; [intros k Hk; now apply lookup_insert_ne|].
        split.
        { intros k Hk. destruct (decide (k = "analysis_" +:+ plz)) as [->|Hne].
          - rewrite lookup_insert_eq. eauto.
          - now rewrite lookup_insert_ne. }
        split; [|exact Hdur].
        intros other. now apply (stored_record_same w wa other). }
      destruct Hwb as (Hk & Hsome & Hrec & Hd).
      destruct (saveOfflineData_frame plz d wb) as (_ & Hc1 & Hd1 & _).
      assert (Hsaved : forall other, other <> plz ->
                stored_record (saveOfflineData plz d wb).2 other = stored_record w other).
      { intros other Hne. rewrite <- Hrec. apply saveOfflineData_records. now left. }
      destruct (saveOfflineData plz d wb) as [[[]|e|] wc]; cbn [snd] in *.
      * destruct (node_env wc); cbn [snd]; rewrite Hc1, Hd1; auto.
      * destruct (recover_frame plz e wc) as [-> _]. rewrite Hc1, Hd1. auto.
      * rewrite Hc1, Hd1. auto.
    + destruct (recover_frame plz e wa) as [-> _]. rewrite Hcache, Hdur.
      split; [auto|]. split; [auto|]. split; [|reflexivity].
      intros other _. now apply (stored_record_same w wa other).
    + cbn [snd]. rewrite Hcache, Hdur.
      split; [auto|]. split; [auto|]. split; [|reflexivity].
      intros other _. now apply (stored_record_same w wa other).
  - rewrite fetchWaterAnalysis_offline by assumption.
    destruct (getOfflineData_frame plz w) as (_ & Hc & Hd).
    assert (Hrec : forall other,
              stored_record (getOfflineData plz w).2 other = stored_record w other)
      by (intros other; apply getOfflineData_records).
    destruct (getOfflineData plz w) as [[d|e|] w']; cbn [snd] in *;
      [destruct (truthy d)| |]; cbn [snd]; rewrite Hc, Hd; auto.
Qed.

Lemma fetchWaterAnalysis_touches_only_its_key_witness :
  let w := set_network [Samples.answers 120 Samples.sample_payload]
             (Samples.page_with_entry 0 1000) in
  cache (fetchWaterAnalysis "80331" false w).2 !! "analysis_10115"
  = Some (mkEntry Samples.sample_payload 0).
Proof.
  intros w.
  destruct (fetchWaterAnalysis_touches_only_its_key "80331" false w) as (Hother & _).
  rewrite Hother; [vm_compute; reflexivity | vm_compute; discriminate].
Defined.

(** *** A page without [process] *)

(** X23. In a page where the identifier [process] is not bound, a call
    of [fetchWaterAnalysis] whose fetch succeeds and whose write to the
    offline store goes through still fails: [logAnalytics] reads
    [process.env.NODE_ENV], the ReferenceError is caught by the [catch]
    of step 3 and rethrown, and the caller does not get the payload.  By
    then the payload is in the memory cache and, with IndexedDB present,
    in the offline store, so a second call without [forceRefresh] within
    the TTL returns it tagged 'memory_cache' without any request. *)
Theorem success_is_rejected_where_process_is_unbound
    (plz : string) (force : bool) (w wa : World) (data : JsVal) :
  let key := "analysis_" +:+ plz in
  let run := fetchWaterAnalysis plz force w in
  memory_hit key force w = None -> onLine w = true ->
  fetchWithRetry (analysis_url w) (analysis_request plz) None w = (Fulfilled data, wa) ->
  store_intact w -> write_fault w = None -> node_env w = None ->
  run.1 = Rejected (ReferenceError "process") /\
  cache run.2 !! key = Some (mkEntry data (clock wa)) /\
  (indexedDB w <> None ->
   stored_record run.2 plz = Some (mkRecord plz data (clock wa))) /\
  (forall w2, cache w2 = cache run.2 -> cacheDuration w2 = cacheDuration w ->
     clock w2 - clock wa < cacheDuration w2 ->
     fetchWaterAnalysis plz false w2 = (Fulfilled (from_memory data), w2)).
Proof.
  intros key run Hmiss Hon Hfetch Hintact Hclean Hnode.
  pose proof (fetchWithRetry_frame (analysis_url w) (analysis_request plz) None w)
    as Hframe. rewrite Hfetch in Hframe. cbn [snd] in Hframe.
  destruct (cached_world_storage plz data w wa Hframe)
    as (Hfault & Hint & Hdb & Henv & Hclock).
  fold key in Hfault, Hint, Hdb, Henv, Hclock.
  set (wb := set_cache (<[key := mkEntry data (clock wa)]> (cache wa)) wa) in *.
  destruct (saveOfflineData_clean plz data wb) as [wc Hsave];
    [congruence | auto |].
  destruct (saveOfflineData_frame plz data wb) as (_ & Hcache & _ & _ & Henv').
  rewrite Hsave in Hcache, Henv'. cbn [snd] in Hcache, Henv'.
  assert (Hrun : run = (Rejected (ReferenceError "process"), wc)).
  { subst run. rewrite fetchWaterAnalysis_online by assumption.
    rewrite Hfetch. cbn zeta. fold key. fold wb. rewrite Hsave.
    rewrite Henv', Henv, Hnode. unfold recover. reflexivity. }
  assert (Hentry : cache wc !! key = Some (mkEntry data (clock wa))).
  { rewrite Hcache. subst wb. cbn [cache set_cache]. apply lookup_insert_eq. }
  rewrite Hrun. cbn [fst snd].
  split; [reflexivity|]. split; [exact Hentry|]. split.
  - intros Hsup.
    destruct (saveOfflineData_stored plz data wb wc) as (Hrec & _);
      [congruence | exact Hsave |]. now rewrite Hrec, Hclock.
  - intros w2 Hsame Hdur Hfresh.
    apply (fetchWaterAnalysis_memory plz false w2 (mkEntry data (clock wa))).
    apply CacheFacts.memory_hit_Some.
    split; [reflexivity|]. split; [now rewrite Hsame|]. exact Hfresh.
Qed.

Lemma success_is_rejected_where_process_is_unbound_witness :
  let browser :=
    constructor None None
      (mkWorld 0 true [Samples.answers 120 Samples.sample_payload] [] None (Some ∅)
         [] ∅ 0 "" "") in
  let first := fetchWaterAnalysis "10115" false browser in
  first.1 = Rejected (ReferenceError "process") /\
  (fetchWaterAnalysis "10115" false (set_clock 5000 first.2)).1
  = Fulfilled (from_memory Samples.sample_payload).
Proof.
  intros browser first.
  destruct (success_is_rejected_where_process_is_unbound "10115" false browser
              (fetchWithRetry (analysis_url browser) (analysis_request "10115") None
                 browser).2 Samples.sample_payload)
    as (Hrejected & _ & _ & Hagain).
  - reflexivity.
  - reflexivity.
  - vm_compute. reflexivity.
  - intros dbs db Hdbs Hdb. injection Hdbs as <-. rewrite lookup_empty in Hdb.
    discriminate.
  - reflexivity.
  - reflexivity.
  - split; [exact Hrejected|].
    rewrite (Hagain (set_clock 5000 first.2)); [reflexivity | reflexivity | reflexivity |].
    vm_compute. reflexivity.
Defined.

End OfflineStoreMoreFacts.


Module FallbackMoreFacts.
Import DataFetcher.

Lemma fold_sum_nonneg (codes : list Z) :
  Forall (fun c => 0 <= c) codes ->
  forall acc, 0 <= acc -> 0 <= fold_left (fun acc code => acc + code) codes acc.
Proof.
  induction 1 as [|c codes Hc _ IH]; intros acc Hacc; [exact Hacc|].
  cbn [fold_left]. apply IH. lia.
Qed.

Lemma hash_nonneg (plz : string) : 0 <= hash plz.
Proof.
  unfold hash. apply fold_sum_nonneg; [|lia].
  induction plz as [|c plz IH]; constructor; [lia | exact IH].
Qed.

(** The float computations of the generator on each of the hundred seeds,
    against exact decimal arithmetic. *)
Lemma seeds_exact :
  Forall (fun n : nat =>
    let h := Z.of_nat n in
    let seed := (JsNumber.of_Z h / 100)%float in
    let tenth x := pretty (x / 10) +:+ "." +:+ pretty (x mod 10) in
    JsNumber.toFixed (10 + seed * 30) 1 = tenth (100 + 3 * h) /\
    JsNumber.toFixed (20 + seed * 30) 1 = tenth (200 + 3 * h) /\
    JsNumber.toFixed (10 + seed * 15) 0 = pretty ((210 + 3 * h) / 20) /\
    JsNumber.Math_round (seed * 70) = JsNumber.of_Z ((7 * h + 5) / 10) /\
    (0.7 <? seed)%float = (70 <? h) /\
    (0.4 <? seed)%float = (40 <? h))
  (seq 0 100).
Proof.
  repeat (constructor; [vm_compute; repeat split; reflexivity|]). constructor.
Qed.

(** X12. The fallback object as a function of [h], the sum of the
    character codes of the key modulo 100.  The double-precision
    computations of the generator agree with exact decimal arithmetic on
    every seed: the PFAS value is the text of 10 + 0.3 h and the nitrate
    value that of 20 + 0.3 h, with one decimal; the hardness is
    10 + 0.15 h rounded to an integer, halves up; the score is 0.7 h
    rounded, halves up, hence at most 69; the level is 'medium' for
    h > 70, 'elevated' for 40 < h <= 70 and 'low' otherwise, with the
    colours orange, yellow and green, so the generator never reports a
    level above 'medium'. *)
Theorem fallback_readings_follow_code_sum (plz : string) (w : World) :
  let h := hash plz mod 100 in
  let tenth x := pretty (x / 10) +:+ "." +:+ pretty (x mod 10) in
  exists v, getFallbackData plz w = (Fulfilled v, w) /\
    property_at ["waterData"; "pfas"; "value"] v = Some (JStr (tenth (100 + 3 * h))) /\
    property_at ["waterData"; "nitrate"; "value"] v = Some (JStr (tenth (200 + 3 * h))) /\
    property_at ["waterData"; "hardness"; "value"] v
    = Some (JStr (pretty ((210 + 3 * h) / 20))) /\
    property_at ["riskAssessment"; "score"] v
    = Some (JNum (JsNumber.of_Z ((7 * h + 5) / 10))) /\
    (7 * h + 5) / 10 <= 69 /\
    property_at ["riskAssessment"; "level"] v
    = Some (JStr (if 70 <? h then "medium" else if 40 <? h then "elevated" else "low")) /\
    property_at ["riskAssessment"; "color"] v
    = Some (JStr (if 70 <? h then "orange" else if 40 <? h then "yellow" else "green")).
Proof.
  intros h tenth.
  assert (Hrange : 0 <= h < 100) by (apply Z.mod_pos_bound; lia).
  assert (Hseed : seed plz = (JsNumber.of_Z h / 100)%float).
  { unfold seed. rewrite Z.rem_mod_nonneg by (auto using hash_nonneg; lia).
    reflexivity. }
  pose proof (proj1 (Forall_forall _ _) seeds_exact (Z.to_nat h)) as Hexact.
  cbv beta zeta in Hexact. rewrite Z2Nat.id in Hexact by lia.
  destruct Hexact as (Hpfas & Hnitrate & Hhard & Hscore & Hmed & Helev).
  { apply list_elem_of_In, in_seq. lia. }
  rewrite <- Hseed in Hpfas, Hnitrate, Hhard, Hscore, Hmed, Helev.
  eexists. split; [reflexivity|].
  subst tenth. cbv beta. rewrite <- Hpfas, <- Hnitrate, <- Hhard, <- Hscore, <- Hmed, <- Helev.
  repeat split.
  assert ((7 * h + 5) / 10 < 70) by (apply Z.div_lt_upper_bound; lia). lia.
Qed.

End FallbackMoreFacts.


(* ===================================================================== *)
(** ** Delivery of analytics events *)

Module AnalyticsDeliveryFacts.
Import AffiliateOptimizer AnalyticsDelivery BufferFacts.

Lemma post_run url body p :
  post url body p =
  (match hd (Refused (TypeError "Failed to fetch")) (answers p) with
   | Refused e => Rejected e
   | Answered _ => Fulfilled tt
   end,
   mkPage (localStorage p) (tl (answers p)) (sent p ++ [mkSent url body])).
Proof. unfold post. destruct (hd _ (answers p)); reflexivity. Qed.

Lemma bufferAnalytics_array event storage buffer :
  storage !! "analytics_buffer" = None /\ buffer = [] \/
  storage !! "analytics_buffer" = Some (JArr buffer) ->
  bufferAnalytics event storage =
  (Fulfilled tt, <["analytics_buffer" := JArr (last_n 50 (buffer ++ [event]))]> storage).
Proof.
  intros Hstored. unfold bufferAnalytics.
  assert (default (JArr []) (storage !! "analytics_buffer") = JArr buffer) as ->
    by (destruct Hstored as [[-> ->] | ->]; reflexivity).
  now rewrite slice_last_50.
Qed.

(** X14. [sendAnalytics] makes one request per event and buffers the
    event exactly when the promise of [fetch] is rejected.  A response of
    any status, an error status included, fulfils that promise: the event
    is then not buffered and is not sent again.  When the fetch is
    rejected and the stored buffer is an array (or missing), the call
    still returns normally and the buffer becomes the last fifty of the
    old events followed by this one. *)
Theorem sendAnalytics_buffers_only_rejected_sends (event : JsVal) (p : Page) :
  let run := sendAnalytics event p in
  let answer := hd (Refused (TypeError "Failed to fetch")) (answers p) in
  sent run.2 = sent p ++ [mkSent "/api/analytics" event] /\
  answers run.2 = tl (answers p) /\
  (forall status, answer = Answered status ->
     run.1 = Fulfilled tt /\ localStorage run.2 = localStorage p) /\
  (forall e buffer, answer = Refused e ->
     localStorage p !! "analytics_buffer" = None /\ buffer = [] \/
     localStorage p !! "analytics_buffer" = Some (JArr buffer) ->
     run.1 = Fulfilled tt /\
     localStorage run.2 =
     <["analytics_buffer" := JArr (last_n 50 (buffer ++ [event]))]> (localStorage p)).
Proof.
  intros run answer. subst run answer.
  unfold sendAnalytics, try_catch. rewrite post_run.
  destruct (hd _ (answers p)) as [e|status].
  - unfold on_storage. cbn [localStorage answers sent].
    assert (Hframe : forall storage : Settled unit * gmap string JsVal,
              sent (let '(a, st) := storage in
                    (a, mkPage st (tl (answers p))
                          (sent p ++ [mkSent "/api/analytics" event]))).2
              = sent p ++ [mkSent "/api/analytics" event] /\
              answers (let '(a, st) := storage in
                       (a, mkPage st (tl (answers p))
                             (sent p ++ [mkSent "/api/analytics" event]))).2
              = tl (answers p)) by (intros [a st]; split; reflexivity).
    destruct (Hframe (bufferAnalytics event (localStorage p))) as [Hsent Hanswers].
    split; [exact Hsent|]. split; [exact Hanswers|].
    split; [discriminate|]. intros e' buffer _ Hstored.
    rewrite (bufferAnalytics_array event (localStorage p) buffer Hstored).
    split; reflexivity.
  - split; [reflexivity|]. split; [reflexivity|].
    split; [intros; split; reflexivity | discriminate].
Qed.

Lemma sendAnalytics_buffers_only_rejected_sends_witness :
  let event := Samples.numbered 7 in
  let failed := sendAnalytics event (mkPage ∅ [Answered 500] []) in
  let offline := sendAnalytics event (mkPage ∅ [] []) in
  localStorage failed.2 = ∅ /\
  localStorage offline.2 = {[ "analytics_buffer" := JArr [event] ]}.
Proof.
  intros event failed offline. split.
  - destruct (sendAnalytics_buffers_only_rejected_sends event (mkPage ∅ [Answered 500] []))
      as (_ & _ & Hanswered & _).
    destruct (Hanswered 500) as [_ Hsame]; [reflexivity | exact Hsame].
  - destruct (sendAnalytics_buffers_only_rejected_sends event (mkPage ∅ [] []))
      as (_ & _ & _ & Hrefused).
    destruct (Hrefused (TypeError "Failed to fetch") []) as [_ Hstored];
      [reflexivity | left; split; reflexivity | exact Hstored].
Defined.

(** X15. [sendBufferedAnalytics].  With no buffer or an empty one it
    makes no request.  With events buffered it makes one request, whose
    body holds all of them in their order, and returns normally whatever
    the answer.  It removes the buffer, and nothing else, as soon as the
    request gets a response, of any status, so that events answered with
    an error status are dropped; when the fetch is rejected the buffer
    stays as it is. *)
Theorem sendBufferedAnalytics_flushes_on_any_response (p : Page) :
  let run := sendBufferedAnalytics p in
  let answer := hd (Refused (TypeError "Failed to fetch")) (answers p) in
  (buffered p = JArr [] -> run = (Fulfilled tt, p)) /\
  (forall events, buffered p = JArr events -> events <> [] ->
     run.1 = Fulfilled tt /\
     sent run.2 =
     sent p ++ [mkSent "/api/analytics/batch" (JObj [("events", JArr events)])] /\
     (forall status, answer = Answered status ->
        localStorage run.2 = delete "analytics_buffer" (localStorage p) /\
        buffered run.2 = JArr []) /\
     (forall e, answer = Refused e -> localStorage run.2 = localStorage p)).
Proof.
  intros run answer. subst run answer. unfold sendBufferedAnalytics, buffered. split.
  - intros ->. reflexivity.
  - intros events -> Hne. destruct events as [|event events]; [congruence|].
    cbn [length_is_zero]. unfold try_catch, mbind, async_bind, removeItem, modify.
    rewrite post_run.
    destruct (hd _ (answers p)) as [e|status]; cbn [fst snd sent localStorage].
    + split; [reflexivity|]. split; [reflexivity|].
      split; [discriminate | reflexivity].
    + split; [reflexivity|]. split; [reflexivity|].
      split; [|discriminate]. intros _ _. split; [reflexivity|].
      now rewrite lookup_delete_eq.
Qed.

Lemma sendBufferedAnalytics_flushes_on_any_response_witness :
  let events := [Samples.numbered 1; Samples.numbered 2] in
  let p := mkPage {[ "analytics_buffer" := JArr events ]} [Answered 500] [] in
  localStorage (sendBufferedAnalytics p).2 = ∅ /\
  sent (sendBufferedAnalytics p).2 =
  [mkSent "/api/analytics/batch" (JObj [("events", JArr events)])].
Proof.
  intros events p.
  destruct (sendBufferedAnalytics_flushes_on_any_response p) as [_ Hflush].
  destruct (Hflush events) as (_ & Hsent & Hanswered & _);
    [reflexivity | discriminate |].
  destruct (Hanswered 500) as [Hstorage _]; [reflexivity|].
  split; [|exact Hsent]. rewrite Hstorage. apply delete_singleton_eq.
Defined.

(** *** Events sent while the network is down, then flushed *)

Lemma last_n_app {A} (n : nat) (l r : list A) :
  last_n n (last_n n l ++ r) = last_n n (l ++ r).
Proof.
  unfold last_n. set (k := (length l - n)%nat).
  replace (drop (length (l ++ r) - n) (l ++ r))
    with (drop (length (l ++ r) - n) (take k l ++ (drop k l ++ r)))
    by (now rewrite app_assoc, take_drop).
  rewrite (drop_app_ge (take k l)) by (rewrite length_take, !length_app; lia).
  f_equal. rewrite !length_app, length_drop, length_take. lia.
Qed.

Lemma nth_tl_answer (l : list Answer) i d : nth i (tl l) d = nth (S i) l d.
Proof. destruct l; [destruct i|]; reflexivity. Qed.

Lemma send_each_refused (events : list JsVal) :
  forall p buffer,
  localStorage p !! "analytics_buffer" = None /\ buffer = [] \/
  localStorage p !! "analytics_buffer" = Some (JArr buffer) ->
  (forall i, (i < length events)%nat ->
     exists e, nth i (answers p) (Refused (TypeError "Failed to fetch")) = Refused e) ->
  (send_each events p).1 = Fulfilled tt /\
  sent (send_each events p).2 = sent p ++ (mkSent "/api/analytics" <$> events) /\
  answers (send_each events p).2 = drop (length events) (answers p) /\
  buffered (send_each events p).2 =
  JArr (match events with [] => buffer | _ => last_n 50 (buffer ++ events) end) /\
  forall key, key <> "analytics_buffer" ->
    localStorage (send_each events p).2 !! key = localStorage p !! key.
Proof.
  induction events as [|event rest IH]; intros p buffer Hstored Hdown.
  - cbn. rewrite !app_nil_r. unfold buffered.
    split; [reflexivity|]. split; [reflexivity|]. split; [reflexivity|].
    split; [|auto]. destruct Hstored as [[-> ->] | ->]; reflexivity.
  - cbn [send_each]. unfold mbind, async_bind.
    unfold sendAnalytics, try_catch. rewrite post_run.
    destruct (Hdown O) as [e He]; [cbn; lia|].
    replace (hd (Refused (TypeError "Failed to fetch")) (answers p)) with (Refused e)
      by (rewrite <- He; now destruct (answers p)).
    unfold on_storage. cbn [localStorage answers sent].
    rewrite (bufferAnalytics_array event (localStorage p) buffer Hstored).
    set (p1 := mkPage _ (tl (answers p)) _).
    destruct (IH p1 (last_n 50 (buffer ++ [event]))) as (Hres & Hsent & Hans & Hbuf & Hkeys).
    + right. apply lookup_insert_eq.
    + intros i Hi. subst p1. cbn [answers]. rewrite nth_tl_answer.
      apply Hdown. cbn [length]. lia.
    + rewrite Hres, Hsent, Hans, Hbuf. subst p1. cbn [sent answers localStorage].
      split; [reflexivity|]. split; [rewrite <- app_assoc; reflexivity|].
      split; [destruct (answers p); [cbn; now rewrite !drop_nil | reflexivity]|]. split.
      * destruct rest as [|e2 rest]; [reflexivity|].
        rewrite last_n_app, <- app_assoc. reflexivity.
      * intros key Hkey. rewrite Hkeys by exact Hkey.
        cbn [localStorage]. now apply lookup_insert_ne.
Qed.

(** X16. Events sent while the network is down reach the server on the
    next flush, in their order, up to the last fifty.  When each of the
    sends of a non-empty list of events is rejected, every call returns
    normally and the buffer ends up holding the last fifty of the events
    buffered before followed by the new ones; nothing else in
    [localStorage] changes.  A flush that then gets a response posts
    exactly those events in one request and removes the buffer, so that
    a second flush makes no request. *)
Theorem offline_events_are_flushed_in_order
    (events buffer : list JsVal) (p : Page) :
  events <> [] ->
  localStorage p !! "analytics_buffer" = None /\ buffer = [] \/
  localStorage p !! "analytics_buffer" = Some (JArr buffer) ->
  (forall i, (i < length events)%nat ->
     exists e, nth i (answers p) (Refused (TypeError "Failed to fetch")) = Refused e) ->
  let offline := send_each events p in
  let kept := last_n 50 (buffer ++ events) in
  offline.1 = Fulfilled tt /\
  buffered offline.2 = JArr kept /\
  (length kept <= 50)%nat /\
  ((length (buffer ++ events) <= 50)%nat -> kept = buffer ++ events) /\
  sent offline.2 = sent p ++ (mkSent "/api/analytics" <$> events) /\
  (forall key, key <> "analytics_buffer" ->
     localStorage offline.2 !! key = localStorage p !! key) /\
  (forall status,
     nth (length events) (answers p) (Refused (TypeError "Failed to fetch"))
     = Answered status ->
     let flush := sendBufferedAnalytics offline.2 in
     flush.1 = Fulfilled tt /\
     sent flush.2 =
     sent offline.2 ++ [mkSent "/api/analytics/batch" (JObj [("events", JArr kept)])] /\
     localStorage flush.2 !! "analytics_buffer" = None /\
     sendBufferedAnalytics flush.2 = (Fulfilled tt, flush.2)).
Proof.
  intros Hsome Hstored Hdown offline kept.
  destruct (send_each_refused events p buffer Hstored Hdown)
    as (Hres & Hsent & Hans & Hbuf & Hkeys).
  fold offline in Hres, Hsent, Hans, Hbuf, Hkeys.
  assert (Hmatch : match events with
                   | [] => buffer
                   | _ => last_n 50 (buffer ++ events)
                   end = kept) by (destruct events; [congruence | reflexivity]).
  rewrite Hmatch in Hbuf.
  assert (Hlen : length (buffer ++ events) = (length buffer + length events)%nat)
    by apply length_app.
  assert (Hpos : (0 < length events)%nat)
    by (destruct events; [congruence | cbn; lia]).
  split; [exact Hres|]. split; [exact Hbuf|]. split.
  { subst kept. unfold last_n. rewrite length_drop. lia. }
  split.
  { intros Hroom. subst kept. unfold last_n.
    replace (length (buffer ++ events) - 50)%nat with O by lia. reflexivity. }
  split; [exact Hsent|]. split; [exact Hkeys|].
  intros status Hanswer flush.
  assert (Hkept : kept <> []).
  { subst kept. unfold last_n. intros Hnil.
    apply (f_equal length) in Hnil. rewrite length_drop in Hnil. cbn in Hnil. lia. }
  assert (Hhd : hd (Refused (TypeError "Failed to fetch")) (answers offline.2)
                = Answered status).
  { rewrite Hans, <- Hanswer. clear.
    generalize (answers p). induction (length events) as [|n IH]; intros l.
    - now destruct l.
    - destruct l as [|a l]; [now destruct n|]. apply IH. }
  subst flush. unfold sendBufferedAnalytics.
  unfold buffered in Hbuf. rewrite Hbuf.
  destruct kept as [|k0 kept']; [congruence|].
  cbn [length_is_zero]. unfold try_catch, mbind, async_bind, removeItem, modify.
  rewrite post_run, Hhd. cbn [fst snd sent localStorage answers].
  split; [reflexivity|]. split; [reflexivity|].
  split; [apply lookup_delete_eq|].
  rewrite lookup_delete_eq. reflexivity.
Qed.

Lemma offline_events_are_flushed_in_order_witness :
  let events := Samples.numbered <$> seq 0 60 in
  let p := mkPage ∅ (repeat (Refused (TypeError "Failed to fetch")) 60 ++ [Answered 200]) [] in
  sent (sendBufferedAnalytics (send_each events p).2).2 =
  (mkSent "/api/analytics" <$> events) ++
  [mkSent "/api/analytics/batch"
     (JObj [("events", JArr (Samples.numbered <$> seq 10 50))])].
Proof.
  intros events p.
  destruct (offline_events_are_flushed_in_order events [] p)
    as (_ & _ & _ & _ & Hsent & _ & Hflush).
  - vm_compute. discriminate.
  - left. split; reflexivity.
  - intros i Hi. exists (TypeError "Failed to fetch").
    change (length events) with 60%nat in Hi.
    do 60 (destruct i as [|i]; [reflexivity|]). lia.
  - destruct (Hflush 200) as (_ & Hbatch & _); [reflexivity|].
    rewrite Hbatch, Hsent. reflexivity.
Defined.

End AnalyticsDeliveryFacts.


(* ===================================================================== *)
(** ** The map manager *)

Module MapManagerFacts.
Import MapManager.

Lemma frames_last {A} (markers : list A) (chunkSize n : nat) : forall l,
  frames (S n) markers chunkSize l =
  (if scheduled (frames n markers chunkSize l)
   then addChunk markers chunkSize (frames n markers chunkSize l)
   else frames n markers chunkSize l).
Proof.
  induction n as [|n IH]; intros l; [reflexivity|].
  change (frames (S (S n)) markers chunkSize l)
    with (if scheduled l then frames (S n) markers chunkSize (addChunk markers chunkSize l)
          else l).
  cbn [frames]. destruct (scheduled l) eqn:Hs; [apply IH|]. now rewrite Hs.
Qed.

(** As long as the chunks before did not reach the end of the list, the
    loader after [k] frames has added the first [k] chunks. *)
Lemma frames_progress {A} (markers : list A) (chunkSize k : nat) :
  (forall j, (0 < j < k)%nat -> (j * chunkSize < length markers)%nat) ->
  let l := frames k markers chunkSize addMarkersInChunks in
  index l = (k * chunkSize)%nat /\
  added l = (fun j => slice (j * chunkSize) (j * chunkSize + chunkSize) markers)
            <$> seq 0 k /\
  concat (added l) = take (k * chunkSize) markers /\
  scheduled l = (if (k =? 0)%nat then true else (k * chunkSize <? length markers)%nat).
Proof.
  induction k as [|k IH]; intros Hbefore l.
  - subst l. cbn. rewrite take_0. auto.
  - subst l. rewrite frames_last.
    destruct IH as (Hidx & Hadded & Hcat & Hsched).
    { intros j Hj. apply Hbefore. lia. }
    set (l := frames k markers chunkSize addMarkersInChunks) in *.
    assert (Hs : scheduled l = true).
    { rewrite Hsched. destruct k as [|k]; [reflexivity|]. cbn [Nat.eqb].
      apply Nat.ltb_lt. apply Hbefore. lia. }
    rewrite Hs. unfold addChunk. cbn [index added scheduled].
    rewrite Hidx, Hadded.
    replace (k * chunkSize + chunkSize)%nat with (S k * chunkSize)%nat by lia.
    split; [reflexivity|]. split.
    { rewrite seq_S, fmap_app. cbn [fmap list_fmap Nat.add].
      replace (k * chunkSize + chunkSize)%nat with (S k * chunkSize)%nat by lia.
      reflexivity. }
    split; [|reflexivity].
    rewrite <- Hadded, concat_app, Hcat. cbn [concat]. rewrite app_nil_r.
    unfold slice.
    replace (S k * chunkSize - k * chunkSize)%nat with chunkSize by lia.
    replace (S k * chunkSize)%nat with (k * chunkSize + chunkSize)%nat by lia.
    now rewrite take_take_drop.
Qed.

(** The number of animation frames that loading takes. *)
Lemma frame_count_bounds (len size : nat) :
  (0 < size)%nat ->
  let n := Nat.max 1 ((len + size - 1) / size) in
  (len <= n * size)%nat /\ (forall j, (0 < j < n)%nat -> (j * size < len)%nat).
Proof.
  intros Hsize n.
  pose proof (Nat.div_mod_eq (len + size - 1) size) as Hdiv.
  pose proof (Nat.mod_upper_bound (len + size - 1) size ltac:(lia)) as Hmod.
  set (q := ((len + size - 1) / size)%nat) in *.
  set (r := ((len + size - 1) mod size)%nat) in *.
  clearbody q r. subst n.
  destruct (Nat.max_spec 1 q) as [[Hq ->] | [Hq ->]].
  - split; [nia|]. intros j Hj. nia.
  - split; [|intros j Hj; lia].
    assert (q = 0 \/ q = 1)%nat as [-> | ->] by lia; lia.
Qed.

(** X17. [addMarkersInChunks] with a positive chunk size hands every
    marker to the cluster layer exactly once and in order: chunk [j] is
    [markers.slice(j * chunkSize, (j + 1) * chunkSize)], one chunk per
    animation frame; the chunks put together are the list of markers and
    none is longer than the chunk size.  Loading takes
    max(1, ceil(length / chunkSize)) frames: a frame is requested after
    every chunk but the last, and none after it.  An empty list still
    costs one frame and one call of [addLayers] with an empty chunk.
    With a chunk size of zero and at least one marker the callback
    requests itself on every frame for ever and no marker is ever
    added. *)
Theorem markers_are_added_in_chunks {A} (markers : list A) (chunkSize : nat) :
  let after k := frames k markers chunkSize addMarkersInChunks in
  let n := Nat.max 1 ((length markers + chunkSize - 1) / chunkSize) in
  ((0 < chunkSize)%nat ->
   added (after n) =
     (fun j => slice (j * chunkSize) (j * chunkSize + chunkSize) markers) <$> seq 0 n /\
   concat (added (after n)) = markers /\
   Forall (fun chunk => (length chunk <= chunkSize)%nat) (added (after n)) /\
   scheduled (after n) = false /\
   (forall k, (k < n)%nat -> scheduled (after k) = true) /\
   (forall k, (n <= k)%nat -> after k = after n)) /\
  (chunkSize = O -> markers <> [] ->
   forall k, scheduled (after k) = true /\ concat (added (after k)) = []).
Proof.
  intros after n. split.
  - intros Hsize.
    destruct (frame_count_bounds (length markers) chunkSize Hsize) as [Hend Hbefore].
    fold n in Hend, Hbefore.
    assert (Hn : (1 <= n)%nat) by (subst n; lia).
    destruct (frames_progress markers chunkSize n Hbefore)
      as (_ & Hadded & Hcat & Hsched).
    fold (after n) in Hadded, Hcat, Hsched.
    assert (Hdone : scheduled (after n) = false).
    { rewrite Hsched. destruct n as [|n']; [lia|]. cbn [Nat.eqb].
      apply Nat.ltb_ge. exact Hend. }
    split; [exact Hadded|]. split; [rewrite Hcat; now apply take_ge|]. split.
    { rewrite Hadded. apply Forall_fmap, Forall_forall. intros j _. cbn.
      unfold slice. rewrite length_take. lia. }
    split; [exact Hdone|]. split.
    + intros k Hk.
      destruct (frames_progress markers chunkSize k) as (_ & _ & _ & Hs).
      { intros j Hj. apply Hbefore. lia. }
      fold (after k) in Hs. rewrite Hs. destruct k as [|k]; [reflexivity|].
      cbn [Nat.eqb]. apply Nat.ltb_lt. apply Hbefore. lia.
    + intros k Hk. replace k with (k - n + n)%nat by lia.
      induction (k - n)%nat as [|d IH]; [reflexivity|].
      subst after. cbn [Nat.add]. rewrite frames_last. cbv beta in IH.
      rewrite IH, Hdone. reflexivity.
  - intros -> Hsome k.
    destruct (frames_progress markers 0 k) as (_ & _ & Hcat & Hsched).
    { intros j Hj. rewrite Nat.mul_0_r. destruct markers; [congruence | cbn; lia]. }
    fold (after k) in Hcat, Hsched. split.
    + rewrite Hsched. destruct k as [|k]; [reflexivity|]. cbn [Nat.eqb].
      apply Nat.ltb_lt. rewrite Nat.mul_0_r. destruct markers; [congruence | cbn; lia].
    + rewrite Hcat, Nat.mul_0_r. apply take_0.
Qed.

Lemma markers_are_added_in_chunks_witness :
  let markers := seq 0 1200 in
  let l := frames 3 markers 500 addMarkersInChunks in
  concat (added l) = markers /\ scheduled l = false /\
  length <$> added l = [500; 500; 200]%nat.
Proof.
  intros markers l.
  destruct (markers_are_added_in_chunks markers 500) as [Hload _].
  destruct Hload as (Hadded & Hcat & _ & Hdone & _); [lia|].
  split; [exact Hcat|]. split; [exact Hdone|].
  subst l. change (Nat.max 1 ((length markers + 500 - 1) / 500)) with 3%nat in Hadded.
  rewrite Hadded. vm_compute. reflexivity.
Defined.

End MapManagerFacts.


(* ===================================================================== *)
(** ** Product recommendations *)

Module RecommendationFacts.
Import Recommendations.

Lemma insert_sorted_perm {A} (after : A -> A -> bool) x l :
  insert_sorted after x l ≡ₚ x :: l.
Proof.
  induction l as [|y l IH]; [reflexivity|]. cbn.
  destruct (after x y); [|reflexivity].
  rewrite IH. apply Permutation_swap.
Qed.

Lemma sort_perm {A} (after : A -> A -> bool) l : sort after l ≡ₚ l.
Proof.
  induction l as [|x l IH]; [reflexivity|].
  unfold sort in *. cbn [foldr]. rewrite insert_sorted_perm. now constructor.
Qed.

Lemma applyABTestVariation_perm products test :
  applyABTestVariation products test ≡ₚ products.
Proof.
  unfold applyABTestVariation. destruct test as [variant|]; [|reflexivity].
  repeat (case_match; [apply sort_perm|]). reflexivity.
Qed.

(** The products that pass both filters. *)
Lemma recommendations_perm test historicalCR riskLevel userContext :
  getPersonalizedRecommendations test historicalCR riskLevel userContext ≡ₚ
  List.filter (passes_rules userContext)
    (List.filter
       (fun product => existsb (String.eqb riskLevel) (recommendedRiskLevels product))
       getProductCatalog).
Proof.
  unfold getPersonalizedRecommendations, applyPersonalizationRules. cbv zeta.
  set (chosen := List.filter (passes_rules userContext) _).
  set (ranked := sort _ _).
  assert (Hperm : ranked ≡ₚ chosen).
  { subst ranked. rewrite sort_perm. apply applyABTestVariation_perm. }
  assert (Hlen : (length ranked <= 3)%nat).
  { rewrite Hperm. subst chosen.
    etransitivity; [apply List.filter_length_le|].
    etransitivity; [apply List.filter_length_le|]. reflexivity. }
  rewrite take_ge by exact Hlen. exact Hperm.
Qed.

Lemma recommendations_none test historicalCR riskLevel userContext :
  (forall product, In product getProductCatalog ->
     existsb (String.eqb riskLevel) (recommendedRiskLevels product)
     && passes_rules userContext product = false) ->
  getPersonalizedRecommendations test historicalCR riskLevel userContext = [].
Proof.
  intros Hnone. apply Permutation_nil_r.
  rewrite recommendations_perm.
  induction getProductCatalog as [|p ps IH]; [reflexivity|].
  cbn [List.filter].
  pose proof (Hnone p (or_introl eq_refl)) as Hp.
  destruct (existsb _ (recommendedRiskLevels p)); cbn [andb] in Hp.
  - cbn [List.filter]. rewrite Hp. apply IH. intros q Hq. apply Hnone. now right.
  - apply IH. intros q Hq. apply Hnone. now right.
Qed.

(** X18. What [getPersonalizedRecommendations] can return, whatever the
    A/B variant and the stored conversion rates, which only decide the
    order.  The result holds exactly the products of the catalog that
    list the risk level and pass the personalization rules, each once,
    and never more than two.  Hence there is no recommendation at all for
    a risk level other than 'low', 'medium', 'high' and 'critical' (for
    'elevated' in particular); none for a tenant, nor for a low budget,
    at the levels 'high' and 'critical'; and none for a high budget at
    the levels 'low' and 'medium'. *)
Theorem recommendations_are_the_filtered_catalog
    (test : option string) (historicalCR : Product -> float)
    (riskLevel : string) (userContext : UserContext) :
  let result := getPersonalizedRecommendations test historicalCR riskLevel userContext in
  (forall product,
     In product result <->
     In product getProductCatalog /\
     In riskLevel (recommendedRiskLevels product) /\
     passes_rules userContext product = true) /\
  NoDup result /\ (length result <= 2)%nat /\
  (~ In riskLevel ["low"; "medium"; "high"; "critical"] -> result = []) /\
  (In riskLevel ["high"; "critical"] ->
   isTenant userContext = true \/ budget userContext = "low" -> result = []) /\
  (In riskLevel ["low"; "medium"] -> budget userContext = "high" -> result = []).
Proof.
  intros result.
  pose proof (recommendations_perm test historicalCR riskLevel userContext) as Hperm.
  fold result in Hperm.
  assert (Hlevel : forall product,
            existsb (String.eqb riskLevel) (recommendedRiskLevels product) = true <->
            In riskLevel (recommendedRiskLevels product)).
  { intros product. rewrite existsb_exists. split.
    - intros (level & Hin & Heq). apply String.eqb_eq in Heq. now subst.
    - intros Hin. exists riskLevel. split; [exact Hin | apply String.eqb_refl]. }
  assert (Hempty : ~ In riskLevel ["low"; "medium"; "high"; "critical"] -> result = []).
  { intros Hother. apply recommendations_none. intros product Hin.
    apply andb_false_iff. left. apply not_true_is_false. rewrite Hlevel.
    intros Hl. apply Hother.
    cbn in Hin. destruct Hin as [<-|[<-|[<-|[]]]]; cbn in Hl |- *; tauto. }
  split; [|split; [|split; [|split; [exact Hempty|split]]]].
  - intros product. rewrite <- list_elem_of_In, Hperm, list_elem_of_In.
    rewrite !filter_In, Hlevel. tauto.
  - rewrite Hperm. apply NoDup_ListNoDup, List.NoDup_filter, List.NoDup_filter.
    unfold getProductCatalog. repeat constructor; cbn; intuition discriminate.
  - assert (Hcases : riskLevel = "low" \/ riskLevel = "medium" \/ riskLevel = "high" \/
                     riskLevel = "critical" \/
                     ~ In riskLevel ["low"; "medium"; "high"; "critical"]).
    { cbn [In].
      destruct (string_dec riskLevel "low"), (string_dec riskLevel "medium"),
        (string_dec riskLevel "high"), (string_dec riskLevel "critical"); intuition auto. }
    destruct Hcases as [Hl|[Hl|[Hl|[Hl|Hl]]]];
      [| | | |rewrite (Hempty Hl); cbn; lia];
      rewrite Hperm, Hl; cbn -[passes_rules];
      repeat (destruct (passes_rules userContext _)); cbn [length]; lia.
  - intros Hrisk Hwho. apply recommendations_none. intros product Hin.
    destruct (existsb (String.eqb riskLevel) (recommendedRiskLevels product)) eqn:Hl;
      [|reflexivity].
    apply Hlevel in Hl. cbn [andb]. unfold passes_rules.
    cbn in Hin, Hrisk. destruct Hin as [<-|[<-|[<-|[]]]]; cbn in Hl |- *;
      try (exfalso; intuition congruence).
    destruct Hwho as [-> | ->]; [reflexivity|].
    now destruct (isTenant userContext).
  - intros Hrisk Hbudget. apply recommendations_none. intros product Hin.
    destruct (existsb (String.eqb riskLevel) (recommendedRiskLevels product)) eqn:Hl;
      [|reflexivity].
    apply Hlevel in Hl. cbn [andb]. unfold passes_rules. rewrite Hbudget.
    cbn in Hin, Hrisk. destruct Hin as [<-|[<-|[<-|[]]]]; cbn in Hl |- *;
      try (exfalso; intuition congruence);
      now destruct (isTenant userContext).
Qed.

Lemma recommendations_are_the_filtered_catalog_witness :
  let anyone := mkContext false false "" in
  let tenant := mkContext true true "" in
  getPersonalizedRecommendations None (fun _ => 0.05%float) "elevated" anyone = [] /\
  getPersonalizedRecommendations (Some "aggressive") (fun _ => 0.05%float)
    "critical" tenant = [].
Proof.
  intros anyone tenant. split.
  - destruct (recommendations_are_the_filtered_catalog
                None (fun _ => 0.05%float) "elevated" anyone)
      as (_ & _ & _ & Hother & _).
    apply Hother. cbn. intuition discriminate.
  - destruct (recommendations_are_the_filtered_catalog
                (Some "aggressive") (fun _ => 0.05%float) "critical" tenant)
      as (_ & _ & _ & _ & Hhigh & _).
    apply Hhigh; [cbn; auto | left; reflexivity].
Defined.

(** X19. [getCrossSellProducts] never offers a product: none of the ids
    in its cross-sell map is the id of a product of the catalog.  For
    every product id the result is the empty list, except for the names
    that the map inherits from [Object.prototype], for which the call
    throws a TypeError; for the three products of the catalog it is the
    empty list. *)
Theorem cross_selling_never_offers_a_product (mainProductId : string) :
  let result := getCrossSellProducts mainProductId in
  (In mainProductId inherited_names ->
   result = inl (TypeError "crossSellIds.includes is not a function")) /\
  (~ In mainProductId inherited_names -> result = inr []) /\
  (forall product, In product getProductCatalog ->
     getCrossSellProducts (id product) = inr []).
Proof.
  intros result. subst result.
  assert (Hnames : existsb (String.eqb mainProductId) inherited_names = true <->
                   In mainProductId inherited_names).
  { rewrite existsb_exists. split.
    - intros (n & Hin & Heq). apply String.eqb_eq in Heq. now subst.
    - intros Hin. exists mainProductId. split; [exact Hin | apply String.eqb_refl]. }
  split; [|split].
  - intros Hin. cbn in Hin.
    repeat (destruct Hin as [<- | Hin]; [reflexivity|]). contradiction.
  - intros Hout. unfold getCrossSellProducts, crossSellMap. cbn [own_property].
    destruct (existsb (String.eqb mainProductId) inherited_names) eqn:He;
      [exfalso; apply Hout, Hnames; reflexivity|].
    destruct (String.eqb mainProductId "lotus_vita"); [reflexivity|].
    destruct (String.eqb mainProductId "aquazero_promax"); [reflexivity|].
    destruct (String.eqb mainProductId "brita_filter"); reflexivity.
  - intros product Hin. cbn in Hin.
    destruct Hin as [<-|[<-|[<-|[]]]]; reflexivity.
Qed.

Lemma cross_selling_never_offers_a_product_witness :
  getCrossSellProducts "lotus_vita" = inr [] /\
  getCrossSellProducts "constructor"
  = inl (TypeError "crossSellIds.includes is not a function").
Proof.
  split.
  - destruct (cross_selling_never_offers_a_product "lotus_vita") as (_ & Hout & _).
    apply Hout. cbn. intuition discriminate.
  - destruct (cross_selling_never_offers_a_product "constructor") as (Hin & _).
    apply Hin. cbn. auto.
Defined.

End RecommendationFacts.


(* ===================================================================== *)
(** ** The analysis endpoint *)

Module AnalysisApiFacts.
Import AnalysisApi.

Lemma fold_hash_nonneg (codes : list Z) :
  Forall (fun c => 0 <= c) codes ->
  forall acc, 0 <= acc -> 0 <= fold_left (fun acc code => acc * 31 + code) codes acc.
Proof.
  induction 1 as [|c codes Hc _ IH]; intros acc Hacc; [exact Hacc|].
  cbn [fold_left]. apply IH. lia.
Qed.

Lemma polynomial_hash_nonneg (plz : string) : 0 <= hash plz.
Proof.
  unfold hash. apply fold_hash_nonneg; [|lia].
  induction plz as [|c plz IH]; constructor; [lia | exact IH].
Qed.

(** The assessment of the simulated readings on each of the thousand
    seeds. *)
Lemma seeds_checked :
  forallb
    (fun n : nat =>
       let k := Z.of_nat n in
       let data := readings (JsNumber.of_Z k / 1000)%float "" in
       let risk := calculateRisk data in
       (score risk =? (if k <? 202 then 10 else if k <? 253 then 25
                       else if k <? 753 then 40 else 50))
       && String.eqb (level risk)
            (if k <? 202 then "low" else if k <? 253 then "elevated"
             else if k <? 753 then "medium" else "critical")
       && String.eqb (color risk)
            (if k <? 202 then "green" else if k <? 253 then "yellow"
             else if k <? 753 then "orange" else "red")
       && negb (exceeds (value (pfas data)) 50)
       && negb (exceeds (value (arsenic data)) 8)
       && negb (exceeds (value (lead data)) 8))
    (seq 0 1000) = true.
Proof. vm_compute. reflexivity. Qed.

(** X20. The risk assessment that the endpoint computes from its
    simulated readings, as a function of [k], the hash of the post code
    modulo 1000.  The score takes four values only: 10 for k < 202, 25
    for 202 <= k < 253, 40 for 253 <= k < 753 and 50 from 753 on, with
    the levels 'low', 'elevated', 'medium' and 'critical' and the colours
    green, yellow, orange and red; the simulated arsenic and lead never
    exceed their threshold of 8 and the PFAS reading never exceeds 50, so
    these three branches never add to the score.  The thresholds are
    compared with the readings as rounded by [toFixed]: a PFAS value of
    20.025 (k = 201) is read as '20.0' and does not count as above 20.
    The Lotus filter alone is recommended below 253, both filters from
    there on, the AquaZero first from 753 on. *)
Theorem simulated_risk_follows_hash (plz now : string) :
  String.length plz = 5%nat ->
  let k := hash plz mod 1000 in
  let data := simulateWaterData plz now in
  let risk := calculateRisk data in
  0 <= k < 1000 /\
  score risk = (if k <? 202 then 10 else if k <? 253 then 25
                else if k <? 753 then 40 else 50) /\
  level risk = (if k <? 202 then "low" else if k <? 253 then "elevated"
                else if k <? 753 then "medium" else "critical") /\
  color risk = (if k <? 202 then "green" else if k <? 253 then "yellow"
                else if k <? 753 then "orange" else "red") /\
  exceeds (value (pfas data)) 50 = false /\
  exceeds (value (arsenic data)) 8 = false /\
  exceeds (value (lead data)) 8 = false /\
  filter_id <$> getFilterRecommendations (level risk) =
  (if k <? 253 then ["lotus_vita"]
   else if k <? 753 then ["lotus_vita"; "aquazero_promax"]
   else ["aquazero_promax"; "lotus_vita"]).
Proof.
  intros _ k data risk.
  assert (Hrange : 0 <= k < 1000) by (apply Z.mod_pos_bound; lia).
  assert (Hseed : seed plz = (JsNumber.of_Z k / 1000)%float).
  { unfold seed. rewrite Z.rem_mod_nonneg by (auto using polynomial_hash_nonneg; lia).
    rewrite Z.abs_eq by lia. reflexivity. }
  pose proof (proj1 (forallb_forall _ _) seeds_checked (Z.to_nat k)) as Hchecked.
  cbv beta zeta in Hchecked. rewrite Z2Nat.id in Hchecked by lia.
  rewrite <- Hseed in Hchecked.
  specialize (Hchecked ltac:(apply in_seq; lia)).
  change (calculateRisk (readings (seed plz) "")) with risk in Hchecked.
  change (value (pfas (readings (seed plz) ""))) with (value (pfas data)) in Hchecked.
  change (value (arsenic (readings (seed plz) ""))) with (value (arsenic data)) in Hchecked.
  change (value (lead (readings (seed plz) ""))) with (value (lead data)) in Hchecked.
  repeat (apply andb_prop in Hchecked as [Hchecked ?]).
  repeat match goal with
         | H : negb _ = true |- _ => apply negb_true_iff in H
         | H : String.eqb _ _ = true |- _ => apply String.eqb_eq in H
         end.
  apply Z.eqb_eq in Hchecked.
  repeat (split; [assumption|]).
  match goal with H : level risk = _ |- _ => rewrite H end.
  destruct (k <? 202) eqn:Hlow;
    [assert ((k <? 253) = true) as -> by lia; reflexivity|].
  destruct (k <? 253); [reflexivity|]. destruct (k <? 753); reflexivity.
Qed.

Lemma simulated_risk_follows_hash_witness :
  level (calculateRisk (simulateWaterData "10115" "2024-06-01T12:00:00.000Z"))
  = "low".
Proof.
  destruct (simulated_risk_follows_hash "10115" "2024-06-01T12:00:00.000Z")
    as (_ & _ & Hlevel & _); [reflexivity|].
  rewrite Hlevel. vm_compute. reflexivity.
Defined.

(** *** The handler *)

#[local] Ltac reduce :=
  cbv beta iota zeta;
  cbn [answers queries connected ended node_env dates connect_fault end_fault
       fst snd status headers body].

(** X21. The protocol of the analysis endpoint.  A request that is not a
    POST is answered 405 and a POST whose [plz] is missing or not of
    length 5 is answered 400, both before the CORS headers are set and
    without touching the database.  Every other POST with a body is
    answered 200, 404 or 500 with the CORS headers.  It is answered 200,
    with the assessment of the simulated readings of the post code, only
    when the connection opens, the post code is a string with a row of
    coordinates, the insertion into the log goes through and the
    connection closes; a failure of that insertion turns the computed
    analysis into a 500.  The connection is closed on the 200 and 404
    paths only: whenever the answer is 500, [client.end()] has not
    completed, so a failure after [connect] leaves the connection
    open. *)
Theorem handler_protocol (req : ApiRequest) (s : Server) :
  let run := handler req s in
  let first := hd (Rows []) (answers s) in
  let second := hd (Rows []) (tl (answers s)) in
  (req_method req <> "POST" ->
   run = (Fulfilled (mkApiResponse 405 [] (ErrorBody "Method not allowed" None)), s)) /\
  (forall plz, req_method req = "POST" -> req_plz req = Some plz ->
     invalid_plz plz = true ->
     run = (Fulfilled (mkApiResponse 400 [] (ErrorBody "Invalid PLZ" None)), s)) /\
  (forall plz, req_method req = "POST" -> req_plz req = Some plz ->
     invalid_plz plz = false ->
     exists response,
       run.1 = Fulfilled response /\ headers response = cors_headers /\
       (status response = 200 \/ status response = 404 \/ status response = 500) /\
       (status response = 500 ->
        ended run.2 = ended s /\
        (connect_fault s = None -> connected run.2 = true) /\
        exists e, body response =
          ErrorBody "Internal server error"
            (if String.eqb (node_env s) "development" then Some (message e) else None)) /\
       (status response <> 500 -> ended run.2 = true /\ connected run.2 = true) /\
       (status response = 404 -> first = Rows []) /\
       (status response = 200 ->
        exists text row rest rows,
          plz = JStr text /\ first = Rows (row :: rest) /\ second = Rows rows /\
          queries run.2 =
          queries s ++ [SelectCoordinates plz;
                        InsertLog plz (level (calculateRisk
                                                (simulateWaterData text (hd "" (dates s)))))] /\
          body response =
          AnalysisBody text (city row) (lat row, lon row)
            (simulateWaterData text (hd "" (dates s)))
            (calculateRisk (simulateWaterData text (hd "" (dates s))))
            (getFilterRecommendations
               (level (calculateRisk (simulateWaterData text (hd "" (dates s))))))
            (hd "" (tl (dates s)))) /\
       (forall e, second = QueryFails e -> status response <> 200)).
Proof.
  intros run first second. subst run first second. split; [|split].
  - intros Hmethod. unfold handler. apply String.eqb_neq in Hmethod.
    now rewrite Hmethod.
  - intros plz Hpost Hplz Hinvalid. unfold handler.
    now rewrite Hpost, Hplz, Hinvalid, String.eqb_refl.
  - intros plz Hpost Hplz Hvalid. unfold handler.
    rewrite Hpost, Hplz, Hvalid, String.eqb_refl. cbn [negb].
    unfold simulate, toISOString, try_catch, mbind, async_bind, connect, query,
      client_end, internal_error, mret, async_ret, throw.
    cbv beta.
    destruct (connect_fault s) as [e|] eqn:Hconnect; reduce.
    { eexists. repeat split; eauto; try discriminate; try congruence. }
    destruct (hd (Rows []) (answers s)) as [e|[|row rest]] eqn:Hfirst; reduce.
    { eexists. repeat split; eauto; try discriminate; try congruence. }
    { destruct (end_fault s) as [e|] eqn:Hend; reduce;
        eexists; repeat split; eauto; try discriminate; try congruence. }
    destruct plz as [| |b|x|text|items|fields]; reduce;
      try (eexists; repeat split; eauto; try discriminate; congruence).
    destruct (hd (Rows []) (tl (answers s))) as [e|rows] eqn:Hsecond; reduce.
    { eexists. repeat split; eauto; try discriminate; try congruence. }
    destruct (end_fault s) as [e|] eqn:Hend; reduce.
    { eexists. repeat split; eauto; try discriminate; try congruence. }
    eexists.
    split; [reflexivity|]. split; [reflexivity|]. split; [auto|].
    split; [discriminate|]. split; [auto|]. split; [discriminate|].
    split; [|discriminate].
    intros _. exists text, row, rest, rows.
    rewrite <- app_assoc. repeat split.
Qed.

Lemma handler_protocol_witness :
  let req := mkApiRequest "POST" (Some (JStr "10115")) in
  let berlin := mkGeoRow 52.53 13.38 "Berlin" in
  let s := mkServer None None
             [Rows [berlin]; QueryFails (Error "relation analysis_logs does not exist")]
             [] false false "production" [] in
  exists response,
    (handler req s).1 = Fulfilled response /\ status response = 500 /\
    connected (handler req s).2 = true /\ ended (handler req s).2 = false.
Proof.
  intros req berlin s.
  destruct (handler_protocol req s) as (_ & _ & Hvalid).
  destruct (Hvalid (JStr "10115"))
    as (response & Hres & _ & Hstatus & H500 & _ & H404 & _ & Hlog);
    [reflexivity | reflexivity | reflexivity |].
  exists response. split; [exact Hres|].
  assert (Hfailed : status response = 500).
  { destruct Hstatus as [H|[H|H]]; [| |exact H].
    - exfalso. apply (Hlog (Error "relation analysis_logs does not exist"));
        [reflexivity | exact H].
    - specialize (H404 H). discriminate. }
  destruct (H500 Hfailed) as (Hended & Hconnected & _).
  split; [exact Hfailed|]. split; [apply Hconnected; reflexivity | exact Hended].
Defined.

End AnalysisApiFacts.


(* ===================================================================== *)
(** ** Recommendations read off a chat answer *)

Module ChatbotFacts.
Import Chatbot.

Lemma append_cons c (a b : string) : String c a +:+ b = String c (a +:+ b).
Proof. reflexivity. Qed.

Lemma append_assoc (a b c : string) : (a +:+ b) +:+ c = a +:+ (b +:+ c).
Proof.
  induction a as [|x a IH]; [reflexivity|]. rewrite !append_cons. now rewrite IH.
Qed.

Lemma length_append (a b : string) :
  String.length (a +:+ b) = (String.length a + String.length b)%nat.
Proof.
  induction a as [|x a IH]; [reflexivity|]. rewrite append_cons. cbn. now rewrite IH.
Qed.

Lemma prefix_append pat : forall s,
  String.prefix pat s = true -> exists b, s = pat +:+ b.
Proof.
  induction pat as [|c pat IH]; intros s Hp; [exists s; reflexivity|].
  destruct s as [|d s]; cbn [String.prefix] in Hp; [discriminate|].
  destruct (ascii_dec c d) as [<-|]; [|discriminate].
  destruct (IH s Hp) as [b ->]. now exists b.
Qed.

Lemma prefix_of_append pat b : String.prefix pat (pat +:+ b) = true.
Proof.
  induction pat as [|c pat IH]; [now destruct b|].
  rewrite append_cons. cbn [String.prefix].
  destruct (ascii_dec c c); [exact IH | congruence].
Qed.

Lemma index_split pat : forall s i,
  String.index 0 pat s = Some i ->
  exists a b, s = a +:+ pat +:+ b /\ String.length a = i.
Proof.
  induction s as [|c s IH]; intros i Hi.
  - cbn in Hi. destruct pat; [|discriminate]. injection Hi as <-.
    now exists "", "".
  - cbn [String.index] in Hi.
    destruct (String.prefix pat (String c s)) eqn:Hp.
    + injection Hi as <-. destruct (prefix_append _ _ Hp) as [b ->].
      now exists "", b.
    + destruct (String.index 0 pat s) as [j|]; [|discriminate].
      injection Hi as <-. destruct (IH j eq_refl) as (a & b & -> & <-).
      now exists (String c a), b.
Qed.

Lemma includes_index s pat :
  includes s pat = true -> exists i, String.index 0 pat s = Some i.
Proof.
  induction s as [|c s IH]; cbn [includes String.index]; intros Hinc.
  - rewrite orb_false_r in Hinc. destruct pat; [eauto|].
    cbn [String.prefix] in Hinc. discriminate.
  - destruct (String.prefix pat (String c s)); [eauto|].
    destruct (IH Hinc) as [i ->]. eauto.
Qed.

Lemma includes_of_split a pat b : includes (a +:+ pat +:+ b) pat = true.
Proof.
  induction a as [|c a IH].
  - change ("" +:+ pat +:+ b) with (pat +:+ b).
    pose proof (prefix_of_append pat b) as Hp.
    destruct (pat +:+ b); cbn [includes]; now rewrite Hp.
  - rewrite append_cons. cbn [includes]. rewrite IH. apply orb_true_r.
Qed.

Lemma substring_from_start pat : forall n b,
  (String.length pat <= n)%nat ->
  String.substring 0 n (pat +:+ b)
  = pat +:+ String.substring 0 (n - String.length pat) b.
Proof.
  induction pat as [|c pat IH]; intros n b Hn.
  - change ("" +:+ b) with b. now rewrite Nat.sub_0_r.
  - rewrite !append_cons. destruct n as [|n]; [cbn in Hn; lia|].
    cbn [String.substring String.length Nat.sub]. rewrite IH by (cbn in Hn; lia).
    reflexivity.
Qed.

Lemma substring_around a : forall start n pat b,
  (start <= String.length a)%nat ->
  (String.length a - start + String.length pat <= n)%nat ->
  String.substring start n (a +:+ pat +:+ b)
  = String.substring start (String.length a - start) a +:+ pat
    +:+ String.substring 0 (n - (String.length a - start) - String.length pat) b.
Proof.
  induction a as [|c a IH]; intros start n pat b Hstart Hn.
  - cbn in Hstart. assert (start = O) by lia. subst start.
    change ("" +:+ pat +:+ b) with (pat +:+ b). cbn [String.length Nat.sub] in *.
    rewrite substring_from_start by lia. cbn [String.substring].
    now rewrite Nat.sub_0_r.
  - rewrite append_cons. destruct start as [|start].
    + destruct n as [|n]; [cbn in Hn; lia|].
      cbn [String.substring String.length Nat.sub] in *.
      rewrite (IH O n pat b) by lia. rewrite Nat.sub_0_r, append_cons. reflexivity.
    + cbn [String.substring String.length Nat.sub] in *.
      apply IH; lia.
Qed.

Lemma substring_length start : forall n s,
  (String.length (String.substring start n s) <= n)%nat.
Proof.
  induction start as [|start IH]; intros n s.
  - revert s. induction n as [|n IHn]; intros [|c s]; cbn; try lia.
    specialize (IHn s). lia.
  - destruct s as [|c s]; cbn; [lia | apply IH].
Qed.

Lemma substring_all s : String.substring 0 (String.length s) s = s.
Proof. induction s as [|c s IH]; [reflexivity|]. cbn. now rewrite IH. Qed.

Lemma includes_wrapped p a pat b q :
  includes (p +:+ (a +:+ pat +:+ b) +:+ q) pat = true.
Proof.
  replace (p +:+ (a +:+ pat +:+ b) +:+ q) with ((p +:+ a) +:+ pat +:+ (b +:+ q))
    by (now rewrite !append_assoc).
  apply includes_of_split.
Qed.

Lemma append_empty_r (s : string) : s +:+ "" = s.
Proof. induction s as [|c s IH]; [reflexivity|]. rewrite append_cons. now rewrite IH. Qed.

(** The extract around a keyword that the text contains. *)
Lemma context_holds_keyword (text kw : string) (w : nat) :
  includes text kw = true -> (String.length kw <= w * 10)%nat ->
  includes (extractContextAroundKeyword text kw w) kw = true /\
  (String.length (extractContextAroundKeyword text kw w) <= 2 * (w * 10) + 6)%nat /\
  ((String.length text <= w * 10)%nat -> extractContextAroundKeyword text kw w = text).
Proof.
  intros Hinc Hkw.
  destruct (includes_index text kw Hinc) as [i Hi].
  destruct (index_split kw text i Hi) as (a & b & Htext & Ha).
  assert (Hlen : String.length text
                 = (i + String.length kw + String.length b)%nat).
  { rewrite Htext, !length_append. lia. }
  unfold extractContextAroundKeyword. rewrite Hi. cbv zeta.
  set (start := (i - w * 10)%nat).
  set (finish := Nat.min (String.length text) (i + w * 10)).
  assert (Hextract : String.substring start (finish - start) text
                     = String.substring start (i - start) a +:+ kw
                       +:+ String.substring 0 (finish - start - (i - start)
                                               - String.length kw) b).
  { rewrite Htext at 1. rewrite <- Ha.
    apply substring_around; rewrite ?Ha; subst start finish; lia. }
  assert (Hsize : (String.length (String.substring start (finish - start) text)
                   <= 2 * (w * 10))%nat).
  { etransitivity; [apply substring_length|]. subst start finish. lia. }
  split; [|split].
  - rewrite Hextract.
    destruct (0 <? start)%nat, (finish <? String.length text)%nat.
    + rewrite append_assoc. apply includes_wrapped.
    + rewrite <- (append_empty_r ("..." +:+ _)), append_assoc.
      apply includes_wrapped.
    + apply (includes_wrapped "").
    + rewrite <- (append_empty_r (_ +:+ kw +:+ _)). apply (includes_wrapped "").
  - destruct (0 <? start)%nat, (finish <? String.length text)%nat;
      rewrite ?length_append; cbn [String.length]; lia.
  - intros Hshort.
    assert (start = O) by (subst start; lia).
    assert (finish = String.length text) by (subst finish; lia).
    replace (0 <? start)%nat with false by (symmetry; apply Nat.ltb_ge; lia).
    replace (finish <? String.length text)%nat with false
      by (symmetry; apply Nat.ltb_ge; lia).
    replace start with O by lia. replace (finish - 0)%nat with (String.length text) by lia.
    apply substring_all.
Qed.

Lemma collect_sound aiResponse entries :
  Forall (fun entry => (String.length entry.1 <= 200)%nat) entries ->
  forall r, In r (collect aiResponse entries) ->
    In (keyword r, productId r) entries /\
    includes aiResponse (keyword r) = true /\
    context r = extractContextAroundKeyword aiResponse (keyword r) 20.
Proof.
  induction 1 as [|[kw pid] entries Hkw _ IH]; intros r Hin; [contradiction|].
  cbn [collect] in Hin. destruct (includes aiResponse kw) eqn:Hinc.
  - destruct Hin as [<-|Hin]; [cbn; auto|].
    destruct (IH r Hin) as (? & ? & ?). cbn [In]. auto.
  - destruct (IH r Hin) as (? & ? & ?). cbn [In]. auto.
Qed.

Lemma collect_keywords aiResponse entries :
  keyword <$> collect aiResponse entries
  = List.filter (includes aiResponse) entries.*1.
Proof.
  induction entries as [|[kw pid] entries IH]; [reflexivity|].
  cbn [collect fmap list_fmap fst List.filter].
  change (list_fmap _ _ fst entries) with (entries.*1).
  destruct (includes aiResponse kw); cbn [fmap list_fmap]; now rewrite <- IH.
Qed.

(** X22. The recommendations read off a chat answer.  The result lists,
    in the order of the keyword table, exactly the keywords that the
    answer contains, each with its product id.  The context stored with
    a recommendation is cut around the first occurrence of its keyword:
    it always contains the keyword, it is at most 406 characters long
    (400 of the answer and an ellipsis on either side), and for an answer
    of at most 200 characters it is the whole answer. *)
Theorem recommendations_quote_their_keyword (aiResponse : string) :
  let result := extractRecommendations aiResponse in
  keyword <$> result = List.filter (includes aiResponse) productKeywords.*1 /\
  (forall r, In r result ->
     In (keyword r, productId r) productKeywords /\
     includes aiResponse (keyword r) = true /\
     includes (context r) (keyword r) = true /\
     (String.length (context r) <= 406)%nat /\
     ((String.length aiResponse <= 200)%nat -> context r = aiResponse)).
Proof.
  intros result. split; [apply collect_keywords|].
  intros r Hin.
  assert (Hshort : Forall (fun entry : string * string =>
                             (String.length entry.1 <= 200)%nat) productKeywords)
    by (repeat constructor; cbn; lia).
  destruct (collect_sound aiResponse productKeywords Hshort r Hin)
    as (Hentry & Hinc & Hcontext).
  assert (Hkw : (String.length (keyword r) <= 20 * 10)%nat).
  { apply (proj1 (Forall_forall _ _) Hshort (keyword r, productId r)).
    now apply list_elem_of_In. }
  destruct (context_holds_keyword aiResponse (keyword r) 20 Hinc Hkw)
    as (Hquote & Hsize & Hwhole).
  rewrite Hcontext. repeat split; auto.
Qed.

Lemma recommendations_quote_their_keyword_witness :
  let answer := "Bei hoher Belastung ist das AquaZero ProMax mit Umkehrosmose die beste Wahl." in
  keyword <$> extractRecommendations answer = ["AquaZero"; "Umkehrosmose"] /\
  includes answer "AquaZero" = true.
Proof.
  intros answer.
  destruct (recommendations_quote_their_keyword answer) as [Hkeys Hall]. split.
  - rewrite Hkeys. vm_compute. reflexivity.
  - destruct (Hall (mkRecommendation "aquazero_promax" "AquaZero" answer))
      as (_ & Hinc & _); [vm_compute; left; reflexivity | exact Hinc].
Defined.

End ChatbotFacts.
